(** * Epub2: a shallow embedding of [app.js] and its specification

    The program is a browser script that downloads a story (one page or a
    series of chapters) through a rotating list of CORS proxies and packs it
    into an EPUB archive.  This file embeds the functions of [src/app.js]
    as Rocq functions and proves the properties its specification states,
    or shows where the script departs from them.
    The repository also holds an earlier variant of the script, with one
    fixed proxy and no retry; the specification takes [app.js] as the
    authority, and so does this file.

    Modelling conventions.
    - A JavaScript string is a [string]: a sequence of 8-bit code units, that
      is, the code units of the Latin-1 range.  Regular expression flags and
      [trim], [toLowerCase] are given their ECMAScript meaning on that range.
    - Effects (the proxy index, the network, the clock, the status line, the
      download) are explicit: a computation is a function from a [World] to a
      completion and a new [World]; the browser capabilities that the script
      only consumes are collected in a [Host] record.
    - An exception is a completion [Threw e]. *)

From Stdlib Require Import String Ascii List ZArith Lia Bool Arith.
From Stdlib Require Import DecimalString DecimalNat DecimalZ.
Import ListNotations.
Local Open Scope list_scope.
Local Open Scope string_scope.
Local Open Scope nat_scope.

(* ================================================================= *)
(** * Part I: definitions *)
(* ================================================================= *)

(** ** JavaScript strings *)

Module Js.

(** The double quote character, and the line feed of template literals. *)
Definition dq : string := String "034"%char "".
Definition nl : string := String "010"%char "".

(** Number-to-string conversion of template literals, on integers. *)
Definition show_nat (n : nat) : string := NilZero.string_of_uint (Nat.to_uint n).
Definition show_Z (z : Z) : string := NilZero.string_of_int (Z.to_int z).

(** [s.startsWith(p)] *)
Fixpoint startsWith (p s : string) : bool :=
  match p with
  | "" => true
  | String a p' =>
      match s with
      | "" => false
      | String b s' => Ascii.eqb a b && startsWith p' s'
      end
  end.

(** [s.includes(p)] *)
Fixpoint includes (p s : string) : bool :=
  startsWith p s ||
  match s with
  | "" => false
  | String _ s' => includes p s'
  end.

(** White space of [String.prototype.trim] among the 8-bit code units:
    TAB, LF, VT, FF, CR, SPACE and NBSP. *)
Definition isWhiteSpace (c : ascii) : bool :=
  let n := nat_of_ascii c in
  (((9 <=? n) && (n <=? 13)) || (n =? 32) || (n =? 160))%nat.

Fixpoint trimStart (s : string) : string :=
  match s with
  | "" => ""
  | String c s' => if isWhiteSpace c then trimStart s' else s
  end.

Fixpoint trimEnd (s : string) : string :=
  match s with
  | "" => ""
  | String c s' =>
      match trimEnd s' with
      | "" => if isWhiteSpace c then "" else String c ""
      | t => String c t
      end
  end.

(** [s.trim()] *)
Definition trim (s : string) : string := trimEnd (trimStart s).

Definition isUpperAZ (c : ascii) : bool :=
  let n := nat_of_ascii c in ((65 <=? n) && (n <=? 90))%nat.
Definition isLowerAZ (c : ascii) : bool :=
  let n := nat_of_ascii c in ((97 <=? n) && (n <=? 122))%nat.
Definition isDigit (c : ascii) : bool :=
  let n := nat_of_ascii c in ((48 <=? n) && (n <=? 57))%nat.

Definition lowerAZ (c : ascii) : ascii :=
  if isUpperAZ c then ascii_of_nat (nat_of_ascii c + 32) else c.
Definition upperAZ (c : ascii) : ascii :=
  if isLowerAZ c then ascii_of_nat (nat_of_ascii c - 32) else c.

(** Lower-casing of one 8-bit code unit: A-Z, and the Latin-1 capitals
    U+00C0..U+00DE other than the multiplication sign U+00D7. *)
Definition toLowerChar (c : ascii) : ascii :=
  let n := nat_of_ascii c in
  if isUpperAZ c then ascii_of_nat (n + 32)
  else if ((192 <=? n) && (n <=? 222) && negb (n =? 215))%nat then ascii_of_nat (n + 32)
  else c.

Fixpoint smap (f : ascii -> ascii) (s : string) : string :=
  match s with
  | "" => ""
  | String c s' => String (f c) (smap f s')
  end.

(** [s.toLowerCase()] *)
Definition toLowerCase (s : string) : string := smap toLowerChar s.

(** [s.replace(/c/g, r)] for a pattern that is one literal character, and
    more generally for a pattern that is a one-character class [cls]. *)
Fixpoint replaceClass (cls : ascii -> bool) (r : string) (s : string) : string :=
  match s with
  | "" => ""
  | String c s' =>
      if cls c then r ++ replaceClass cls r s' else String c (replaceClass cls r s')
  end.

Definition replaceChar (c : ascii) (r : string) (s : string) : string :=
  replaceClass (Ascii.eqb c) r s.

(** [s.split(sep)] for a non-empty separator.  [skip] counts the characters
    of a separator occurrence that are still to be passed over; [cur] is the
    segment collected so far. *)
Fixpoint split_go (sep : string) (skip : nat) (cur : string) (s : string)
  : list string :=
  match s with
  | "" => [cur]
  | String c s' =>
      match skip with
      | S k => split_go sep k cur s'
      | O =>
          if startsWith sep s
          then cur :: split_go sep (String.length sep - 1) "" s'
          else split_go sep 0 (cur ++ String c "") s'
      end
  end.

Definition split (sep s : string) : list string := split_go sep 0 "" s.

(** [xs.join(sep)] *)
Fixpoint join (sep : string) (xs : list string) : string :=
  match xs with
  | [] => ""
  | [x] => x
  | x :: rest => x ++ sep ++ join sep rest
  end.

(** [xs.map((x, i) => f(x, i))], the index starting at [i]. *)
Fixpoint mapi_from {A B : Type} (f : A -> nat -> B) (i : nat) (xs : list A)
  : list B :=
  match xs with
  | [] => []
  | x :: rest => f x i :: mapi_from f (S i) rest
  end.

Definition mapi {A B : Type} (f : A -> nat -> B) (xs : list A) : list B :=
  mapi_from f 0 xs.

(** An exception value: every error the script sees has a [message]. *)
Record JsError := mkError { ename : string; message : string }.

Definition Error (m : string) : JsError := mkError "Error" m.
Definition TypeError (m : string) : JsError := mkError "TypeError" m.

Inductive Completion (A : Type) : Type :=
| Returned (a : A)
| Threw (e : JsError).
Arguments Returned {A} a.
Arguments Threw {A} e.

End Js.
Import Js.

(** ** Regular expressions

    The three stripping patterns of [fetchChapterContent] are kept as
    syntax and run by a backtracking matcher that follows the ECMAScript
    matching rules for the constructs they use. *)

Module Regex.

Inductive regex : Type :=
| Eps                       (* the empty pattern *)
| Lit (c : ascii)           (* a pattern character, under flag [i] *)
| NotLit (c : ascii)        (* the class [[^c]] *)
| WordB                     (* the assertion [\b] *)
| Cat (r1 r2 : regex)       (* concatenation *)
| Star (r : regex)          (* greedy [r*] *)
| NotAhead (r : regex).     (* the negative lookahead [(?!r)] *)

(** Canonicalisation of flag [i] without flag [u] is upper-casing, and it
    never identifies a code unit above 127 with an ASCII one.  The patterns
    of the script are ASCII, so only the upper-casing of a-z decides a
    comparison, and the other code units are left as they are. *)
Definition canon (c : ascii) : ascii := upperAZ c.

(** [\w] (the flags do not enlarge it). *)
Definition isWordChar (c : ascii) : bool :=
  isUpperAZ c || isLowerAZ c || isDigit c || Ascii.eqb c "_"%char.

(** A matcher state: the character before the current position, if any, and
    the input from the current position on. *)
Definition State : Type := option ascii * string.

Definition wordBefore (st : State) : bool :=
  match fst st with Some c => isWordChar c | None => false end.
Definition wordAfter (st : State) : bool :=
  match snd st with String c _ => isWordChar c | "" => false end.

(** The iterations of a greedy star whose body is matched by [m]: at most
    [n] of them, each of which must consume something (ECMAScript rejects an
    iteration that matches the empty string); when no further iteration leads
    to a match, the continuation [k] is tried. *)
Definition starLoop (m : State -> (State -> option State) -> option State)
  (k : State -> option State) : nat -> State -> option State :=
  fix iter (n : nat) (st : State) {struct n} : option State :=
    match n with
    | O => k st
    | S n' =>
        match m st (fun st' =>
                if String.length (snd st') <? String.length (snd st)
                then iter n' st' else None) with
        | Some res => Some res
        | None => k st
        end
    end.

(** [rmatch r st k]: match [r] at [st], then continue with [k]; on failure of
    the continuation the matcher backtracks into [r].  A star runs at most as
    many iterations as there are characters left. *)
Fixpoint rmatch (r : regex) (st : State) (k : State -> option State)
  {struct r} : option State :=
  match r with
  | Eps => k st
  | Lit c =>
      match snd st with
      | String a s' => if Ascii.eqb (canon a) (canon c) then k (Some a, s') else None
      | "" => None
      end
  | NotLit c =>
      match snd st with
      | String a s' => if Ascii.eqb (canon a) (canon c) then None else k (Some a, s')
      | "" => None
      end
  | WordB => if xorb (wordBefore st) (wordAfter st) then k st else None
  | Cat r1 r2 => rmatch r1 st (fun st' => rmatch r2 st' k)
  | Star r1 => starLoop (rmatch r1) k (String.length (snd st)) st
  | NotAhead r1 =>
      match rmatch r1 st Some with
      | Some _ => None
      | None => k st
      end
  end.

(** A match of the whole pattern at [st]: the state at the end of the match. *)
Definition exec (r : regex) (st : State) : option State := rmatch r st Some.

(** [s.replace(r, repl)] with flag [g] and a replacement without [$]:
    leftmost matches, searched again from the end of each match; after an
    empty match the search moves on by one character.  [skip] counts the
    characters of the current match that are still to be passed over. *)
Fixpoint replace_go (r : regex) (repl : string) (skip : nat)
  (prev : option ascii) (s : string) : string :=
  match s with
  | "" =>
      match skip, exec r (prev, "") with
      | O, Some _ => repl
      | _, _ => ""
      end
  | String c s' =>
      match skip with
      | S j => replace_go r repl j (Some c) s'
      | O =>
          match exec r (prev, s) with
          | Some (_, rest) =>
              match String.length s - String.length rest with
              | O => repl ++ String c (replace_go r repl 0 (Some c) s')
              | S j => repl ++ replace_go r repl j (Some c) s'
              end
          | None => String c (replace_go r repl 0 (Some c) s')
          end
      end
  end.

Definition replaceAll (r : regex) (repl : string) (s : string) : string :=
  replace_go r repl 0 None s.

(** A literal word as a pattern. *)
Fixpoint lits (s : string) : regex :=
  match s with
  | "" => Eps
  | String c s' => Cat (Lit c) (lits s')
  end.

End Regex.
Import Regex.

(** ** The document object model, as the script queries it

    [DOMParser] and the selector engine belong to the browser.  A parsed
    document is represented by what the script can observe of it: for each
    selector, the matching elements in document order. *)

Module Dom.

Record Element := mkElement {
  attributes : list (string * string);
  textContent : string;
  innerHTML : string
}.

(** [el.getAttribute(name)]: [null] when the attribute is absent. *)
Fixpoint lookupAttr (name : string) (attrs : list (string * string))
  : option string :=
  match attrs with
  | [] => None
  | (k, v) :: rest => if String.eqb k name then Some v else lookupAttr name rest
  end.

Definition getAttribute (el : Element) (name : string) : option string :=
  lookupAttr name (attributes el).

Definition Document : Type := string -> list Element.

Definition querySelectorAll (doc : Document) (selector : string)
  : list Element := doc selector.

(** [doc.querySelector(sel)] is the first element of
    [doc.querySelectorAll(sel)], or [null]. *)
Definition querySelector (doc : Document) (selector : string)
  : option Element := hd_error (doc selector).

End Dom.
Import Dom.

(** ** The archive writer (JSZip), as the script uses it

    An archive is the ordered collection of its entries: JSZip keeps them in
    an object keyed by full entry name, so assigning an existing name
    replaces that entry in place and a new name is appended, and the archive
    is generated in that order.  A folder handle shares the entries of the
    archive it was made from and prefixes [root] to every name. *)

Module Zip.

(** The compression an entry asks for; an entry that asks for none is
    written with the default of [generateAsync]. *)
Inductive Compression : Type := STORE | DEFLATE.

Record Entry := mkEntry {
  name : string;
  dir : bool;
  data : string;
  compression : option Compression
}.

Definition Archive : Type := list Entry.

(** [files[name] = entry] *)
Fixpoint put (e : Entry) (a : Archive) : Archive :=
  match a with
  | [] => [e]
  | x :: rest => if String.eqb (name x) (name e) then e :: rest else x :: put e rest
  end.

Fixpoint has (n : string) (a : Archive) : bool :=
  match a with
  | [] => false
  | x :: rest => String.eqb (name x) n || has n rest
  end.

(** [files[name]] *)
Fixpoint get (n : string) (a : Archive) : option Entry :=
  match a with
  | [] => None
  | x :: rest => if String.eqb (name x) n then Some x else get n rest
  end.

(** [forceTrailingSlash] *)
Fixpoint endsWithSlash (path : string) : bool :=
  match path with
  | "" => false
  | String c "" => Ascii.eqb c "/"%char
  | String _ rest => endsWithSlash rest
  end.

Definition forceTrailingSlash (path : string) : string :=
  if endsWithSlash path then path else path ++ "/".

(** [fileAdd], once the parent folders exist: the options are completed and
    the entry is assigned.  A folder entry, and an entry without data, has no
    data and is always stored ([o.compression = "STORE"]); any other entry
    keeps the compression it was given, if any. *)
Definition fileAdd (n : string) (isDir : bool) (d : string)
  (c : option Compression) (a : Archive) : Archive :=
  if isDir || String.eqb d ""
  then put (mkEntry (if isDir then forceTrailingSlash n else n) isDir ""
              (Some STORE)) a
  else put (mkEntry n isDir d c) a.

(** [folderAdd]: the folder entry [path/] is created unless it exists. *)
Definition folderAdd (path : string) (a : Archive) : Archive :=
  let n := forceTrailingSlash path in
  if has n a then a else fileAdd n true "" None a.

(** [handle.folder(arg)], for a handle of root [root]: the archive with the
    folder entry, and the root of the new handle, which is the name of that
    entry; an empty [arg] gives the handle itself. *)
Definition folder (root arg : string) (a : Archive) : Archive * string :=
  match arg with
  | "" => (a, root)
  | _ => (folderAdd (root ++ arg) a, forceTrailingSlash (root ++ arg))
  end.

(** [handle.file(n, d, {compression: c})], for a handle of root [root] and a
    name [n] without a slash: the folder of the handle is created when it is
    missing (option [createFolders]), then the entry is assigned. *)
Definition file (root n d : string) (c : option Compression) (a : Archive)
  : Archive :=
  let a' :=
    match root with
    | "" => a
    | _ => folderAdd root a
    end in
  fileAdd (root ++ n) false d c a'.

End Zip.
Import Zip.

(** ** The host environment and the state of a run *)

Module Host.

(** What a request through a proxy comes to: the promise of [fetch] is
    rejected (network error, or the abort of the 30 second timer), or a
    response arrives with a status and a body; reading the body may fail. *)
Inductive Body : Type :=
| BodyText (text : string)
| BodyFails (e : JsError).

Inductive Outcome : Type :=
| Rejected (e : JsError)
| Responded (status : nat) (body : Body).

(** [response.ok]: the status is in the range 200-299. *)
Definition response_ok (status : nat) : bool :=
  (200 <=? status) && (status <=? 299).

(** The capabilities the script consumes.  [transport i u] is the outcome of
    the [i]-th request of the run when it is sent to [u]; [clock i] is the
    value of the [i]-th reading of [Date.now()]. *)
Record Host := mkHost {
  encodeURIComponent : string -> string;
  transport : nat -> string -> Outcome;
  clock : nat -> Z;
  parseFromString : string -> Document
}.

(** The texts of the status line; their pictographs are left out. *)
Inductive Status : Type :=
| PleaseEnterUrl
| OnlyLiterotica
| Analyzing
| Found (count : nat)
| Downloading (chapterNum total : nat)
| Creating
| Downloaded
| Failed (message : string).

Inductive Event : Type :=
| EvFetch (proxyUrl : string)
| EvSleep (ms : nat)
| EvStatus (s : Status) (cls : string)
| EvDisabled (b : bool)
| EvSaveAs (blob : Archive) (filename : string).

Record World := mkWorld {
  currentProxyIndex : nat;
  requests : nat;
  clockReads : nat;
  trace : list Event
}.

Definition initial : World := mkWorld 0 0 0 [].

Definition emit (e : Event) (w : World) : World :=
  mkWorld (currentProxyIndex w) (requests w) (clockReads w) (trace w ++ [e])%list.

(** Computations of the script. *)
Definition M (A : Type) : Type := World -> Completion A * World.

Definition ret {A : Type} (a : A) : M A := fun w => (Returned a, w).
Definition throw {A : Type} (e : JsError) : M A := fun w => (Threw e, w).
Definition bind {A B : Type} (m : M A) (f : A -> M B) : M B :=
  fun w =>
    match m w with
    | (Returned a, w') => f a w'
    | (Threw e, w') => (Threw e, w')
    end.
Definition tryCatch {A : Type} (m : M A) (handler : JsError -> M A) : M A :=
  fun w =>
    match m w with
    | (Returned a, w') => (Returned a, w')
    | (Threw e, w') => handler e w'
    end.
Definition lift {A : Type} (c : Completion A) : M A := fun w => (c, w).
Definition perform (f : World -> World) : M unit := fun w => (Returned tt, f w).

End Host.
Import Host.

Notation "x <- m ;; k" := (bind m (fun x => k))
  (at level 61, m at next level, right associativity).
Notation "m ;;; k" := (bind m (fun _ => k))
  (at level 61, right associativity).

(** ** The script [app.js] *)

Module App.

Definition CORS_PROXIES : list string :=
  [ "https://corsproxy.io/?";
    "https://api.allorigins.win/raw?url=";
    "https://cors-anywhere.herokuapp.com/" ].

(** An index outside the array yields [undefined], which the concatenation
    of [fetchWithRetry] turns into the text "undefined". *)
Definition getProxy (w : World) : string :=
  nth (currentProxyIndex w) CORS_PROXIES "undefined".

Record ChapterRef := mkChapterRef { ref_title : string; url : string }.
Record ChapterContent := mkChapterContent { title : string; content : string }.

(** *** Utility functions *)

Definition updateStatus (s : Status) (cls : string) : M unit :=
  perform (emit (EvStatus s cls)).

Definition escapeXml (str : string) : string :=
  replaceChar "'"%char "&apos;"
    (replaceChar "034"%char "&quot;"
      (replaceChar ">"%char "&gt;"
        (replaceChar "<"%char "&lt;"
          (replaceChar "&"%char "&amp;" str)))).

(** The class [[^a-z0-9]] under flag [i]. *)
Definition notAlnum (c : ascii) : bool :=
  negb (isLowerAZ c || isUpperAZ c || isDigit c).

Definition sanitizeFilename (name : string) : string :=
  toLowerCase (replaceClass notAlnum "_" name).

Definition sleep (ms : nat) : M unit := perform (emit (EvSleep ms)).

(** *** Fetch with retry and proxy fallback *)

Section WithHost.

Variable host : Host.

(** [await fetch(proxyUrl, ...)]: the request is the next one of the run.
    The abort of the 30 second timer is one of the ways the transport
    rejects; the request headers and the console output are not modelled. *)
Definition fetch (proxyUrl : string) : M (nat * Body) :=
  fun w =>
    let w' := mkWorld (currentProxyIndex w) (S (requests w)) (clockReads w)
                (trace w ++ [EvFetch proxyUrl])%list in
    match transport host (requests w) proxyUrl with
    | Rejected e => (Threw e, w')
    | Responded status body => (Returned (status, body), w')
    end.

(** [await response.text()] *)
Definition text_of (body : Body) : M string :=
  match body with
  | BodyText text => ret text
  | BodyFails e => throw e
  end.

(** The body of the [try] block of one attempt. *)
Definition attemptBody (url : string) : M string :=
  fun w =>
    (let proxyUrl := getProxy w ++ encodeURIComponent host url in
     response <- fetch proxyUrl ;;
     if negb (response_ok (fst response))
     then throw (Error ("HTTP " ++ show_nat (fst response)))
     else
       text <- text_of (snd response) ;;
       if String.eqb text "" || (String.length text <? 100)
       then throw (Error "Response too short or empty")
       else ret text) w.

Definition rotate : M unit :=
  perform (fun w =>
    mkWorld ((currentProxyIndex w + 1) mod List.length CORS_PROXIES)
      (requests w) (clockReads w) (trace w)).

(** The [for] loop with [left] iterations to go, the next one numbered
    [attempt], followed by the final [throw]. *)
Fixpoint retryLoop (url : string) (maxRetries : nat) (left attempt : nat)
  (lastError : option JsError) : M string :=
  match left with
  | O =>
      match lastError with
      | Some e =>
          throw (Error ("Failed to fetch after " ++ show_nat maxRetries
                          ++ " attempts: " ++ message e))
      | None =>
          throw (TypeError
                   "Cannot read properties of undefined (reading 'message')")
      end
  | S left' =>
      fun w =>
        match attemptBody url w with
        | (Returned text, w1) => (Returned text, w1)
        | (Threw error, w1) =>
            ((if attempt <? maxRetries - 1
              then rotate ;;; sleep 2000
              else ret tt) ;;;
             retryLoop url maxRetries left' (S attempt) (Some error)) w1
        end
  end.

Definition fetchWithRetry (url : string) (maxRetries : nat) : M string :=
  retryLoop url maxRetries maxRetries 0 None.

(** *** Fetch chapters (series or single) *)

(** The callback of [seriesLinks.forEach], run over the links in order;
    [href.startsWith] on a missing attribute is a [TypeError]. *)
Fixpoint collectLinks (links : list Element) (chapters : list ChapterRef)
  : Completion (list ChapterRef) :=
  match links with
  | [] => Returned chapters
  | link :: rest =>
      match getAttribute link "href" with
      | None =>
          Threw (TypeError
                   "Cannot read properties of null (reading 'startsWith')")
      | Some href =>
          let fullUrl :=
            if startsWith "http" href then href
            else "https://www.literotica.com" ++ href in
          collectLinks rest
            (chapters ++ [mkChapterRef (trim (textContent link)) fullUrl])%list
      end
  end.

Definition fetchChapters (url : string) : M (list ChapterRef) :=
  html <- fetchWithRetry url 3 ;;
  let doc := parseFromString host html in
  let seriesLinks := querySelectorAll doc ".ser-ttl a" in
  if 0 <? List.length seriesLinks
  then lift (collectLinks seriesLinks [])
  else
    let titleEl := querySelector doc "h1" in
    let title :=
      match titleEl with
      | Some el => trim (textContent el)
      | None => "Untitled Story"
      end in
    ret [mkChapterRef title url].

(** *** Fetch chapter content *)

(** The stripping pattern for [tag] (script, style or iframe), flags [g]
    and [i].  In order: the text "<tag"; a word boundary; any number of
    characters other than "<"; any number of groups, each a "<" that does not
    begin "</tag>" followed by characters other than "<"; and "</tag>". *)
Definition stripPattern (tag : string) : regex :=
  Cat (lits ("<" ++ tag))
    (Cat WordB
      (Cat (Star (NotLit "<"%char))
        (Cat (Star (Cat (NotAhead (lits ("</" ++ tag ++ ">")))
                      (Cat (Lit "<"%char) (Star (NotLit "<"%char)))))
          (lits ("</" ++ tag ++ ">"))))).

Definition cleanContent (content : string) : string :=
  let content := replaceAll (stripPattern "script") "" content in
  let content := replaceAll (stripPattern "style") "" content in
  let content := replaceAll (stripPattern "iframe") "" content in
  content.

Definition fetchChapterContent (url : string) (chapterNum totalChapters : nat)
  : M string :=
  tryCatch
    (html <- fetchWithRetry url 3 ;;
     let doc := parseFromString host html in
     let contentDiv := querySelector doc ".aa_ht" in
     let contentDiv :=
       match contentDiv with
       | None => querySelector doc "div.panel article"
       | Some _ => contentDiv
       end in
     let contentDiv :=
       match contentDiv with
       | None => querySelector doc ".b-story-body-x"
       | Some _ => contentDiv
       end in
     match contentDiv with
     | None =>
         throw (Error ("Could not find story content for chapter "
                         ++ show_nat chapterNum))
     | Some el => ret (cleanContent (innerHTML el))
     end)
    (fun error =>
       throw (Error ("Failed to fetch chapter " ++ show_nat chapterNum ++ "/"
                       ++ show_nat totalChapters ++ ": " ++ message error))).

(** *** Create the EPUB file *)

Definition Date_now : M Z :=
  fun w =>
    (Returned (clock host (clockReads w)),
     mkWorld (currentProxyIndex w) (requests w) (S (clockReads w)) (trace w)).

Definition saveAs (blob : Archive) (filename : string) : M unit :=
  perform (emit (EvSaveAs blob filename)).

End WithHost.

Definition containerXml : string :=
    "<?xml version=" ++ dq ++ "1.0" ++ dq ++ "?>" ++ nl ++
    "<container version=" ++ dq ++ "1.0" ++ dq ++ " xmlns=" ++ dq ++
    "urn:oasis:names:tc:opendocument:xmlns:container" ++ dq ++ ">" ++ nl ++
    "  <rootfiles>" ++ nl ++
    "    <rootfile full-path=" ++ dq ++ "OEBPS/content.opf" ++ dq ++
    " media-type=" ++ dq ++ "application/oebps-package+xml" ++ dq ++ "/>" ++
    nl ++
    "  </rootfiles>" ++ nl ++
    "</container>".

Definition chapterFileName (chapterNum : nat) : string :=
  "chapter" ++ show_nat chapterNum ++ ".xhtml".

Definition chapterDocument (chapter : ChapterContent) : string :=
    "<?xml version=" ++ dq ++ "1.0" ++ dq ++ " encoding=" ++ dq ++ "UTF-8" ++
    dq ++ "?>" ++ nl ++
    "<!DOCTYPE html>" ++ nl ++
    "<html xmlns=" ++ dq ++ "http://www.w3.org/1999/xhtml" ++ dq ++ ">" ++
    nl ++
    "<head>" ++ nl ++
    "  <title>" ++ escapeXml (title chapter) ++ "</title>" ++ nl ++
    "</head>" ++ nl ++
    "<body>" ++ nl ++
    "  <h1>" ++ escapeXml (title chapter) ++ "</h1>" ++ nl ++
    "  " ++ content chapter ++ nl ++
    "</body>" ++ nl ++
    "</html>".

(** The callback of [chapters.forEach], from index [index] on. *)
Fixpoint addChapters (oebps : string) (chapters : list ChapterContent)
  (index : nat) (zip : Archive) : Archive :=
  match chapters with
  | [] => zip
  | chapter :: rest =>
      let chapterNum := index + 1 in
      addChapters oebps rest (S index)
        (file oebps (chapterFileName chapterNum) (chapterDocument chapter)
           None zip)
  end.

Definition manifestItem (_ : ChapterContent) (i : nat) : string :=
    "    <item id=" ++ dq ++ "chapter" ++ show_nat (i + 1) ++ dq ++
    " href=" ++ dq ++ "chapter" ++ show_nat (i + 1) ++ ".xhtml" ++ dq ++
    " media-type=" ++ dq ++ "application/xhtml+xml" ++ dq ++ "/>".

Definition spineItem (_ : ChapterContent) (i : nat) : string :=
    "    <itemref idref=" ++ dq ++ "chapter" ++ show_nat (i + 1) ++ dq ++ "/>".

Definition contentOpf (title : string) (now : Z)
  (chapterManifest chapterSpine : string) : string :=
    "<?xml version=" ++ dq ++ "1.0" ++ dq ++ " encoding=" ++ dq ++ "UTF-8" ++
    dq ++ "?>" ++ nl ++
    "<package xmlns=" ++ dq ++ "http://www.idpf.org/2007/opf" ++ dq ++
    " version=" ++ dq ++ "3.0" ++ dq ++ " unique-identifier=" ++ dq ++
    "uid" ++ dq ++ ">" ++ nl ++
    "  <metadata xmlns:dc=" ++ dq ++ "http://purl.org/dc/elements/1.1/" ++
    dq ++ ">" ++ nl ++
    "    <dc:title>" ++ escapeXml title ++ "</dc:title>" ++ nl ++
    "    <dc:creator>Literotica Author</dc:creator>" ++ nl ++
    "    <dc:language>en</dc:language>" ++ nl ++
    "    <dc:identifier id=" ++ dq ++ "uid" ++ dq ++ ">literotica-" ++
    show_Z now ++ "</dc:identifier>" ++ nl ++
    "  </metadata>" ++ nl ++
    "  <manifest>" ++ nl ++
    "    <item id=" ++ dq ++ "ncx" ++ dq ++ " href=" ++ dq ++ "toc.ncx" ++
    dq ++ " media-type=" ++ dq ++ "application/x-dtbncx+xml" ++ dq ++ "/>" ++
    nl ++
    chapterManifest ++ nl ++
    "  </manifest>" ++ nl ++
    "  <spine toc=" ++ dq ++ "ncx" ++ dq ++ ">" ++ nl ++
    chapterSpine ++ nl ++
    "  </spine>" ++ nl ++
    "</package>".

Definition navPoint (chapter : ChapterContent) (i : nat) : string :=
    "    <navPoint id=" ++ dq ++ "chapter" ++ show_nat (i + 1) ++ dq ++
    " playOrder=" ++ dq ++ show_nat (i + 1) ++ dq ++ ">" ++ nl ++
    "      <navLabel>" ++ nl ++
    "        <text>" ++ escapeXml (title chapter) ++ "</text>" ++ nl ++
    "      </navLabel>" ++ nl ++
    "      <content src=" ++ dq ++ "chapter" ++ show_nat (i + 1) ++
    ".xhtml" ++ dq ++ "/>" ++ nl ++
    "    </navPoint>".

Definition tocNcx (title : string) (now : Z) (navPoints : string) : string :=
    "<?xml version=" ++ dq ++ "1.0" ++ dq ++ " encoding=" ++ dq ++ "UTF-8" ++
    dq ++ "?>" ++ nl ++
    "<ncx xmlns=" ++ dq ++ "http://www.daisy.org/z3986/2005/ncx/" ++ dq ++
    " version=" ++ dq ++ "2005-1" ++ dq ++ ">" ++ nl ++
    "  <head>" ++ nl ++
    "    <meta name=" ++ dq ++ "dtb:uid" ++ dq ++ " content=" ++ dq ++
    "literotica-" ++ show_Z now ++ dq ++ "/>" ++ nl ++
    "    <meta name=" ++ dq ++ "dtb:depth" ++ dq ++ " content=" ++ dq ++
    "1" ++ dq ++ "/>" ++ nl ++
    "  </head>" ++ nl ++
    "  <docTitle>" ++ nl ++
    "    <text>" ++ escapeXml title ++ "</text>" ++ nl ++
    "  </docTitle>" ++ nl ++
    "  <navMap>" ++ nl ++
    navPoints ++ nl ++
    "  </navMap>" ++ nl ++
    "</ncx>".

(** The archive that [createEpub] has built when it calls
    [zip.generateAsync]; [now1] and [now2] are the two readings of
    [Date.now()], in the order of the calls. *)
Definition buildArchive (title : string) (chapters : list ChapterContent)
  (now1 now2 : Z) : Archive :=
  let zip : Archive := [] in
  let zip := file "" "mimetype" "application/epub+zip" (Some STORE) zip in
  let '(zip, metaInf) := folder "" "META-INF" zip in
  let zip := file metaInf "container.xml" containerXml None zip in
  let '(zip, oebps) := folder "" "OEBPS" zip in
  let zip := addChapters oebps chapters 0 zip in
  let chapterManifest := join nl (mapi manifestItem chapters) in
  let chapterSpine := join nl (mapi spineItem chapters) in
  let zip :=
    file oebps "content.opf"
      (contentOpf title now1 chapterManifest chapterSpine) None zip in
  let navPoints := join nl (mapi navPoint chapters) in
  let zip := file oebps "toc.ncx" (tocNcx title now2 navPoints) None zip in
  zip.

Section WithHost2.

Variable host : Host.

Definition createEpub (title : string) (chapters : list ChapterContent)
  : M unit :=
  now1 <- Date_now host ;;
  now2 <- Date_now host ;;
  let blob := buildArchive title chapters now1 now2 in
  saveAs blob (sanitizeFilename title ++ ".epub").

(** *** Main conversion handler *)

(** The download loop of [handleConvert], from index [i] on. *)
Fixpoint downloadChapters (rest : list ChapterRef) (i total : nat)
  (chapterContents : list ChapterContent) : M (list ChapterContent) :=
  match rest with
  | [] => ret chapterContents
  | chapter :: rest' =>
      updateStatus (Downloading (i + 1) total) "info" ;;;
      content <- fetchChapterContent host (url chapter) (i + 1) total ;;
      let chapterContents :=
        (chapterContents ++ [mkChapterContent (ref_title chapter) content])%list in
      (if i <? total - 1 then sleep 1000 else ret tt) ;;;
      downloadChapters rest' (S i) total chapterContents
  end.

(** [chapterContents[0].title.split(" - ")[0] || "Literotica Story"] *)
Definition storyTitleOf (chapterContents : list ChapterContent)
  : Completion string :=
  match chapterContents with
  | [] =>
      Threw (TypeError
               "Cannot read properties of undefined (reading 'title')")
  | first :: _ =>
      let segment := hd "" (split " - " (title first)) in
      Returned (if String.eqb segment "" then "Literotica Story" else segment)
  end.

Definition setDisabled (b : bool) : M unit := perform (emit (EvDisabled b)).

(** [handleConvert], for the text [input] of the URL field. *)
Definition handleConvert (input : string) : M unit :=
  let url := trim input in
  if String.eqb url "" then updateStatus PleaseEnterUrl "error"
  else if negb (includes "literotica.com" url)
  then updateStatus OnlyLiterotica "error"
  else
    setDisabled true ;;;
    updateStatus Analyzing "info" ;;;
    fun w =>
      let '(_, w') :=
        tryCatch
          (chapters <- fetchChapters host url ;;
           (if List.length chapters =? 0
            then throw (Error "No chapters found") else ret tt) ;;;
           updateStatus (Found (List.length chapters)) "info" ;;;
           chapterContents <-
             downloadChapters chapters 0 (List.length chapters) [] ;;
           updateStatus Creating "info" ;;;
           storyTitle <- lift (storyTitleOf chapterContents) ;;
           createEpub storyTitle chapterContents ;;;
           updateStatus Downloaded "success")
          (fun error => updateStatus (Failed (message error)) "error") w in
      setDisabled false w'.

End WithHost2.

End App.
Import App.

(** ** The vocabulary of the specification *)

Module Spec.

(** *** Retrieval *)

(** An attempt fails, with a detail: a network error or the timeout, a
    status outside 200-299, a body that cannot be read, or a body of fewer
    than 100 characters. *)
Inductive Fails : Outcome -> string -> Prop :=
| Fails_rejected (e : JsError) :
    Fails (Rejected e) (message e)
| Fails_status (status : nat) (body : Body) :
    ~ (200 <= status <= 299) ->
    Fails (Responded status body) ("HTTP " ++ show_nat status)
| Fails_body (status : nat) (e : JsError) :
    200 <= status <= 299 ->
    Fails (Responded status (BodyFails e)) (message e)
| Fails_short (status : nat) (text : string) :
    200 <= status <= 299 ->
    String.length text < 100 ->
    Fails (Responded status (BodyText text)) "Response too short or empty".

(** An attempt succeeds with a body: success status, at least 100
    characters. *)
Inductive Succeeds : Outcome -> string -> Prop :=
| Succeeds_intro (status : nat) (text : string) :
    200 <= status <= 299 ->
    100 <= String.length text ->
    Succeeds (Responded status (BodyText text)) text.

(** The request URL when the rotation has advanced [i] times from index 0. *)
Definition proxyUrlAt (host : Host) (url : string) (i : nat) : string :=
  nth (i mod 3) CORS_PROXIES "undefined" ++ encodeURIComponent host url.

(** What [n] failed attempts that are each followed by a retry leave in the
    trace, the first one made at rotation [i]. *)
Fixpoint retried (host : Host) (url : string) (i n : nat) : list Event :=
  match n with
  | O => []
  | S n' => EvFetch (proxyUrlAt host url i) :: EvSleep 2000
              :: retried host url (S i) n'
  end.

Definition isFetch (e : Event) : bool :=
  match e with EvFetch _ => true | _ => false end.

(** The world after one request sent to [u]. *)
Definition requested (u : string) (w : World) : World :=
  mkWorld (currentProxyIndex w) (S (requests w)) (clockReads w)
    (trace w ++ [EvFetch u])%list.

(** The world after a failed attempt that is followed by a retry. *)
Definition retriedOnce (u : string) (w : World) : World :=
  mkWorld ((currentProxyIndex w + 1) mod 3) (S (requests w)) (clockReads w)
    ((trace w ++ [EvFetch u]) ++ [EvSleep 2000])%list.

(** *** The package *)

(** The entries that every archive starts with. *)
Definition fixedEntries : list Entry :=
  [ mkEntry "mimetype" false "application/epub+zip" (Some STORE);
    mkEntry "META-INF/" true "" (Some STORE);
    mkEntry "META-INF/container.xml" false containerXml None;
    mkEntry "OEBPS/" true "" (Some STORE) ].

(** The chapters with their 1-based positions. *)
Definition numbered {A : Type} (xs : list A) : list (nat * A) :=
  combine (seq 1 (List.length xs)) xs.

(** The archive entry of the chapter document at position [k]. *)
Definition chapterEntryName (k : nat) : string :=
  "OEBPS/chapter" ++ show_nat k ++ ".xhtml".

Definition chapterEntry (p : nat * ChapterContent) : Entry :=
  mkEntry (chapterEntryName (fst p)) false (chapterDocument (snd p)) None.

(** The chapter entries for positions [i+1], [i+2], ... *)
Definition chapterEntriesFrom (i : nat) (chapters : list ChapterContent)
  : list Entry :=
  map chapterEntry (combine (seq (S i) (List.length chapters)) chapters).

(** The manifest item, the spine reference and the navigation point of
    position [k]. *)
Definition manifestItemFor (k : nat) : string :=
    "    <item id=" ++ dq ++ "chapter" ++ show_nat k ++ dq ++
    " href=" ++ dq ++ "chapter" ++ show_nat k ++ ".xhtml" ++ dq ++
    " media-type=" ++ dq ++ "application/xhtml+xml" ++ dq ++ "/>".

Definition spineItemFor (k : nat) : string :=
    "    <itemref idref=" ++ dq ++ "chapter" ++ show_nat k ++ dq ++ "/>".

Definition navPointFor (k : nat) (label : string) : string :=
    "    <navPoint id=" ++ dq ++ "chapter" ++ show_nat k ++ dq ++
    " playOrder=" ++ dq ++ show_nat k ++ dq ++ ">" ++ nl ++
    "      <navLabel>" ++ nl ++
    "        <text>" ++ label ++ "</text>" ++ nl ++
    "      </navLabel>" ++ nl ++
    "      <content src=" ++ dq ++ "chapter" ++ show_nat k ++
    ".xhtml" ++ dq ++ "/>" ++ nl ++
    "    </navPoint>".

Definition packageEntry (title : string) (now : Z) (n : nat) : Entry :=
  mkEntry "OEBPS/content.opf" false
    (contentOpf title now
       (join nl (map manifestItemFor (seq 1 n)))
       (join nl (map spineItemFor (seq 1 n))))
    None.

Definition navigationEntry (title : string) (now : Z)
  (chapters : list ChapterContent) : Entry :=
  mkEntry "OEBPS/toc.ncx" false
    (tocNcx title now
       (join nl (map (fun p => navPointFor (fst p) (escapeXml (App.title (snd p))))
                   (numbered chapters))))
    None.

(** *** XML text *)

(** The entity of a reserved character; any other character is itself. *)
Definition escapeChar (c : ascii) : string :=
  if Ascii.eqb "&"%char c then "&amp;"
  else if Ascii.eqb "<"%char c then "&lt;"
  else if Ascii.eqb ">"%char c then "&gt;"
  else if Ascii.eqb "034"%char c then "&quot;"
  else if Ascii.eqb "'"%char c then "&apos;"
  else String c "".

(** A text with every character escaped, in one pass. *)
Fixpoint xmlText (s : string) : string :=
  match s with
  | "" => ""
  | String c s' => escapeChar c ++ xmlText s'
  end.

(** The characters that may not appear raw in XML text or attribute values
    (the ampersand apart, which starts the entities). *)
Definition isMarkupChar (c : ascii) : bool :=
  Ascii.eqb "<"%char c || Ascii.eqb ">"%char c || Ascii.eqb "034"%char c
  || Ascii.eqb "'"%char c.

Fixpoint forallb_string (p : ascii -> bool) (s : string) : bool :=
  match s with
  | "" => true
  | String c s' => p c && forallb_string p s'
  end.

(** The inverse of escaping: each entity is read back as its character. *)
Fixpoint decodeXml (skip : nat) (s : string) : string :=
  match s with
  | "" => ""
  | String c s' =>
      match skip with
      | S j => decodeXml j s'
      | O =>
          if startsWith "&amp;" s then String "&"%char (decodeXml 4 s')
          else if startsWith "&lt;" s then String "<"%char (decodeXml 3 s')
          else if startsWith "&gt;" s then String ">"%char (decodeXml 3 s')
          else if startsWith "&quot;" s then String "034"%char (decodeXml 5 s')
          else if startsWith "&apos;" s then String "'"%char (decodeXml 5 s')
          else String c (decodeXml 0 s')
      end
  end.

(** [Embeds x s]: the text [x] occurs in [s]. *)
Definition Embeds (x s : string) : Prop :=
  exists pre post, s = pre ++ x ++ post.

(** The title of the escaping example of the specification. *)
Definition fooBar : string := "Foo & " ++ dq ++ "Bar" ++ dq.

(** *** Titles and file names *)

Definition Occurs (sep s : string) : Prop :=
  exists a b, s = a ++ sep ++ b.

(** [seg] is what comes before the first occurrence of [sep] in [s], or the
    whole of [s] when [sep] does not occur. *)
Definition FirstSegment (sep s seg : string) : Prop :=
  (exists rest,
     s = seg ++ sep ++ rest /\
     forall a b, s = a ++ sep ++ b -> String.length seg <= String.length a)
  \/ (seg = s /\ ~ Occurs sep s).

Fixpoint firstSeg (sep s : string) : string :=
  match s with
  | "" => ""
  | String c s' => if startsWith sep s then "" else String c (firstSeg sep s')
  end.

(** Letters A-Z, a-z and digits. *)
Definition isAlnum (c : ascii) : bool :=
  isLowerAZ c || isUpperAZ c || isDigit c.

(** A character of a file name: an alphanumeric character in lower case, an
    underscore for anything else. *)
Definition fileNameChar (c : ascii) : ascii :=
  if isAlnum c then lowerAZ c else "_"%char.

(** *** Discovery and extraction *)

Definition canonicalOrigin : string := "https://www.literotica.com".

Definition isAbsoluteUrl (u : string) : bool :=
  startsWith "http://" u || startsWith "https://" u.

(** A link target that is a plain relative path: made of letters, digits,
    "-", ".", "_", "~" and slashes only, and not beginning with two slashes.
    Such a target has no scheme, no authority, no query and no fragment. *)
Definition isPathChar (c : ascii) : bool :=
  isAlnum c || Ascii.eqb c "-"%char || Ascii.eqb c "."%char
  || Ascii.eqb c "_"%char || Ascii.eqb c "~"%char || Ascii.eqb c "/"%char.

Definition isPathTarget (href : string) : bool :=
  forallb_string isPathChar href && negb (startsWith "//" href).

(** What follows the prefix [p] in [s]. *)
Fixpoint afterPrefix (p s : string) : option string :=
  match p with
  | "" => Some s
  | String a p' =>
      match s with
      | "" => None
      | String b s' => if Ascii.eqb a b then afterPrefix p' s' else None
      end
  end.

(** The authority at the start of [s]: the text up to the first "/", "?"
    or "#". *)
Fixpoint authorityText (s : string) : string :=
  match s with
  | "" => ""
  | String c s' =>
      if Ascii.eqb c "/"%char || Ascii.eqb c "?"%char || Ascii.eqb c "#"%char
      then ""
      else String c (authorityText s')
  end.

(** The origin of an http(s) URL: its scheme and its authority. *)
Definition originOf (u : string) : option string :=
  match afterPrefix "https://" u with
  | Some rest => Some ("https://" ++ authorityText rest)
  | None =>
      match afterPrefix "http://" u with
      | Some rest => Some ("http://" ++ authorityText rest)
      | None => None
      end
  end.

(** The title of a standalone page: its first heading, or the placeholder. *)
Definition headingTitle (doc : Document) : string :=
  match querySelector doc "h1" with
  | Some el => trim (textContent el)
  | None => "Untitled Story"
  end.

(** The discovery property as the specification states it, for one source
    URL and one starting state.  Of the resolution of relative targets
    against the canonical origin it asks only what any resolution gives: a
    target that is a plain relative path yields a URL of that origin. *)
Definition DiscoverClaim (host : Host) (sourceUrl : string) (w : World) : Prop :=
  forall html w',
    fetchWithRetry host sourceUrl 3 w = (Returned html, w') ->
    let doc := parseFromString host html in
    let links := querySelectorAll doc ".ser-ttl a" in
    (links <> [] ->
       exists refs,
         fetchChapters host sourceUrl w = (Returned refs, w') /\
         Forall2 (fun link r =>
                    ref_title r = trim (textContent link) /\
                    isAbsoluteUrl (url r) = true /\
                    forall href, getAttribute link "href" = Some href ->
                                 isPathTarget href = true ->
                                 originOf (url r) = Some canonicalOrigin)
           links refs) /\
    (links = [] ->
       fetchChapters host sourceUrl w =
         (Returned [mkChapterRef (headingTitle doc) sourceUrl], w')).

(** What [fetchChapters] makes of a link with target [href]. *)
Definition prefixedUrl (href : string) : string :=
  if startsWith "http" href then href else canonicalOrigin ++ href.

Definition refOfLink (link : Element) : ChapterRef :=
  mkChapterRef (trim (textContent link))
    (match getAttribute link "href" with
     | Some href => prefixedUrl href
     | None => ""
     end).

Definition hasHref (link : Element) : bool :=
  match getAttribute link "href" with Some _ => true | None => false end.

(** The fallback chain of content selectors. *)
Definition selectorChain : list string :=
  [ ".aa_ht"; "div.panel article"; ".b-story-body-x" ].

Fixpoint firstMatch (doc : Document) (chain : list string) : option Element :=
  match chain with
  | [] => None
  | selector :: rest =>
      match querySelector doc selector with
      | Some el => Some el
      | None => firstMatch doc rest
      end
  end.

(** The content-not-found error of chapter [chapterNum] of [totalChapters]. *)
Definition contentNotFound (chapterNum totalChapters : nat) : JsError :=
  Error ("Failed to fetch chapter " ++ show_nat chapterNum ++ "/"
           ++ show_nat totalChapters
           ++ ": Could not find story content for chapter "
           ++ show_nat chapterNum).

(** *** Identifiers *)

Fixpoint dropChars (n : nat) (s : string) : string :=
  match n, s with
  | O, _ => s
  | S n', String _ s' => dropChars n' s'
  | S _, "" => ""
  end.

(** The text of [s] before the first occurrence of [stop]. *)
Fixpoint before (stop : string) (s : string) : option string :=
  if startsWith stop s then Some ""
  else
    match s with
    | "" => None
    | String c s' =>
        match before stop s' with
        | Some t => Some (String c t)
        | None => None
        end
    end.

(** The text between the first occurrence of [opening] in [s] and the next
    occurrence of [closing]. *)
Fixpoint between (opening closing : string) (s : string) : option string :=
  if startsWith opening s
  then before closing (dropChars (String.length opening) s)
  else
    match s with
    | "" => None
    | String _ s' => between opening closing s'
    end.

(** The values of the attribute occurrences [marker] (the text up to and
    including the opening quote) in [s], in order. *)
Fixpoint attrValues (marker : string) (s : string) : list string :=
  match s with
  | "" => []
  | String _ s' =>
      if startsWith marker s
      then
        match before dq (dropChars (String.length marker) s) with
        | Some v => v :: attrValues marker s'
        | None => attrValues marker s'
        end
      else attrValues marker s'
  end.

(** The package identifier of content.opf and the uid of toc.ncx. *)
Definition packageIdentifier (opf : string) : option string :=
  between ("<dc:identifier id=" ++ dq ++ "uid" ++ dq ++ ">")
    "</dc:identifier>" opf.

Definition navigationUid (ncx : string) : option string :=
  between ("<meta name=" ++ dq ++ "dtb:uid" ++ dq ++ " content=" ++ dq)
    dq ncx.

(** *** Markup *)

(** [ciPrefix p prev s]: the state after reading the word [p] at the start
    of [s], letter case ignored. *)
Fixpoint ciPrefix (p : string) (prev : option ascii) (s : string)
  : option State :=
  match p with
  | "" => Some (prev, s)
  | String c p' =>
      match s with
      | String a s' =>
          if Ascii.eqb (canon a) (canon c) then ciPrefix p' (Some a) s' else None
      | "" => None
      end
  end.

(** The state after the longest run of characters other than "<". *)
Fixpoint skipText (prev : option ascii) (s : string) : State :=
  match s with
  | "" => (prev, "")
  | String a s' =>
      if Ascii.eqb a "<"%char then (prev, s) else skipText (Some a) s'
  end.

(** The input is at its end or at a "<". *)
Definition atMarkup (s : string) : Prop :=
  s = "" \/ exists s', s = String "<"%char s'.

(** The state after the first occurrence of [close] in [s]. *)
Fixpoint scanClose (close : string) (prev : option ascii) (s : string)
  : option State :=
  match ciPrefix close prev s with
  | Some st => Some st
  | None =>
      match s with
      | "" => None
      | String a s' => scanClose close (Some a) s'
      end
  end.

(** What the stripping pattern for [tag] matches at the start of [s]: the
    opener "<tag" at a word boundary, and everything up to and including the
    first "</tag>" after it. *)
Definition matchTag (tag : string) (s : string) : option State :=
  match ciPrefix ("<" ++ tag) None s with
  | Some st =>
      if xorb (wordBefore st) (wordAfter st)
      then scanClose ("</" ++ tag ++ ">") (fst st) (snd st)
      else None
  | None => None
  end.

(** The three kinds of element that are stripped. *)
Inductive Tag : Type := Script | Style | Iframe.

Definition tagName (t : Tag) : string :=
  match t with
  | Script => "script"
  | Style => "style"
  | Iframe => "iframe"
  end.

Definition Tag_eqb (a b : Tag) : bool :=
  match a, b with
  | Script, Script | Style, Style | Iframe, Iframe => true
  | _, _ => false
  end.

(** A captured fragment, as the sequence of the pieces of its
    serialisation: character data, comments, the start and end tags of
    elements that are kept, and whole script, style and iframe elements. *)
Inductive Node : Type :=
| Text (s : string)
| Comment (data : string)
| StartTag (name attrs : string)
| EndTag (name : string)
| Block (t : Tag) (attrs body : string).

Definition serializeNode (n : Node) : string :=
  match n with
  | Text s => s
  | Comment data => "<!--" ++ data ++ "-->"
  | StartTag name attrs => "<" ++ name ++ attrs ++ ">"
  | EndTag name => "</" ++ name ++ ">"
  | Block t attrs body =>
      "<" ++ tagName t ++ attrs ++ ">" ++ body ++ "</" ++ tagName t ++ ">"
  end.

Fixpoint serialize (nodes : list Node) : string :=
  match nodes with
  | [] => ""
  | n :: rest => serializeNode n ++ serialize rest
  end.

Definition isBlock (n : Node) : bool :=
  match n with Block _ _ _ => true | _ => false end.

Definition isBlockOf (t : Tag) (n : Node) : bool :=
  match n with Block t' _ _ => Tag_eqb t t' | _ => false end.

(** Structural removal: the script, style and iframe elements are dropped,
    every other piece stays. *)
Definition removeBlocks (nodes : list Node) : list Node :=
  filter (fun n => negb (isBlock n)) nodes.

(** The sanitising property as the specification states it, for one
    fragment. *)
Definition StructuralClaim (nodes : list Node) : Prop :=
  cleanContent (serialize nodes) = serialize (removeBlocks nodes).

Definition noLt (s : string) : bool :=
  forallb_string (fun c => negb (Ascii.eqb c "<"%char)) s.

Definition startsCI (p s : string) : bool :=
  match ciPrefix p None s with Some _ => true | None => false end.

(** *** Runs *)

Definition isNetwork (e : Event) : bool :=
  match e with EvFetch _ | EvSleep _ => true | _ => false end.

Definition isSaveAs (e : Event) : bool :=
  match e with EvSaveAs _ _ => true | _ => false end.

Definition isDisabled (e : Event) : bool :=
  match e with EvDisabled _ => true | _ => false end.

(** Requests, waits and status lines of class "info": the events of the
    download phase. *)
Definition isProgress (e : Event) : bool :=
  match e with
  | EvFetch _ | EvSleep _ => true
  | EvStatus _ cls => String.eqb cls "info"
  | _ => false
  end.

(** [w'] is [w] after further events, all of which satisfy [p]. *)
Definition Extends (p : Event -> bool) (w w' : World) : Prop :=
  exists added, trace w' = (trace w ++ added)%list /\ forallb p added = true.

(** The text of the error that [fetchWithRetry] throws after [n] attempts,
    the last of which failed with detail [d]. *)
Definition exhaustedMessage (n : nat) (d : string) : string :=
  "Failed to fetch after " ++ show_nat n ++ " attempts: " ++ d.

(** The text of the error that [fetchChapterContent] throws for chapter
    [chapterNum] of [totalChapters] when the cause has detail [d]. *)
Definition chapterMessage (chapterNum totalChapters : nat) (d : string)
  : string :=
  "Failed to fetch chapter " ++ show_nat chapterNum ++ "/"
    ++ show_nat totalChapters ++ ": " ++ d.

(** *** Reading the package back *)













(** *** Further vocabulary *)

(** The five characters that [escapeXml] replaces. *)
Definition isReservedChar (c : ascii) : bool :=
  Ascii.eqb "&"%char c || isMarkupChar c.

(** The characters of a sanitised file name: a-z, 0-9 and the underscore. *)
Definition isFileNameChar (c : ascii) : bool :=
  isLowerAZ c || isDigit c || Ascii.eqb c "_"%char.

(** [Subseq a b]: [a] is [b] with some characters deleted. *)
Inductive Subseq : string -> string -> Prop :=
| Subseq_nil : Subseq "" ""
| Subseq_keep (c : ascii) (a b : string) :
    Subseq a b -> Subseq (String c a) (String c b)
| Subseq_drop (c : ascii) (a b : string) :
    Subseq a b -> Subseq a (String c b).

(** [s] mentions the opener "<tag" somewhere, letter case ignored. *)
Fixpoint mentionsOpener (tag : string) (s : string) : bool :=
  startsCI ("<" ++ tag) s ||
  match s with
  | "" => false
  | String _ s' => mentionsOpener tag s'
  end.

(** Equality of texts, letter case ignored. *)
Definition ciEq (a b : string) : Prop := smap canon a = smap canon b.

(** The last character of a text. *)
Fixpoint lastChar (s : string) : option ascii :=
  match s with
  | "" => None
  | String c "" => Some c
  | String _ s' => lastChar s'
  end.

(** The character before the position reached after reading [m], when
    [prev] was the character before [m]. *)
Fixpoint lastOr (prev : option ascii) (m : string) : option ascii :=
  match m with
  | "" => prev
  | String c m' => lastOr (Some c) m'
  end.

(** [s] mentions one of the three openers. *)
Definition mentionsAnyOpener (s : string) : bool :=
  mentionsOpener "script" s || mentionsOpener "style" s
  || mentionsOpener "iframe" s.

(** [s] holds the closing tag of [t] somewhere, letter case ignored. *)
Fixpoint mentionsCloser (t : Tag) (s : string) : bool :=
  startsCI ("</" ++ tagName t ++ ">") s ||
  match s with
  | "" => false
  | String _ s' => mentionsCloser t s'
  end.

(** What follows the name in a start tag begins with a character that
    cannot continue the name (or is empty, and ">" follows). *)
Definition boundaryAttrs (attrs : string) : bool :=
  match attrs with
  | "" => true
  | String c _ => negb (isWordChar c)
  end.

(** A piece without a stray opener: character data holds no "<" (it is
    serialised escaped); a comment and the start or end tag of an element
    that is kept mention none of "<script", "<style" and "<iframe"; a
    script, style or iframe element mentions none of them past its own
    start, and its closing tag nowhere before its end.  A "<" may occur in
    comments, in attribute values and in the content of these elements. *)
Definition tame (n : Node) : bool :=
  match n with
  | Text s => noLt s
  | Comment _ | StartTag _ _ | EndTag _ =>
      negb (mentionsAnyOpener (serializeNode n))
  | Block t attrs body =>
      boundaryAttrs attrs
      && negb (mentionsAnyOpener
                 (tagName t ++ attrs ++ ">" ++ body ++ "</" ++ tagName t
                    ++ ">"))
      && negb (mentionsCloser t (attrs ++ ">" ++ body))
  end.

(** [inner] ends where the first occurrence of [close] in [s] begins. *)
Definition FirstAt (close inner s : string) : Prop :=
  forall a m b, s = a ++ m ++ b -> ciEq m close ->
                String.length inner <= String.length a.

(** [body] is what extraction makes of a page that the transport delivered
    for [url]: one of the requests numbered from [lo] up to, and not
    including, [hi] was sent to one of the proxies for [url] and was answered
    with success and a text, and [body] is the inner markup, with the script,
    style and iframe patterns stripped, of the first element that the
    selector chain finds in the document parsed from that text. *)
Definition ExtractedFrom (host : Host) (url : string) (lo hi : nat)
  (body : string) : Prop :=
  exists (k : nat) (proxy html : string) (el : Element),
    lo <= k < hi /\
    In proxy CORS_PROXIES /\
    Succeeds (transport host k (proxy ++ encodeURIComponent host url)) html /\
    firstMatch (parseFromString host html) selectorChain = Some el /\
    body = cleanContent (innerHTML el).

(** One rotation of the proxy index. *)
Definition rotated (w : World) : World := snd (rotate w).

End Spec.
Import Spec.

(** ** Fixtures: concrete hosts and inputs for the examples *)

Module Fixtures.

Definition storyUrl : string := "https://www.literotica.com/s/my-story".

Definition noDocument : Document := fun _ => [].

(** A transport that is always offline. *)
Definition offlineHost : Host :=
  mkHost (fun s => s) (fun _ _ => Rejected (TypeError "Failed to fetch"))
    (fun _ => 0%Z) (fun _ => noDocument).

Definition page : string :=
  "<html><head><title>My Story</title></head><body><h1>My Story - Part 1</h1>"
  ++ "<div class='aa_ht'><p>Once upon a time.</p></div></body></html>".

(** A transport whose first proxy answers 200 with an empty page and whose
    later answers are the page. *)
Definition flakyHost : Host :=
  mkHost (fun s => s)
    (fun i _ => if i =? 0 then Responded 200 (BodyText "")
                else Responded 200 (BodyText page))
    (fun _ => 0%Z) (fun _ => noDocument).

(** A transport that always answers with the page. *)
Definition servingHost (doc : Document) (now : nat -> Z) : Host :=
  mkHost (fun s => s) (fun _ _ => Responded 200 (BodyText page)) now
    (fun _ => doc).

(** A series index with two links; the second target is a path without a
    leading slash. *)
Definition seriesDoc : Document :=
  fun selector =>
    if String.eqb selector ".ser-ttl a"
    then [ mkElement [("href", "/s/my-story-ch-01")] " Chapter 1 " "Chapter 1";
           mkElement [("href", "s/my-story-ch-02")] "Chapter 2" "Chapter 2" ]
    else [].

(** A series index whose links all start with "http" or with a slash. *)
Definition rootedSeriesDoc : Document :=
  fun selector =>
    if String.eqb selector ".ser-ttl a"
    then [ mkElement [("href", "/s/my-story-ch-01")] " Chapter 1 " "Chapter 1";
           mkElement [("href", "https://www.literotica.com/s/my-story-ch-02")]
             "Chapter 2" "Chapter 2" ]
    else [].

(** A chapter page in the second layout: only the selector
    "div.panel article" matches. *)
Definition articleDoc : Document :=
  fun selector =>
    if String.eqb selector "div.panel article"
    then [ mkElement [] "Once upon a time."
             "<p>Once upon a time.</p><script>track()</script>" ]
    else [].

(** A clock that ticks between any two readings. *)
Definition tickingClock (i : nat) : Z := (1700000000000 + Z.of_nat i)%Z.

(** A fragment in which "<" occurs in an attribute value, in a comment
    and in the content of a script element. *)
Definition comparingNodes : list Node :=
  [ StartTag "p" " title='a<b'"; Text "Once upon a time."; EndTag "p";
    Comment " if 1 < 2 ";
    Block Script " type='text/javascript'" "if (a<b) { track('</p>') }";
    Block Style "" "p > b { margin: 0 }";
    StartTag "p" ""; Text "The end."; EndTag "p";
    Block Iframe " src='/ad?x=<y>'" "" ].

(** A fragment whose comment mentions a script tag, followed by a paragraph
    and a script element. *)
Definition commentedNodes : list Node :=
  [ Comment " <script> "; StartTag "p" ""; Text "text"; EndTag "p";
    Block Script "" "x" ].

(** A series of three chapters. *)
Definition threeChapters : list ChapterContent :=
  [ mkChapterContent "My Story - Part 1" "<p>One.</p>";
    mkChapterContent "My Story - Part 2" "<p>Two.</p>";
    mkChapterContent "My Story - Part 3" "<p>Three.</p>" ].

(** A standalone story page: a heading and the story body. *)
Definition singleStoryDoc : Document :=
  fun selector =>
    if String.eqb selector "h1"
    then [ mkElement [] " My Story - Part 1 " "My Story - Part 1" ]
    else if String.eqb selector ".aa_ht"
    then [ mkElement [] "Once upon a time."
             "<p>Once upon a time.</p><script>track()</script>" ]
    else [].

(** A series index with an anchor that has no target. *)
Definition anchorDoc : Document :=
  fun selector =>
    if String.eqb selector ".ser-ttl a"
    then [ mkElement [("name", "top")] "Chapter 1" "Chapter 1" ]
    else [].

(** The archive and the events of a run on the standalone story page,
    served by [servingHost singleStoryDoc tickingClock] for [storyUrl]. *)
Definition singleStoryArchive : Archive :=
  buildArchive "My Story"
    [mkChapterContent "My Story - Part 1" "<p>Once upon a time.</p>"]
    1700000000000 1700000000001.

Definition singleStoryEvents : list Event :=
  [ EvDisabled true;
    EvStatus Analyzing "info";
    EvFetch ("https://corsproxy.io/?" ++ storyUrl);
    EvStatus (Found 1) "info";
    EvStatus (Downloading 1 1) "info";
    EvFetch ("https://corsproxy.io/?" ++ storyUrl);
    EvStatus Creating "info";
    EvSaveAs singleStoryArchive "my_story.epub";
    EvStatus Downloaded "success";
    EvDisabled false ].

End Fixtures.
Import Fixtures.

(* ================================================================= *)
(** * Part II: properties *)
(* ================================================================= *)

(** ** Retrieval: [fetchWithRetry] *)

Section Retrieval.

Variable host : Host.
Variable target : string.

Lemma response_ok_true (status : nat) :
  200 <= status <= 299 -> response_ok status = true.
Proof.
  intros [Hlo Hhi]. unfold response_ok.
  apply andb_true_intro; split; apply Nat.leb_le; assumption.
Qed.

Lemma response_ok_false (status : nat) :
  ~ (200 <= status <= 299) -> response_ok status = false.
Proof.
  intros Hn. unfold response_ok.
  destruct (200 <=? status) eqn:Hlo; [|reflexivity].
  destruct (status <=? 299) eqn:Hhi; [|reflexivity].
  exfalso. apply Hn. split; [apply Nat.leb_le | apply Nat.leb_le]; assumption.
Qed.

Lemma short_text_rejected (text : string) :
  String.length text < 100 ->
  String.eqb text "" || (String.length text <? 100) = true.
Proof.
  intros Hlen. apply orb_true_intro. right. apply Nat.ltb_lt. exact Hlen.
Qed.

Lemma long_text_accepted (text : string) :
  100 <= String.length text ->
  String.eqb text "" || (String.length text <? 100) = false.
Proof.
  intros Hlen. apply orb_false_intro.
  - destruct text as [|c text']; [simpl in Hlen; lia | reflexivity].
  - apply Nat.ltb_ge. exact Hlen.
Qed.

(** A failing attempt throws an error that carries the detail. *)
Lemma attemptBody_fails (w : World) (d : string) :
  Fails (transport host (requests w)
           (getProxy w ++ encodeURIComponent host target)) d ->
  exists e, message e = d /\
    attemptBody host target w =
      (Threw e, requested (getProxy w ++ encodeURIComponent host target) w).
Proof.
  intros HF. unfold attemptBody, bind, fetch, requested. cbv zeta.
  destruct HF as [e | status body Hst | status e Hst | status text Hst Hlen].
  - exists e. split; reflexivity.
  - exists (Error ("HTTP " ++ show_nat status)). split; [reflexivity|]. simpl.
    rewrite (response_ok_false _ Hst). reflexivity.
  - exists e. split; [reflexivity|]. simpl.
    rewrite (response_ok_true _ Hst). reflexivity.
  - exists (Error "Response too short or empty"). split; [reflexivity|]. simpl.
    rewrite (response_ok_true _ Hst). simpl. unfold bind, ret. simpl.
    rewrite (short_text_rejected _ Hlen). reflexivity.
Qed.

(** A success status with a short or empty body is thrown as an error. *)
Lemma attemptBody_short (w : World) (status : nat) (body : string) :
  transport host (requests w)
    (getProxy w ++ encodeURIComponent host target)
    = Responded status (BodyText body) ->
  200 <= status <= 299 ->
  String.length body < 100 ->
  attemptBody host target w =
    (Threw (Error "Response too short or empty"),
     requested (getProxy w ++ encodeURIComponent host target) w).
Proof.
  intros Hout Hst Hlen. unfold attemptBody, bind, fetch, requested. cbv zeta.
  rewrite Hout. simpl. rewrite (response_ok_true _ Hst). simpl.
  unfold bind, ret. simpl. rewrite (short_text_rejected _ Hlen). reflexivity.
Qed.

(** A successful attempt returns the body. *)
Lemma attemptBody_succeeds (w : World) (text : string) :
  Succeeds (transport host (requests w)
              (getProxy w ++ encodeURIComponent host target)) text ->
  attemptBody host target w =
    (Returned text,
     requested (getProxy w ++ encodeURIComponent host target) w).
Proof.
  intros HS. unfold attemptBody, bind, fetch, requested. cbv zeta.
  destruct HS as [status text Hst Hlen].
  simpl. rewrite (response_ok_true _ Hst). simpl.
  unfold bind, ret. simpl. rewrite (long_text_accepted _ Hlen). reflexivity.
Qed.

Lemma getProxy_at (w : World) (i : nat) :
  currentProxyIndex w = i mod 3 ->
  getProxy w ++ encodeURIComponent host target = proxyUrlAt host target i.
Proof. intros Hi. unfold getProxy, proxyUrlAt. rewrite Hi. reflexivity. Qed.

Lemma succ_mod3 (i : nat) : (i mod 3 + 1) mod 3 = S i mod 3.
Proof.
  replace (S i) with (i + 1) by lia.
  rewrite (Nat.Div0.add_mod i 1 3).
  reflexivity.
Qed.

Local Arguments Nat.modulo : simpl never.
Local Arguments String.append : simpl never.
Local Arguments show_nat : simpl never.

Lemma retryLoop_failed_step (n left attempt : nat) (lastError : option JsError)
  (w : World) (e : JsError) (u : string) :
  attemptBody host target w = (Threw e, requested u w) ->
  retryLoop host target n (S left) attempt lastError w =
    if attempt <? n - 1
    then retryLoop host target n left (S attempt) (Some e) (retriedOnce u w)
    else retryLoop host target n left (S attempt) (Some e) (requested u w).
Proof.
  intros Hbody. simpl. rewrite Hbody.
  destruct (attempt <? n - 1); reflexivity.
Qed.

(** When every remaining attempt fails, the loop runs them all, rotates
    after each but the last, and throws with the last detail. *)
Lemma retryLoop_all_fail (n : nat) :
  forall (left attempt i : nat) (lastError : option JsError) (w : World),
    attempt + S left = n ->
    currentProxyIndex w = i mod 3 ->
    (forall k u, k < S left ->
       exists d, Fails (transport host (requests w + k) u) d) ->
    exists d,
      Fails (transport host (requests w + left)
               (proxyUrlAt host target (i + left))) d /\
      retryLoop host target n (S left) attempt lastError w =
        (Threw (Error ("Failed to fetch after " ++ show_nat n
                         ++ " attempts: " ++ d)),
         mkWorld ((i + left) mod 3) (requests w + S left) (clockReads w)
           (trace w ++ retried host target i left
              ++ [EvFetch (proxyUrlAt host target (i + left))])%list).
Proof.
  induction left as [|left IH]; intros attempt i lastError w Hn Hi Hall.
  - destruct (Hall 0 (proxyUrlAt host target i)) as [d Hd]; [lia|].
    rewrite Nat.add_0_r in Hd. rewrite !Nat.add_0_r.
    exists d. split; [exact Hd|].
    pose proof (getProxy_at w i Hi) as Hu.
    rewrite <- Hu in Hd.
    destruct (attemptBody_fails w d Hd) as [e [He Hbody]].
    rewrite (retryLoop_failed_step _ _ _ _ _ _ _ Hbody).
    replace (attempt <? n - 1) with false
      by (symmetry; apply Nat.ltb_ge; lia).
    simpl. unfold throw, requested. rewrite He, Hu, Hi.
    replace (requests w + 1) with (S (requests w)) by lia.
    reflexivity.
  - destruct (Hall 0 (proxyUrlAt host target i)) as [d0 Hd0]; [lia|].
    rewrite Nat.add_0_r in Hd0.
    pose proof (getProxy_at w i Hi) as Hu.
    rewrite <- Hu in Hd0.
    destruct (attemptBody_fails w d0 Hd0) as [e [He Hbody]].
    rewrite (retryLoop_failed_step _ _ _ _ _ _ _ Hbody).
    replace (attempt <? n - 1) with true
      by (symmetry; apply Nat.ltb_lt; lia).
    destruct (IH (S attempt) (S i) (Some e)
                (retriedOnce (getProxy w ++ encodeURIComponent host target) w))
      as [d [Hd Hrun]].
    + lia.
    + simpl. rewrite Hi. apply succ_mod3.
    + intros k u Hk. simpl.
      replace (S (requests w + k)) with (requests w + S k) by lia.
      apply Hall. lia.
    + exists d. simpl in Hd.
      replace (S (requests w + left)) with (requests w + S left) in Hd by lia.
      replace (S (i + left)) with (i + S left) in Hd by lia.
      split; [exact Hd|].
      rewrite Hrun. simpl. rewrite Hu.
      replace (S (i + left)) with (i + S left) by lia.
      replace (S (requests w + S left)) with (requests w + S (S left)) by lia.
      rewrite <- !app_assoc. reflexivity.
Qed.

(** When attempt [k] is the first that succeeds, the loop returns its body
    and makes no further attempt. *)
Lemma retryLoop_first_success (n : nat) (text : string) :
  forall (k left attempt i : nat) (lastError : option JsError) (w : World),
    attempt + left = n ->
    k < left ->
    currentProxyIndex w = i mod 3 ->
    (forall j u, j < k ->
       exists d, Fails (transport host (requests w + j) u) d) ->
    Succeeds (transport host (requests w + k)
                (proxyUrlAt host target (i + k))) text ->
    retryLoop host target n left attempt lastError w =
      (Returned text,
       mkWorld ((i + k) mod 3) (requests w + S k) (clockReads w)
         (trace w ++ retried host target i k
            ++ [EvFetch (proxyUrlAt host target (i + k))])%list).
Proof.
  induction k as [|k IH]; intros left attempt i lastError w Hn Hk Hi Hfail Hok.
  - destruct left as [|left]; [lia|].
    rewrite !Nat.add_0_r in Hok.
    pose proof (getProxy_at w i Hi) as Hu.
    rewrite <- Hu in Hok.
    simpl. rewrite (attemptBody_succeeds w text Hok).
    unfold requested. rewrite Hu, Hi, Nat.add_0_r.
    replace (requests w + 1) with (S (requests w)) by lia.
    reflexivity.
  - destruct left as [|left]; [lia|].
    destruct (Hfail 0 (proxyUrlAt host target i)) as [d0 Hd0]; [lia|].
    rewrite Nat.add_0_r in Hd0.
    pose proof (getProxy_at w i Hi) as Hu.
    rewrite <- Hu in Hd0.
    destruct (attemptBody_fails w d0 Hd0) as [e [He Hbody]].
    rewrite (retryLoop_failed_step _ _ _ _ _ _ _ Hbody).
    replace (attempt <? n - 1) with true
      by (symmetry; apply Nat.ltb_lt; lia).
    rewrite (IH left (S attempt) (S i) (Some e)
               (retriedOnce (getProxy w ++ encodeURIComponent host target) w)).
    + simpl. rewrite Hu.
      replace (S (i + k)) with (i + S k) by lia.
      replace (S (requests w + S k)) with (requests w + S (S k)) by lia.
      rewrite <- !app_assoc. reflexivity.
    + lia.
    + lia.
    + simpl. rewrite Hi. apply succ_mod3.
    + intros j u Hj. simpl.
      replace (S (requests w + j)) with (requests w + S j) by lia.
      apply Hfail. lia.
    + simpl.
      replace (S (requests w + k)) with (requests w + S k) by lia.
      replace (S (i + k)) with (i + S k) by lia.
      exact Hok.
Qed.

Lemma retried_fetches (url : string) (n i : nat) :
  List.length (filter isFetch (retried host url i n)) = n.
Proof.
  revert i. induction n as [|n IH]; intros i; simpl; [reflexivity|].
  rewrite IH. reflexivity.
Qed.

(** One attempt leaves the rotation index as it is. *)
Lemma attemptBody_index (w : World) :
  currentProxyIndex (snd (attemptBody host target w)) = currentProxyIndex w.
Proof.
  unfold attemptBody, bind, fetch. cbv zeta.
  destruct (transport host (requests w)
              (getProxy w ++ encodeURIComponent host target))
    as [e | status body]; [reflexivity|].
  simpl. destruct (response_ok status); simpl; [|reflexivity].
  destruct body as [text | e]; simpl; [|reflexivity].
  unfold bind, ret. simpl.
  destruct (String.eqb text "" || (String.length text <? 100)); reflexivity.
Qed.

(** The rotation index stays within the proxy list: the hypothesis on the
    index in the properties below holds in every state that the script
    reaches from [initial]. *)
Lemma retryLoop_index_in_range (n : nat) :
  forall (left attempt : nat) (lastError : option JsError) (w : World),
    currentProxyIndex w < 3 ->
    currentProxyIndex
      (snd (retryLoop host target n left attempt lastError w)) < 3.
Proof.
  induction left as [|left IH]; intros attempt lastError w Hw.
  - simpl. destruct lastError; exact Hw.
  - cbn [retryLoop].
    pose proof (attemptBody_index w) as Hidx.
    destruct (attemptBody host target w) as [[text | error] w1];
      cbn [snd] in *; [rewrite Hidx; exact Hw|].
    unfold bind at 1.
    destruct (attempt <? n - 1).
    + unfold bind at 1, rotate, sleep, perform, emit. cbn [fst snd].
      apply IH. cbn [currentProxyIndex].
      apply Nat.mod_upper_bound. discriminate.
    + unfold ret. apply IH. rewrite Hidx. exact Hw.
Qed.

(** C1.  When every one of the [maxAttempts >= 1] attempts fails (network
    error, timeout, non-success status, unreadable or too short body),
    [fetchWithRetry] makes exactly [maxAttempts] requests, the [k]-th through
    the proxy [k] places further in the rotation, advances the rotation index
    after every attempt but the last, and throws an error whose message names
    [maxAttempts] and ends with the detail of the last failure. *)
Theorem fetchWithRetry_exhausts_attempts (maxAttempts : nat) (w : World) :
  1 <= maxAttempts ->
  currentProxyIndex w < 3 ->
  (forall k u, k < maxAttempts ->
     exists d, Fails (transport host (requests w + k) u) d) ->
  exists (d : string) (added : list Event),
    Fails (transport host (requests w + (maxAttempts - 1))
             (proxyUrlAt host target
                (currentProxyIndex w + (maxAttempts - 1)))) d /\
    fetchWithRetry host target maxAttempts w =
      (Threw (Error ("Failed to fetch after " ++ show_nat maxAttempts
                       ++ " attempts: " ++ d)),
       mkWorld ((currentProxyIndex w + (maxAttempts - 1)) mod 3)
         (requests w + maxAttempts) (clockReads w)
         (trace w ++ added)%list) /\
    added =
      (retried host target (currentProxyIndex w) (maxAttempts - 1)
         ++ [EvFetch (proxyUrlAt host target
                        (currentProxyIndex w + (maxAttempts - 1)))])%list /\
    List.length (filter isFetch added) = maxAttempts.
Proof.
  intros Hn Hidx Hall.
  destruct maxAttempts as [|left]; [lia|].
  replace (S left - 1) with left by lia.
  destruct (retryLoop_all_fail (S left) left 0 (currentProxyIndex w) None w)
    as [d [Hd Hrun]].
  - reflexivity.
  - symmetry. apply Nat.mod_small. exact Hidx.
  - exact Hall.
  - exists d. eexists. split; [exact Hd|]. split; [exact Hrun|].
    split; [reflexivity|].
    rewrite filter_app, length_app, retried_fetches. simpl. lia.
Qed.

(** C2.  Whatever the outcomes of the attempts, when attempt [k] (counted
    from 0, below [maxAttempts]) is the first to complete with a success
    status and a body of at least 100 characters, every earlier attempt
    having failed (a success status with a shorter or empty body counts as a
    failure), [fetchWithRetry] returns the body of attempt [k] and makes no
    further request.  In any state, an attempt answered with a success
    status and a body of fewer than 100 characters throws the error
    "Response too short or empty". *)
Theorem fetchWithRetry_returns_first_success
  (maxAttempts k : nat) (text : string) (w : World) :
  k < maxAttempts ->
  currentProxyIndex w < 3 ->
  (forall j u, j < k ->
     exists d, Fails (transport host (requests w + j) u) d) ->
  Succeeds (transport host (requests w + k)
              (proxyUrlAt host target (currentProxyIndex w + k))) text ->
  fetchWithRetry host target maxAttempts w =
    (Returned text,
     mkWorld ((currentProxyIndex w + k) mod 3) (requests w + S k)
       (clockReads w)
       (trace w ++ retried host target (currentProxyIndex w) k
          ++ [EvFetch (proxyUrlAt host target (currentProxyIndex w + k))])%list)
  /\
  (forall (w0 : World) (status : nat) (body : string),
     transport host (requests w0)
       (getProxy w0 ++ encodeURIComponent host target)
       = Responded status (BodyText body) ->
     200 <= status <= 299 ->
     String.length body < 100 ->
     attemptBody host target w0 =
       (Threw (Error "Response too short or empty"),
        requested (getProxy w0 ++ encodeURIComponent host target) w0)).
Proof.
  intros Hk Hidx Hfail Hok. split.
  - apply retryLoop_first_success; try assumption.
    + reflexivity.
    + symmetry. apply Nat.mod_small. exact Hidx.
  - intros w0 status body Hout Hst Hlen.
    apply (attemptBody_short w0 status body Hout Hst Hlen).
Qed.

End Retrieval.

Lemma fetchWithRetry_exhausts_attempts_witness :
  exists (d : string) (added : list Event),
    Fails (transport offlineHost (requests initial + (4 - 1))
             (proxyUrlAt offlineHost storyUrl
                (currentProxyIndex initial + (4 - 1)))) d /\
    fetchWithRetry offlineHost storyUrl 4 initial =
      (Threw (Error ("Failed to fetch after " ++ show_nat 4
                       ++ " attempts: " ++ d)),
       mkWorld ((currentProxyIndex initial + (4 - 1)) mod 3)
         (requests initial + 4) (clockReads initial)
         (trace initial ++ added)%list) /\
    added =
      (retried offlineHost storyUrl (currentProxyIndex initial) (4 - 1)
         ++ [EvFetch (proxyUrlAt offlineHost storyUrl
                        (currentProxyIndex initial + (4 - 1)))])%list /\
    List.length (filter isFetch added) = 4.
Proof.
  apply (fetchWithRetry_exhausts_attempts offlineHost storyUrl 4 initial).
  - lia.
  - simpl. lia.
  - intros k u _. eexists. apply Fails_rejected.
Defined.

Lemma fetchWithRetry_returns_first_success_witness :
  fetchWithRetry flakyHost storyUrl 3 initial =
    (Returned page,
     mkWorld ((currentProxyIndex initial + 1) mod 3) (requests initial + 2)
       (clockReads initial)
       (trace initial ++ retried flakyHost storyUrl (currentProxyIndex initial) 1
          ++ [EvFetch (proxyUrlAt flakyHost storyUrl
                         (currentProxyIndex initial + 1))])%list).
Proof.
  refine (proj1 (fetchWithRetry_returns_first_success flakyHost storyUrl 3 1
                   page initial _ _ _ _)).
  - lia.
  - simpl. lia.
  - intros j u Hj. exists "Response too short or empty".
    assert (j = 0) by lia. subst j.
    apply Fails_short; simpl; lia.
  - apply Succeeds_intro; [lia | vm_compute; lia].
Defined.

(** ** Strings and numbering *)

Section Strings.

Lemma append_nil_r (s : string) : s ++ "" = s.
Proof. induction s as [|c s IH]; simpl; [reflexivity | rewrite IH; reflexivity]. Qed.

Lemma append_assoc (a b c : string) : (a ++ b) ++ c = a ++ b ++ c.
Proof. induction a as [|x a IH]; simpl; [reflexivity | rewrite IH; reflexivity]. Qed.

Lemma append_length (a b : string) :
  String.length (a ++ b) = String.length a + String.length b.
Proof. induction a as [|x a IH]; simpl; [reflexivity | rewrite IH; reflexivity]. Qed.

Lemma append_inj_l (p a b : string) : p ++ a = p ++ b -> a = b.
Proof.
  induction p as [|x p IH]; simpl; intros H; [exact H|].
  injection H as H. apply IH. exact H.
Qed.

Lemma append_inj_r (a b q : string) : a ++ q = b ++ q -> a = b.
Proof.
  revert b. induction a as [|x a IH]; intros b H.
  - destruct b as [|y b]; [reflexivity|].
    apply (f_equal String.length) in H. simpl in H.
    rewrite append_length in H. lia.
  - destruct b as [|y b].
    + apply (f_equal String.length) in H. simpl in H.
      rewrite append_length in H. lia.
    + simpl in H. injection H as Hxy H. subst y. f_equal. apply IH. exact H.
Qed.

Lemma show_nat_inj (m n : nat) : show_nat m = show_nat n -> m = n.
Proof.
  unfold show_nat. intros H.
  apply Unsigned.to_uint_inj.
  assert (Hm : NilZero.uint_of_string (NilZero.string_of_uint (Nat.to_uint m))
               = Some (Nat.to_uint m)).
  { apply NilZero.usu. intros Hnil.
    pose proof (Unsigned.of_to m) as Hof. rewrite Hnil in Hof.
    destruct m; [discriminate Hnil|]. simpl in Hof. discriminate Hof. }
  assert (Hn : NilZero.uint_of_string (NilZero.string_of_uint (Nat.to_uint n))
               = Some (Nat.to_uint n)).
  { apply NilZero.usu. intros Hnil.
    pose proof (Unsigned.of_to n) as Hof. rewrite Hnil in Hof.
    destruct n; [discriminate Hnil|]. simpl in Hof. discriminate Hof. }
  rewrite H in Hm. rewrite Hm in Hn. injection Hn as Hn. exact Hn.
Qed.

Lemma chapterFileName_inj (m n : nat) :
  chapterFileName m = chapterFileName n -> m = n.
Proof.
  unfold chapterFileName. intros H.
  apply append_inj_l in H. apply append_inj_r in H.
  apply show_nat_inj. exact H.
Qed.

(** A callback that ignores the element sees the indices only. *)
Lemma mapi_from_index {A B : Type} (g : nat -> B) (xs : list A) (i : nat) :
  mapi_from (fun _ j => g (j + 1)) i xs = map g (seq (S i) (List.length xs)).
Proof.
  revert i. induction xs as [|x xs IH]; intros i; simpl; [reflexivity|].
  rewrite IH. replace (i + 1) with (S i) by lia. reflexivity.
Qed.

End Strings.

(** ** The archive: [createEpub] *)

Section Archive.

Local Arguments String.append : simpl never.
Local Arguments show_nat : simpl never.

Lemma has_app (n : string) (a b : Archive) :
  has n (a ++ b)%list = has n a || has n b.
Proof.
  induction a as [|x a IH]; simpl; [reflexivity|].
  rewrite IH. apply orb_assoc.
Qed.

(** Assigning a name that is not in the archive appends the entry. *)
Lemma put_fresh (e : Entry) (a : Archive) :
  has (name e) a = false -> put e a = (a ++ [e])%list.
Proof.
  induction a as [|x a IH]; simpl; intros H; [reflexivity|].
  apply orb_false_elim in H. destruct H as [Hx Ha].
  rewrite Hx. rewrite (IH Ha). reflexivity.
Qed.

Lemma file_fresh (root n d : string) (c : option Compression) (a : Archive) :
  endsWithSlash root = true ->
  has root a = true ->
  has (root ++ n) a = false ->
  String.eqb d "" = false ->
  file root n d c a = (a ++ [mkEntry (root ++ n) false d c])%list.
Proof.
  intros Hroot Hhas Hfresh Hdata. unfold file.
  destruct root as [|r root']; [discriminate Hroot|].
  unfold folderAdd, forceTrailingSlash. rewrite Hroot, Hhas.
  unfold fileAdd. rewrite Hdata. cbn [orb]. apply put_fresh. exact Hfresh.
Qed.

Lemma get_app_fresh (n : string) (a b : Archive) :
  has n a = false -> get n (a ++ b)%list = get n b.
Proof.
  induction a as [|x a IH]; simpl; intros H; [reflexivity|].
  apply orb_false_elim in H. destruct H as [Hx Ha].
  rewrite Hx. apply IH. exact Ha.
Qed.

Lemma get_skip_middle (n : string) (a mid b : Archive) :
  has n mid = false -> get n (a ++ mid ++ b)%list = get n (a ++ b)%list.
Proof.
  intros Hmid. induction a as [|x a IH]; simpl.
  - apply get_app_fresh. exact Hmid.
  - destruct (name x =? n)%string; [reflexivity | exact IH].
Qed.

Lemma chapterEntryName_eq (k : nat) :
  chapterEntryName k = "OEBPS/" ++ chapterFileName k.
Proof. reflexivity. Qed.

Lemma chapterEntryName_inj (m n : nat) :
  chapterEntryName m = chapterEntryName n -> m = n.
Proof.
  rewrite !chapterEntryName_eq. intros H.
  apply append_inj_l in H. apply chapterFileName_inj. exact H.
Qed.

Lemma has_chapterEntriesFrom (n : string) (i : nat)
  (chapters : list ChapterContent) :
  (forall k, i < k -> n <> chapterEntryName k) ->
  has n (chapterEntriesFrom i chapters) = false.
Proof.
  revert i. unfold chapterEntriesFrom.
  induction chapters as [|c chapters IH]; intros i Hn; [reflexivity|].
  cbn [List.length seq combine map has chapterEntry fst snd name].
  rewrite (IH (S i)).
  - rewrite orb_false_r. apply String.eqb_neq.
    intros Heq. apply (Hn (S i)); [lia | symmetry; exact Heq].
  - intros k Hk. apply Hn. lia.
Qed.

Lemma addChapters_entries (chapters : list ChapterContent) :
  forall (index : nat) (zip : Archive),
    has "OEBPS/" zip = true ->
    (forall k, index < k -> has (chapterEntryName k) zip = false) ->
    addChapters "OEBPS/" chapters index zip =
      (zip ++ chapterEntriesFrom index chapters)%list.
Proof.
  induction chapters as [|c chapters IH]; intros index zip Hroot Hfresh.
  - simpl. rewrite app_nil_r. reflexivity.
  - cbn [addChapters].
    rewrite file_fresh.
    + rewrite IH.
      * rewrite <- app_assoc. unfold chapterEntriesFrom.
        replace (index + 1) with (S index) by lia. reflexivity.
      * rewrite has_app, Hroot. reflexivity.
      * intros k Hk. rewrite has_app, Hfresh by lia.
        cbn [has name orb]. rewrite orb_false_r.
        apply String.eqb_neq. rewrite <- chapterEntryName_eq.
        intros Heq. apply chapterEntryName_inj in Heq. lia.
    + reflexivity.
    + exact Hroot.
    + rewrite <- chapterEntryName_eq. apply Hfresh. lia.
    + reflexivity.
Qed.

Lemma manifest_lines (chapters : list ChapterContent) :
  mapi manifestItem chapters =
    map manifestItemFor (seq 1 (List.length chapters)).
Proof. exact (mapi_from_index manifestItemFor chapters 0). Qed.

Lemma spine_lines (chapters : list ChapterContent) :
  mapi spineItem chapters = map spineItemFor (seq 1 (List.length chapters)).
Proof. exact (mapi_from_index spineItemFor chapters 0). Qed.

Lemma navPoint_lines (chapters : list ChapterContent) :
  mapi navPoint chapters =
    map (fun p => navPointFor (fst p) (escapeXml (title (snd p))))
      (numbered chapters).
Proof.
  unfold mapi, numbered. generalize 0 as i.
  induction chapters as [|c chapters IH]; intros i; [reflexivity|].
  cbn [mapi_from List.length seq combine map fst snd].
  rewrite IH. unfold navPoint at 1. replace (i + 1) with (S i) by lia.
  reflexivity.
Qed.

(** The archive that [createEpub] builds, entry by entry. *)
Lemma buildArchive_entries (title : string) (chapters : list ChapterContent)
  (now1 now2 : Z) :
  buildArchive title chapters now1 now2 =
    (fixedEntries ++ map chapterEntry (numbered chapters)
       ++ [ packageEntry title now1 (List.length chapters);
            navigationEntry title now2 chapters ])%list.
Proof.
  unfold buildArchive.
  assert (H1 : folder "" "META-INF"
                 (file "" "mimetype" "application/epub+zip" (Some STORE) [])
               = ([ mkEntry "mimetype" false "application/epub+zip" (Some STORE);
                    mkEntry "META-INF/" true "" (Some STORE) ], "META-INF/"))
    by reflexivity.
  rewrite H1. cbv iota beta.
  assert (H2 : folder "" "OEBPS"
                 (file "META-INF/" "container.xml" containerXml None
                    [ mkEntry "mimetype" false "application/epub+zip" (Some STORE);
                      mkEntry "META-INF/" true "" (Some STORE) ])
               = (fixedEntries, "OEBPS/"))
    by reflexivity.
  rewrite H2. cbv iota beta.
  rewrite manifest_lines, spine_lines, navPoint_lines.
  rewrite addChapters_entries.
  - assert (Hchapters : forall n,
              (forall k, n <> chapterEntryName k) ->
              has n (fixedEntries ++ chapterEntriesFrom 0 chapters)%list
              = has n fixedEntries).
    { intros n Hn. rewrite has_app, has_chapterEntriesFrom.
      - apply orb_false_r.
      - intros k _. apply Hn. }
    rewrite (file_fresh "OEBPS/" "content.opf").
    + rewrite (file_fresh "OEBPS/" "toc.ncx").
      * rewrite <- !app_assoc. reflexivity.
      * reflexivity.
      * rewrite has_app, has_app. reflexivity.
      * rewrite has_app, Hchapters; [reflexivity|].
        intros k Heq. discriminate Heq.
      * reflexivity.
    + reflexivity.
    + rewrite has_app. reflexivity.
    + rewrite Hchapters; [reflexivity|].
      intros k Heq. discriminate Heq.
    + reflexivity.
  - reflexivity.
  - intros k _. reflexivity.
Qed.


Lemma names_chapterEntries (chapters : list ChapterContent) :
  map name (map chapterEntry (numbered chapters)) =
    map chapterEntryName (seq 1 (List.length chapters)).
Proof.
  unfold numbered. generalize 1 as i.
  induction chapters as [|c chapters IH]; intros i; [reflexivity|].
  cbn [List.length seq combine map chapterEntry fst name].
  rewrite IH. reflexivity.
Qed.

Lemma buildArchive_names (title : string) (chapters : list ChapterContent)
  (now1 now2 : Z) :
  map name (buildArchive title chapters now1 now2) =
    ([ "mimetype"; "META-INF/"; "META-INF/container.xml"; "OEBPS/" ]
       ++ map chapterEntryName (seq 1 (List.length chapters))
       ++ [ "OEBPS/content.opf"; "OEBPS/toc.ncx" ])%list.
Proof.
  rewrite buildArchive_entries, !map_app, names_chapterEntries. reflexivity.
Qed.


Lemma buildArchive_get_fixed (title : string) (chapters : list ChapterContent)
  (now1 now2 : Z) (n : string) :
  (forall k, n <> chapterEntryName k) ->
  get n (buildArchive title chapters now1 now2) =
    get n (fixedEntries
             ++ [ packageEntry title now1 (List.length chapters);
                  navigationEntry title now2 chapters ])%list.
Proof.
  intros Hn. rewrite buildArchive_entries. apply get_skip_middle.
  apply (has_chapterEntriesFrom n 0). intros k _. apply Hn.
Qed.

Lemma buildArchive_get_package (title : string)
  (chapters : list ChapterContent) (now1 now2 : Z) :
  get "OEBPS/content.opf" (buildArchive title chapters now1 now2) =
    Some (packageEntry title now1 (List.length chapters)).
Proof.
  rewrite buildArchive_get_fixed; [reflexivity|].
  intros k Heq. discriminate Heq.
Qed.

Lemma buildArchive_get_navigation (title : string)
  (chapters : list ChapterContent) (now1 now2 : Z) :
  get "OEBPS/toc.ncx" (buildArchive title chapters now1 now2) =
    Some (navigationEntry title now2 chapters).
Proof.
  rewrite buildArchive_get_fixed; [reflexivity|].
  intros k Heq. discriminate Heq.
Qed.

Variable host : Host.

(** [createEpub] reads the clock twice and hands the archive and the file
    name to [saveAs]. *)
Lemma createEpub_run (title : string) (chapters : list ChapterContent)
  (w : World) :
  createEpub host title chapters w =
    (Returned tt,
     mkWorld (currentProxyIndex w) (requests w) (S (S (clockReads w)))
       (trace w ++
          [EvSaveAs
             (buildArchive title chapters (clock host (clockReads w))
                (clock host (S (clockReads w))))
             (sanitizeFilename title ++ ".epub")])%list).
Proof. reflexivity. Qed.

(** C4.  Whatever the title and the chapters, the archive that [createEpub]
    hands over starts with the entry named mimetype, whose content is the
    text application/epub+zip and whose compression is STORE. *)
Theorem createEpub_mimetype_first (title : string)
  (chapters : list ChapterContent) (w : World) :
  exists (blob : Archive) (filename : string) (first : Entry) (others : Archive),
    createEpub host title chapters w =
      (Returned tt,
       mkWorld (currentProxyIndex w) (requests w) (S (S (clockReads w)))
         (trace w ++ [EvSaveAs blob filename])%list) /\
    blob = first :: others /\
    name first = "mimetype" /\
    dir first = false /\
    data first = "application/epub+zip" /\
    compression first = Some STORE.
Proof.
  eexists. eexists. eexists. eexists.
  split; [apply createEpub_run|].
  split; [rewrite buildArchive_entries; reflexivity|].
  repeat split.
Qed.

End Archive.

(** ** Escaping: [escapeXml] *)

Section Escaping.

Lemma replaceClass_app (cls : ascii -> bool) (r a b : string) :
  replaceClass cls r (a ++ b) = replaceClass cls r a ++ replaceClass cls r b.
Proof.
  induction a as [|c a IH]; simpl; [reflexivity|].
  destruct (cls c); rewrite IH; [rewrite append_assoc|]; reflexivity.
Qed.

Lemma escapeXml_cons (c : ascii) (s : string) :
  escapeXml (String c s) = escapeChar c ++ escapeXml s.
Proof.
  unfold escapeXml, replaceChar, escapeChar.
  cbn [replaceClass].
  destruct (Ascii.eqb "&" c) eqn:Hamp.
  { rewrite !replaceClass_app. reflexivity. }
  cbn [replaceClass].
  destruct (Ascii.eqb "<" c) eqn:Hlt.
  { rewrite !replaceClass_app. reflexivity. }
  cbn [replaceClass].
  destruct (Ascii.eqb ">" c) eqn:Hgt.
  { rewrite !replaceClass_app. reflexivity. }
  cbn [replaceClass].
  destruct (Ascii.eqb "034" c) eqn:Hdq.
  { rewrite !replaceClass_app. reflexivity. }
  cbn [replaceClass].
  destruct (Ascii.eqb "'" c) eqn:Hap; reflexivity.
Qed.

(** The five replacements in sequence escape each character once. *)
Lemma escapeXml_xmlText (s : string) : escapeXml s = xmlText s.
Proof.
  induction s as [|c s IH]; [reflexivity|].
  rewrite escapeXml_cons, IH. reflexivity.
Qed.




Lemma decodeXml_skip (n : nat) (a b : string) :
  String.length a = n -> decodeXml n (a ++ b) = decodeXml 0 b.
Proof.
  revert a. induction n as [|n IH]; intros a Hlen.
  - destruct a; [reflexivity | discriminate Hlen].
  - destruct a as [|c a]; [discriminate Hlen|].
    simpl. apply IH. simpl in Hlen. lia.
Qed.

(** Escaping loses nothing: decoding the entities gives the text back. *)
Lemma decodeXml_xmlText (s : string) : decodeXml 0 (xmlText s) = s.
Proof.
  induction s as [|c s IH]; [reflexivity|].
  cbn [xmlText]. unfold escapeChar.
  destruct (Ascii.eqb "&" c) eqn:Hamp.
  { apply Ascii.eqb_eq in Hamp. subst c. simpl. f_equal.
    exact (eq_trans (decodeXml_skip 4 "amp;" (xmlText s) eq_refl) IH). }
  destruct (Ascii.eqb "<" c) eqn:Hlt.
  { apply Ascii.eqb_eq in Hlt. subst c. simpl. f_equal.
    exact (eq_trans (decodeXml_skip 3 "lt;" (xmlText s) eq_refl) IH). }
  destruct (Ascii.eqb ">" c) eqn:Hgt.
  { apply Ascii.eqb_eq in Hgt. subst c. simpl. f_equal.
    exact (eq_trans (decodeXml_skip 3 "gt;" (xmlText s) eq_refl) IH). }
  destruct (Ascii.eqb "034" c) eqn:Hdq.
  { apply Ascii.eqb_eq in Hdq. subst c. simpl. f_equal.
    exact (eq_trans (decodeXml_skip 5 "quot;" (xmlText s) eq_refl) IH). }
  destruct (Ascii.eqb "'" c) eqn:Hap.
  { apply Ascii.eqb_eq in Hap. subst c. simpl. f_equal.
    exact (eq_trans (decodeXml_skip 5 "apos;" (xmlText s) eq_refl) IH). }
  cbn [append decodeXml]. cbn [startsWith]. rewrite Hamp. cbn [andb].
  rewrite IH. reflexivity.
Qed.








Variable host : Host.


End Escaping.


(** ** The package read back: manifest, spine and navigation map *)

Section PackageText.

Local Arguments show_nat : simpl never.
Local Arguments show_Z : simpl never.
Local Arguments escapeXml : simpl never.

































Variable host : Host.


End PackageText.

(** ** The project title and the file name *)

Section Naming.

Lemma startsWith_app (p b : string) : startsWith p (p ++ b) = true.
Proof.
  induction p as [|c p IH]; simpl; [reflexivity|].
  rewrite Ascii.eqb_refl, IH. reflexivity.
Qed.

Lemma startsWith_split (p s : string) :
  startsWith p s = true -> exists b, s = p ++ b.
Proof.
  revert s. induction p as [|c p IH]; intros s H.
  - exists s. reflexivity.
  - destruct s as [|d s]; [discriminate H|].
    simpl in H. apply andb_prop in H. destruct H as [Hc Hp].
    apply Ascii.eqb_eq in Hc. subst d.
    destruct (IH s Hp) as [b Hb]. exists b. rewrite Hb. reflexivity.
Qed.

(** The first element of a split is the text before the first separator. *)
Lemma split_go_hd (sep : string) (s cur : string) :
  hd "" (split_go sep 0 cur s) = cur ++ firstSeg sep s.
Proof.
  revert cur. induction s as [|c s IH]; intros cur.
  - simpl. rewrite append_nil_r. reflexivity.
  - cbn [split_go firstSeg].
    destruct (startsWith sep (String c s)).
    + simpl. rewrite append_nil_r. reflexivity.
    + rewrite IH, append_assoc. reflexivity.
Qed.

Lemma not_occurs_empty (sep : string) : sep <> "" -> ~ Occurs sep "".
Proof.
  intros Hsep [a [b H]]. apply (f_equal String.length) in H.
  rewrite !append_length in H. simpl in H.
  destruct sep; [contradiction | simpl in H; lia].
Qed.

Lemma firstSeg_spec (sep s : string) : FirstSegment sep s (firstSeg sep s).
Proof.
  induction s as [|c s IH].
  - simpl. destruct sep as [|d sep].
    + left. exists "". split; [reflexivity|]. intros a b _. simpl. lia.
    + right. split; [reflexivity|]. apply not_occurs_empty. discriminate.
  - cbn [firstSeg]. destruct (startsWith sep (String c s)) eqn:Hstart.
    + left. destruct (startsWith_split _ _ Hstart) as [rest Hrest].
      exists rest. split; [exact Hrest|]. intros a b _. simpl. lia.
    + assert (Hhead : forall a b, String c s = a ++ sep ++ b ->
                exists a', a = String c a' /\ s = a' ++ sep ++ b).
      { intros a b Hab. destruct a as [|x a'].
        - simpl in Hab. rewrite Hab, startsWith_app in Hstart.
          discriminate Hstart.
        - simpl in Hab. injection Hab as Hx Hs. subst x.
          exists a'. split; [reflexivity | exact Hs]. }
      destruct IH as [[rest [Hs Hmin]] | [Hs Hno]].
      * left. exists rest. split; [simpl; rewrite <- Hs; reflexivity|].
        intros a b Hab. destruct (Hhead a b Hab) as [a' [Ha Hs']].
        subst a. simpl. apply le_n_S. apply (Hmin a' b Hs').
      * right. split; [rewrite Hs; reflexivity|].
        intros [a [b Hab]]. destruct (Hhead a b Hab) as [a' [Ha Hs']].
        apply Hno. exists a', b. exact Hs'.
Qed.

Lemma replaceClass_underscore (cls : ascii -> bool) (s : string) :
  replaceClass cls "_" s = smap (fun c => if cls c then "_"%char else c) s.
Proof.
  induction s as [|c s IH]; simpl; [reflexivity|].
  destruct (cls c); rewrite IH; reflexivity.
Qed.

Lemma smap_smap (f g : ascii -> ascii) (s : string) :
  smap f (smap g s) = smap (fun c => f (g c)) s.
Proof.
  induction s as [|c s IH]; simpl; [reflexivity | rewrite IH; reflexivity].
Qed.

Lemma smap_ext (f g : ascii -> ascii) (s : string) :
  (forall c, f c = g c) -> smap f s = smap g s.
Proof.
  intros H. induction s as [|c s IH]; simpl; [reflexivity|].
  rewrite H, IH. reflexivity.
Qed.

Lemma fileNameChar_sanitize (c : ascii) :
  toLowerChar (if notAlnum c then "_"%char else c) = fileNameChar c.
Proof.
  unfold fileNameChar, notAlnum, isAlnum.
  destruct (isLowerAZ c || isUpperAZ c || isDigit c) eqn:Hal; simpl.
  - unfold toLowerChar, lowerAZ.
    destruct (isUpperAZ c) eqn:Hup; [reflexivity|].
    rewrite orb_false_r in Hal.
    replace ((192 <=? nat_of_ascii c) && (nat_of_ascii c <=? 222)
             && negb (nat_of_ascii c =? 215)) with false; [reflexivity|].
    symmetry. apply andb_false_intro1. apply andb_false_intro1.
    apply Nat.leb_gt.
    unfold isLowerAZ, isDigit in Hal.
    apply orb_prop in Hal.
    destruct Hal as [H | H]; apply andb_prop in H; destruct H as [_ H];
      apply Nat.leb_le in H; lia.
  - reflexivity.
Qed.

(** The file name is the title with every character other than a letter
    A-Z, a-z or a digit replaced by an underscore, in lower case. *)
Lemma sanitizeFilename_chars (name : string) :
  sanitizeFilename name = smap fileNameChar name.
Proof.
  unfold sanitizeFilename, toLowerCase.
  rewrite replaceClass_underscore, smap_smap.
  apply smap_ext. apply fileNameChar_sanitize.
Qed.

Variable host : Host.

(** C9.  For a chapter list that starts with [first], the project title is
    the part of the title of [first] before its first " - " (the whole title
    when there is none), or "Literotica Story" when that part is empty; the
    file handed over by [createEpub] for a title is named by the title with
    every non-alphanumeric character replaced by an underscore and letters in
    lower case, followed by ".epub".  The title "My Story - Part 1" gives the
    project title "My Story" and the file name "my_story.epub". *)
Theorem storyTitle_and_filename (first : ChapterContent)
  (others : list ChapterContent) (w : World) :
  exists (segment storyTitle : string) (blob : Archive),
    FirstSegment " - " (title first) segment /\
    storyTitle = (if String.eqb segment "" then "Literotica Story" else segment) /\
    storyTitleOf (first :: others) = Returned storyTitle /\
    createEpub host storyTitle (first :: others) w =
      (Returned tt,
       mkWorld (currentProxyIndex w) (requests w) (S (S (clockReads w)))
         (trace w ++ [EvSaveAs blob (smap fileNameChar storyTitle ++ ".epub")])%list) /\
    storyTitleOf [mkChapterContent "My Story - Part 1" (content first)] =
      Returned "My Story" /\
    sanitizeFilename "My Story" ++ ".epub" = "my_story.epub".
Proof.
  exists (firstSeg " - " (title first)).
  eexists. eexists.
  split; [apply firstSeg_spec|].
  split; [reflexivity|].
  split.
  - unfold storyTitleOf, split. rewrite split_go_hd. reflexivity.
  - split; [|split; reflexivity].
    rewrite createEpub_run, sanitizeFilename_chars. reflexivity.
Qed.

End Naming.

(** ** Discovery: [fetchChapters] *)

Section Discovery.

Variable host : Host.

Lemma collectLinks_all (links : list Element) :
  forall chapters,
    forallb hasHref links = true ->
    collectLinks links chapters =
      Returned (chapters ++ map refOfLink links)%list.
Proof.
  induction links as [|link links IH]; intros chapters Hall.
  - simpl. rewrite app_nil_r. reflexivity.
  - simpl in Hall. apply andb_prop in Hall. destruct Hall as [Hlink Hrest].
    cbn [collectLinks map]. unfold hasHref in Hlink. unfold refOfLink at 1.
    destruct (getAttribute link "href") as [href|]; [|discriminate Hlink].
    rewrite (IH _ Hrest), <- app_assoc. reflexivity.
Qed.

Lemma prefixedUrl_starts_http (href : string) :
  startsWith "http" (prefixedUrl href) = true.
Proof.
  unfold prefixedUrl. destruct (startsWith "http" href) eqn:H; [exact H|].
  reflexivity.
Qed.

Lemma startsWith_trans (p q s : string) :
  startsWith p q = true -> startsWith q s = true -> startsWith p s = true.
Proof.
  intros Hpq Hqs.
  destruct (startsWith_split _ _ Hpq) as [b Hb].
  destruct (startsWith_split _ _ Hqs) as [c Hc].
  subst q s. rewrite append_assoc. apply startsWith_app.
Qed.

Lemma fetchChapters_after_fetch (sourceUrl html : string) (w w' : World) :
  fetchWithRetry host sourceUrl 3 w = (Returned html, w') ->
  fetchChapters host sourceUrl w =
    (let doc := parseFromString host html in
     let seriesLinks := querySelectorAll doc ".ser-ttl a" in
     if 0 <? List.length seriesLinks
     then (collectLinks seriesLinks [], w')
     else (Returned [mkChapterRef (headingTitle doc) sourceUrl], w')).
Proof.
  intros Hfetch. unfold fetchChapters, bind. rewrite Hfetch. cbv zeta.
  destruct (0 <? List.length
                   (querySelectorAll (parseFromString host html) ".ser-ttl a"));
    reflexivity.
Qed.

(** A target that starts with a slash is placed at the canonical origin. *)
Lemma prefixedUrl_rooted (href : string) :
  startsWith "/" href = true ->
  prefixedUrl href = canonicalOrigin ++ href /\
  originOf (prefixedUrl href) = Some canonicalOrigin.
Proof.
  intros Hroot. destruct href as [|c href]; [discriminate Hroot|].
  cbn [startsWith] in Hroot. apply andb_prop in Hroot.
  destruct Hroot as [Hc _]. apply Ascii.eqb_eq in Hc. subst c.
  split; reflexivity.
Qed.

(** A plain relative path that starts with neither "http" nor a slash is
    appended to the host name: the URL made of it is at another origin. *)
Lemma prefixedUrl_leaves_origin (href : string) :
  isPathTarget href = true ->
  href <> "" ->
  startsWith "/" href = false ->
  startsWith "http" href = false ->
  prefixedUrl href = canonicalOrigin ++ href /\
  originOf (prefixedUrl href) <> Some canonicalOrigin.
Proof.
  intros Hpath Hne Hroot Hhttp. unfold prefixedUrl. rewrite Hhttp.
  split; [reflexivity|].
  destruct href as [|c rest]; [contradiction|].
  assert (Hdelim : Ascii.eqb c "/" || Ascii.eqb c "?" || Ascii.eqb c "#"
                   = false).
  { unfold isPathTarget in Hpath. apply andb_prop in Hpath.
    destruct Hpath as [Hchars _]. cbn [forallb_string] in Hchars.
    apply andb_prop in Hchars. destruct Hchars as [Hc _].
    cbn [startsWith] in Hroot. rewrite andb_true_r in Hroot.
    rewrite Ascii.eqb_sym in Hroot. rewrite Hroot. cbn [orb].
    destruct (Ascii.eqb c "?") eqn:Hq;
      [apply Ascii.eqb_eq in Hq; subst c; discriminate Hc|].
    destruct (Ascii.eqb c "#") eqn:Hh;
      [apply Ascii.eqb_eq in Hh; subst c; discriminate Hc|].
    reflexivity. }
  unfold originOf, canonicalOrigin.
  cbn [append afterPrefix Ascii.eqb Bool.eqb authorityText orb].
  rewrite Hdelim. intros Heq. discriminate Heq.
Qed.

Lemma Forall2_map_In {A B : Type} (P : A -> B -> Prop) (f : A -> B)
  (l : list A) (x : A) :
  Forall2 P l (map f l) -> In x l -> P x (f x).
Proof.
  induction l as [|a l IH]; intros Hall Hin; [contradiction|].
  cbn [map] in Hall. inversion Hall as [|? ? ? ? Ha Hl]; subst.
  destruct Hin as [Heq | Hin]; [subst a; exact Ha | exact (IH Hl Hin)].
Qed.

(** C5.  The code departs from the claim.  Once the source document is
    retrieved, if one of its series-index links (each of which carries an
    [href]) has a target that is a plain relative path starting with
    neither a slash nor "http", then [fetchChapters] returns for that link
    the canonical origin followed at once by the target: a URL whose host
    name is the canonical host name run together with the first segment of
    the path, so a URL of another origin.  The discovery property as the
    specification states it, which wants the target resolved against the
    canonical origin, fails for that document. *)
Theorem fetchChapters_path_target_leaves_origin (sourceUrl html href : string)
  (w w' : World) (link : Element) :
  fetchWithRetry host sourceUrl 3 w = (Returned html, w') ->
  let links := querySelectorAll (parseFromString host html) ".ser-ttl a" in
  forallb hasHref links = true ->
  In link links ->
  getAttribute link "href" = Some href ->
  isPathTarget href = true ->
  href <> "" ->
  startsWith "/" href = false ->
  startsWith "http" href = false ->
  (exists refs r,
     fetchChapters host sourceUrl w = (Returned refs, w') /\
     In r refs /\
     ref_title r = trim (textContent link) /\
     url r = canonicalOrigin ++ href /\
     originOf (url r) <> Some canonicalOrigin) /\
  ~ DiscoverClaim host sourceUrl w.
Proof.
  intros Hfetch links Hall Hin Hhref Hpath Hne Hroot Hhttp.
  destruct (prefixedUrl_leaves_origin href Hpath Hne Hroot Hhttp)
    as [Hurl Horigin].
  assert (Hrun : fetchChapters host sourceUrl w
                 = (Returned (map refOfLink links), w')).
  { rewrite (fetchChapters_after_fetch _ _ _ _ Hfetch). cbv zeta.
    fold links.
    replace (0 <? List.length links) with true
      by (destruct links; [contradiction | reflexivity]).
    rewrite (collectLinks_all links [] Hall). reflexivity. }
  assert (Hr : url (refOfLink link) = prefixedUrl href)
    by (unfold refOfLink; cbn [url]; rewrite Hhref; reflexivity).
  split.
  - exists (map refOfLink links), (refOfLink link).
    split; [exact Hrun|]. split; [apply in_map; exact Hin|].
    split; [reflexivity|]. rewrite Hr. split; assumption.
  - intros Hclaim.
    destruct (Hclaim html w' Hfetch) as [Hseries _]. fold links in Hseries.
    destruct Hseries as [refs [Hrun' Hrefs]];
      [intros Hnil; rewrite Hnil in Hin; contradiction|].
    rewrite Hrun in Hrun'. injection Hrun' as Hrefs'. subst refs.
    destruct (Forall2_map_In _ refOfLink links link Hrefs Hin)
      as [_ [_ Hresolved]].
    specialize (Hresolved href Hhref Hpath). rewrite Hr in Hresolved.
    exact (Horigin Hresolved).
Qed.

(** X21.  Once the source document is retrieved: when it has series-index
    links and each carries an [href], [fetchChapters] returns one reference per
    link, in document order, whose title is the trimmed link text and whose
    URL is the [href] itself when that starts with "http" and the canonical
    origin followed by the [href] otherwise (so it always starts with
    "http", and it is a URL of the canonical origin when the [href] starts
    with a slash); when it has no such link, the result is the single
    reference to the source URL, titled by the trimmed first heading, or
    "Untitled Story" without a heading. *)
Theorem fetchChapters_discovers (sourceUrl html : string) (w w' : World) :
  fetchWithRetry host sourceUrl 3 w = (Returned html, w') ->
  let doc := parseFromString host html in
  let links := querySelectorAll doc ".ser-ttl a" in
  (links <> [] -> forallb hasHref links = true ->
     fetchChapters host sourceUrl w = (Returned (map refOfLink links), w') /\
     List.length (map refOfLink links) = List.length links /\
     Forall2 (fun link r =>
                ref_title r = trim (textContent link) /\
                forall href, getAttribute link "href" = Some href ->
                  url r = prefixedUrl href /\
                  startsWith "http" (url r) = true /\
                  (startsWith "/" href = true ->
                   originOf (url r) = Some canonicalOrigin))
       links (map refOfLink links)) /\
  (links = [] ->
     fetchChapters host sourceUrl w =
       (Returned [mkChapterRef (headingTitle doc) sourceUrl], w')).
Proof.
  intros Hfetch doc links.
  rewrite (fetchChapters_after_fetch _ _ _ _ Hfetch). cbv zeta.
  fold doc. fold links. split.
  - intros Hne Hall.
    destruct links as [|l0 ls] eqn:Hlinks; [contradiction|].
    rewrite <- Hlinks in *. 
    replace (0 <? List.length links) with true
      by (rewrite Hlinks; reflexivity).
    rewrite (collectLinks_all links [] Hall). cbn [app].
    split; [reflexivity|]. split; [apply length_map|].
    clear Hne Hlinks. induction links as [|l ls' IH]; [constructor|].
    simpl in Hall. apply andb_prop in Hall. destruct Hall as [Hl Hls].
    cbn [map]. constructor; [|apply IH; exact Hls].
    split; [reflexivity|].
    intros href Hhref. unfold refOfLink. cbn [url]. rewrite Hhref.
    split; [reflexivity|]. split; [apply prefixedUrl_starts_http|].
    intros Hroot. exact (proj2 (prefixedUrl_rooted href Hroot)).
  - intros Hnil. rewrite Hnil. reflexivity.
Qed.

End Discovery.

Lemma fetchChapters_discovers_witness :
  fetchChapters (servingHost rootedSeriesDoc tickingClock) storyUrl initial =
    (Returned
       [ mkChapterRef "Chapter 1" "https://www.literotica.com/s/my-story-ch-01";
         mkChapterRef "Chapter 2" "https://www.literotica.com/s/my-story-ch-02" ],
     mkWorld 0 1 0 [EvFetch ("https://corsproxy.io/?" ++ storyUrl)]).
Proof.
  refine (proj1 (proj1 (fetchChapters_discovers
                          (servingHost rootedSeriesDoc tickingClock)
                          storyUrl page initial
                          (mkWorld 0 1 0
                             [EvFetch ("https://corsproxy.io/?" ++ storyUrl)])
                          _) _ _)).
  - reflexivity.
  - discriminate.
  - reflexivity.
Defined.

(** The series index whose second link has the target "s/my-story-ch-02":
    the reference returned for it has the URL
    "https://www.literotica.coms/my-story-ch-02", of host name
    www.literotica.coms, where the target resolved against the origin is
    "https://www.literotica.com/s/my-story-ch-02". *)
Lemma fetchChapters_path_target_leaves_origin_witness :
  (exists refs r,
     fetchChapters (servingHost seriesDoc tickingClock) storyUrl initial
     = (Returned refs,
        mkWorld 0 1 0 [EvFetch ("https://corsproxy.io/?" ++ storyUrl)]) /\
     In r refs /\
     ref_title r = "Chapter 2" /\
     url r = "https://www.literotica.coms/my-story-ch-02" /\
     originOf (url r) <> Some "https://www.literotica.com") /\
  ~ DiscoverClaim (servingHost seriesDoc tickingClock) storyUrl initial.
Proof.
  apply (fetchChapters_path_target_leaves_origin
           (servingHost seriesDoc tickingClock) storyUrl page
           "s/my-story-ch-02" initial
           (mkWorld 0 1 0 [EvFetch ("https://corsproxy.io/?" ++ storyUrl)])
           (mkElement [("href", "s/my-story-ch-02")] "Chapter 2" "Chapter 2")).
  - reflexivity.
  - reflexivity.
  - simpl. right. left. reflexivity.
  - reflexivity.
  - reflexivity.
  - discriminate.
  - reflexivity.
  - reflexivity.
Defined.

(** ** Extraction: the selector chain of [fetchChapterContent] *)

Section Extraction.

Variable host : Host.

Lemma fetchChapterContent_after_fetch (url html : string)
  (chapterNum totalChapters : nat) (w w' : World) :
  fetchWithRetry host url 3 w = (Returned html, w') ->
  fetchChapterContent host url chapterNum totalChapters w =
    match firstMatch (parseFromString host html) selectorChain with
    | Some el => (Returned (cleanContent (innerHTML el)), w')
    | None => (Threw (contentNotFound chapterNum totalChapters), w')
    end.
Proof.
  intros Hfetch. unfold fetchChapterContent, tryCatch, bind.
  rewrite Hfetch. cbv zeta. unfold selectorChain, firstMatch.
  destruct (querySelector (parseFromString host html) ".aa_ht");
    [reflexivity|].
  destruct (querySelector (parseFromString host html) "div.panel article");
    [reflexivity|].
  destruct (querySelector (parseFromString host html) ".b-story-body-x");
    reflexivity.
Qed.

(** C6.  Once the chapter document is retrieved, [fetchChapterContent]
    takes the element of the first selector of the chain that matches; in
    particular a document matched by the second selector only is not an
    error.  It throws the content-not-found error, whose message names the
    chapter number and the number of chapters, exactly when no selector of
    the chain matches. *)
Theorem fetchChapterContent_selector_chain (url html : string)
  (chapterNum totalChapters : nat) (w w' : World) :
  fetchWithRetry host url 3 w = (Returned html, w') ->
  let doc := parseFromString host html in
  (forall el,
     firstMatch doc selectorChain = Some el ->
     fetchChapterContent host url chapterNum totalChapters w =
       (Returned (cleanContent (innerHTML el)), w')) /\
  (forall el,
     querySelector doc ".aa_ht" = None ->
     querySelector doc "div.panel article" = Some el ->
     fetchChapterContent host url chapterNum totalChapters w =
       (Returned (cleanContent (innerHTML el)), w')) /\
  (fetchChapterContent host url chapterNum totalChapters w =
     (Threw (contentNotFound chapterNum totalChapters), w')
   <-> Forall (fun selector => querySelector doc selector = None)
         selectorChain) /\
  Embeds (show_nat chapterNum ++ "/" ++ show_nat totalChapters)
    (message (contentNotFound chapterNum totalChapters)).
Proof.
  intros Hfetch doc.
  rewrite (fetchChapterContent_after_fetch _ _ _ _ _ _ Hfetch). fold doc.
  split; [|split; [|split]].
  - intros el Hel. rewrite Hel. reflexivity.
  - intros el H1 H2. unfold selectorChain, firstMatch. rewrite H1, H2.
    reflexivity.
  - unfold selectorChain, firstMatch. split.
    + destruct (querySelector doc ".aa_ht") eqn:H1; [discriminate|].
      destruct (querySelector doc "div.panel article") eqn:H2; [discriminate|].
      destruct (querySelector doc ".b-story-body-x") eqn:H3; [discriminate|].
      intros _. repeat constructor; assumption.
    + intros Hall.
      inversion Hall as [|s1 l1 H1 Hall1]; subst.
      inversion Hall1 as [|s2 l2 H2 Hall2]; subst.
      inversion Hall2 as [|s3 l3 H3 _]; subst.
      rewrite H1, H2, H3. reflexivity.
  - exists "Failed to fetch chapter ".
    exists (": Could not find story content for chapter " ++ show_nat chapterNum).
    unfold contentNotFound, Error. cbn [message].
    rewrite !append_assoc. reflexivity.
Qed.

End Extraction.

Lemma fetchChapterContent_selector_chain_witness :
  fetchChapterContent (servingHost articleDoc tickingClock) storyUrl 2 3
    initial =
    (Returned "<p>Once upon a time.</p>",
     mkWorld 0 1 0 [EvFetch ("https://corsproxy.io/?" ++ storyUrl)]).
Proof.
  refine (proj1 (proj2 (fetchChapterContent_selector_chain
                          (servingHost articleDoc tickingClock)
                          storyUrl page 2 3 initial
                          (mkWorld 0 1 0
                             [EvFetch ("https://corsproxy.io/?" ++ storyUrl)])
                          _))
            (mkElement [] "Once upon a time."
               "<p>Once upon a time.</p><script>track()</script>") _ _).
  - reflexivity.
  - reflexivity.
  - reflexivity.
Defined.

(** ** The identifiers of the package *)

Section Identifiers.

Lemma show_Z_inj (m n : Z) : show_Z m = show_Z n -> m = n.
Proof.
  unfold show_Z. intros H.
  apply DecimalZ.to_int_inj.
  assert (Hnorm : forall z, Z.to_int z <> Decimal.Pos Decimal.Nil /\
                            Z.to_int z <> Decimal.Neg Decimal.Nil).
  { intros z. split; intros Hz;
      pose proof (DecimalZ.to_of (Z.to_int z)) as Hto;
      rewrite DecimalZ.of_to in Hto; rewrite Hz in Hto at 2;
      rewrite Hto in Hz; discriminate Hz. }
  assert (Hm : NilZero.int_of_string (NilZero.string_of_int (Z.to_int m))
               = Some (Z.to_int m))
    by (apply NilZero.isi; apply Hnorm).
  assert (Hn : NilZero.int_of_string (NilZero.string_of_int (Z.to_int n))
               = Some (Z.to_int n))
    by (apply NilZero.isi; apply Hnorm).
  rewrite H in Hm. rewrite Hm in Hn. injection Hn as Hn. exact Hn.
Qed.

Variable host : Host.

(** The identifier texts that [createEpub] writes are those of the first
    and of the second reading of the clock; they are the same text only if
    the two readings are equal. *)
Lemma createEpub_identifier_sources (title : string)
  (chapters : list ChapterContent) (w : World) :
  exists (blob : Archive) (filename : string) (manifest spine navPoints : string),
    createEpub host title chapters w =
      (Returned tt,
       mkWorld (currentProxyIndex w) (requests w) (S (S (clockReads w)))
         (trace w ++ [EvSaveAs blob filename])%list) /\
    option_map data (get "OEBPS/content.opf" blob) =
      Some (contentOpf title (clock host (clockReads w)) manifest spine) /\
    option_map data (get "OEBPS/toc.ncx" blob) =
      Some (tocNcx title (clock host (S (clockReads w))) navPoints) /\
    ("literotica-" ++ show_Z (clock host (clockReads w)) =
     "literotica-" ++ show_Z (clock host (S (clockReads w)))
     -> clock host (clockReads w) = clock host (S (clockReads w))).
Proof.
  exists (buildArchive title chapters (clock host (clockReads w))
            (clock host (S (clockReads w)))).
  exists (sanitizeFilename title ++ ".epub"). eexists. eexists. eexists.
  split; [apply createEpub_run|].
  split; [rewrite buildArchive_get_package; reflexivity|].
  split; [rewrite buildArchive_get_navigation; reflexivity|].
  intros H. apply append_inj_l in H. apply show_Z_inj. exact H.
Qed.

End Identifiers.

(** C10 at a failing input: with a clock that ticks between the two
    readings, the package identifier of content.opf and the uid of toc.ncx
    of one archive differ. *)
Theorem createEpub_identifiers_differ :
  exists (blob : Archive) (filename : string) (opf ncx : Entry),
    createEpub (servingHost articleDoc tickingClock) "My Story"
      [mkChapterContent "My Story - Part 1" "<p>Once upon a time.</p>"]
      initial =
      (Returned tt, mkWorld 0 0 2 [EvSaveAs blob filename]) /\
    get "OEBPS/content.opf" blob = Some opf /\
    get "OEBPS/toc.ncx" blob = Some ncx /\
    packageIdentifier (data opf) = Some "literotica-1700000000000" /\
    navigationUid (data ncx) = Some "literotica-1700000000001" /\
    packageIdentifier (data opf) <> navigationUid (data ncx).
Proof.
  eexists. eexists. eexists. eexists.
  split; [exact (createEpub_run (servingHost articleDoc tickingClock) _ _
                   initial)|].
  split; [apply buildArchive_get_package|].
  split; [apply buildArchive_get_navigation|].
  cbn [data packageEntry navigationEntry].
  split; [vm_compute; reflexivity|].
  split; [vm_compute; reflexivity|].
  vm_compute. discriminate.
Qed.

(** ** Sanitising: the stripping patterns of [fetchChapterContent] *)

Section Sanitising.

Lemma canon_lt (a : ascii) :
  Ascii.eqb (canon a) (canon "<"%char) = Ascii.eqb a "<"%char.
Proof. destruct a as [[] [] [] [] [] [] [] []]; reflexivity. Qed.

(** A literal word is matched as a prefix, letter case ignored. *)
Lemma rmatch_lits (p : string) :
  forall (prev : option ascii) (s : string) (k : State -> option State),
    rmatch (lits p) (prev, s) k =
      match ciPrefix p prev s with
      | Some st => k st
      | None => None
      end.
Proof.
  induction p as [|c p IH]; intros prev s k; [reflexivity|].
  cbn [lits rmatch ciPrefix snd].
  destruct s as [|a s]; [reflexivity|].
  destruct (Ascii.eqb (canon a) (canon c)); [apply IH | reflexivity].
Qed.

Lemma skipText_length (s : string) :
  forall prev, String.length (snd (skipText prev s)) <= String.length s.
Proof.
  induction s as [|a s IH]; intros prev; simpl; [lia|].
  destruct (Ascii.eqb a "<"); simpl; [lia|].
  specialize (IH (Some a)). lia.
Qed.

Lemma skipText_atMarkup (s : string) :
  forall prev, atMarkup (snd (skipText prev s)).
Proof.
  induction s as [|a s IH]; intros prev; simpl; [left; reflexivity|].
  destruct (Ascii.eqb a "<") eqn:Ha; [|apply IH].
  apply Ascii.eqb_eq in Ha. subst a. right. exists s. reflexivity.
Qed.

(** The star over the class of characters other than "<" takes the whole
    run, when the rest of the pattern cannot start inside the run. *)
Lemma starLoop_text (k : State -> option State) :
  (forall p a s, Ascii.eqb a "<"%char = false -> k (p, String a s) = None) ->
  forall (n : nat) (prev : option ascii) (s : string),
    String.length s <= n ->
    starLoop (rmatch (NotLit "<"%char)) k n (prev, s) = k (skipText prev s).
Proof.
  intros Hk. induction n as [|n IH]; intros prev s Hlen.
  - destruct s; [reflexivity | simpl in Hlen; lia].
  - destruct s as [|a s]; [reflexivity|].
    cbn [starLoop rmatch snd skipText]. rewrite canon_lt.
    destruct (Ascii.eqb a "<") eqn:Ha; [reflexivity|].
    cbn [snd String.length].
    replace (String.length s <? S (String.length s)) with true
      by (symmetry; apply Nat.ltb_lt; lia).
    fold (starLoop (rmatch (NotLit "<"%char)) k).
    rewrite IH by (simpl in Hlen; lia).
    destruct (k (skipText (Some a) s)) eqn:Hres; [reflexivity|].
    apply Hk. exact Ha.
Qed.

Section OneTag.

Variable tag : string.

Let close : string := "</" ++ tag ++ ">".

Let group : regex :=
  Cat (NotAhead (lits close)) (Cat (Lit "<"%char) (Star (NotLit "<"%char))).

Let finish : State -> option State := fun st => rmatch (lits close) st Some.

Lemma ciPrefix_close_text (prev : option ascii) (a : ascii) (s : string) :
  Ascii.eqb a "<"%char = false -> ciPrefix close prev (String a s) = None.
Proof.
  intros Ha. unfold close. cbn [append ciPrefix].
  rewrite canon_lt, Ha. reflexivity.
Qed.

Lemma finish_ciPrefix (prev : option ascii) (s : string) :
  finish (prev, s) = ciPrefix close prev s.
Proof.
  unfold finish. rewrite rmatch_lits.
  destruct (ciPrefix close prev s); reflexivity.
Qed.

(** Inside a run of text neither a group nor the closing tag can start. *)
Lemma starLoop_group_text (n : nat) (prev : option ascii) (a : ascii)
  (s : string) :
  Ascii.eqb a "<"%char = false ->
  starLoop (rmatch group) finish n (prev, String a s) = None.
Proof.
  intros Ha.
  assert (Hfin : finish (prev, String a s) = None)
    by (rewrite finish_ciPrefix; apply ciPrefix_close_text; exact Ha).
  destruct n as [|n]; [exact Hfin|].
  cbn [starLoop]. unfold group at 1. cbn [rmatch].
  rewrite rmatch_lits, (ciPrefix_close_text prev a s Ha).
  cbn [snd]. rewrite canon_lt, Ha. exact Hfin.
Qed.

Lemma scanClose_skipText (s : string) :
  forall prev,
    scanClose close prev s =
      scanClose close (fst (skipText prev s)) (snd (skipText prev s)).
Proof.
  induction s as [|a s IH]; intros prev; [reflexivity|].
  cbn [skipText]. destruct (Ascii.eqb a "<") eqn:Ha; [reflexivity|].
  cbn [scanClose]. rewrite (ciPrefix_close_text prev a s Ha). apply IH.
Qed.

(** The star over the groups, followed by the closing tag, finds the first
    closing tag. *)
Lemma starLoop_group (n : nat) :
  forall (prev : option ascii) (s : string),
    String.length s <= n ->
    atMarkup s ->
    starLoop (rmatch group) finish n (prev, s) = scanClose close prev s.
Proof.
  induction n as [|n IH]; intros prev s Hlen Hat.
  - destruct s; [|simpl in Hlen; lia].
    cbn [starLoop scanClose]. rewrite finish_ciPrefix.
    destruct (ciPrefix close prev ""); reflexivity.
  - destruct Hat as [Hs | [s' Hs]]; subst s.
    + cbn [starLoop scanClose]. unfold group at 1. cbn [rmatch].
      rewrite rmatch_lits, finish_ciPrefix.
      destruct (ciPrefix close prev ""); reflexivity.
    + cbn [starLoop scanClose]. unfold group at 1. cbn [rmatch].
      rewrite rmatch_lits, finish_ciPrefix.
      destruct (ciPrefix close prev (String "<" s')) as [st|] eqn:Hclose;
        [reflexivity|].
      cbn [snd]. rewrite Ascii.eqb_refl.
      fold group. fold (starLoop (rmatch group) finish).
      rewrite starLoop_text.
      * pose proof (skipText_length s' (Some "<"%char)) as Hskip.
        cbn [String.length].
        replace (String.length (snd (skipText (Some "<"%char) s'))
                 <? S (String.length s')) with true
          by (symmetry; apply Nat.ltb_lt; lia).
        rewrite (surjective_pairing (skipText (Some "<"%char) s')).
        rewrite IH.
        -- rewrite <- scanClose_skipText.
           destruct (scanClose close (Some "<"%char) s'); reflexivity.
        -- simpl in Hlen. lia.
        -- apply skipText_atMarkup.
      * intros p a s Ha. cbn [snd String.length].
        destruct (S (String.length s) <? S (String.length s'));
          [|reflexivity].
        apply starLoop_group_text. exact Ha.
      * cbn [snd]. lia.
Qed.

(** The stripping pattern matches at [s] what [matchTag] describes. *)
Lemma exec_stripPattern (prev : option ascii) (s : string) :
  exec (stripPattern tag) (prev, s) = matchTag tag s.
Proof.
  unfold exec, stripPattern, matchTag. cbn [rmatch].
  rewrite rmatch_lits.
  assert (Hprev : ciPrefix ("<" ++ tag) prev s = ciPrefix ("<" ++ tag) None s).
  { cbn [append ciPrefix]. destruct s as [|a s]; reflexivity. }
  rewrite Hprev.
  destruct (ciPrefix ("<" ++ tag) None s) as [[p1 s1]|]; [|reflexivity].
  destruct (xorb (wordBefore (p1, s1)) (wordAfter (p1, s1))); [|reflexivity].
  cbn [fst snd].
  fold close. fold group.
  change (fun st' : State => rmatch (lits close) st' Some) with finish.
  rewrite starLoop_text.
  - rewrite (surjective_pairing (skipText p1 s1)).
    rewrite starLoop_group.
    + symmetry. apply scanClose_skipText.
    + cbn [snd]. lia.
    + apply skipText_atMarkup.
  - intros p a s' Ha. apply starLoop_group_text. exact Ha.
  - lia.
Qed.

(** The match does not depend on the character before it. *)
Lemma replace_go_prev (repl : string) (skip : nat) (p1 p2 : option ascii)
  (s : string) :
  replace_go (stripPattern tag) repl skip p1 s =
    replace_go (stripPattern tag) repl skip p2 s.
Proof.
  destruct s as [|c s]; cbn [replace_go].
  - rewrite !exec_stripPattern. reflexivity.
  - destruct skip; [|reflexivity].
    rewrite !exec_stripPattern. reflexivity.
Qed.

(** Where the pattern does not match, the character is kept. *)
Lemma strip_keep (c : ascii) (s : string) :
  matchTag tag (String c s) = None ->
  replaceAll (stripPattern tag) "" (String c s) =
    String c (replaceAll (stripPattern tag) "" s).
Proof.
  intros Hnone. unfold replaceAll. cbn [replace_go].
  rewrite exec_stripPattern, Hnone.
  rewrite (replace_go_prev "" 0 (Some c) None). reflexivity.
Qed.

Lemma replace_go_skip (m : string) :
  forall (prev : option ascii) (rest : string),
    replace_go (stripPattern tag) "" (String.length m) prev (m ++ rest) =
      replaceAll (stripPattern tag) "" rest.
Proof.
  induction m as [|c m IH]; intros prev rest.
  - apply replace_go_prev.
  - cbn [String.length append replace_go]. apply IH.
Qed.

(** Where the pattern matches [m], the search goes on after [m]. *)
Lemma strip_drop (c : ascii) (m rest : string) (p : option ascii) :
  matchTag tag (String c (m ++ rest)) = Some (p, rest) ->
  replaceAll (stripPattern tag) "" (String c (m ++ rest)) =
    replaceAll (stripPattern tag) "" rest.
Proof.
  intros Hsome. unfold replaceAll. cbn [replace_go].
  rewrite exec_stripPattern, Hsome.
  replace (String.length (String c (m ++ rest)) - String.length rest)
    with (S (String.length m))
    by (cbn [String.length]; rewrite append_length; lia).
  cbn [append]. apply replace_go_skip.
Qed.

Lemma matchTag_text (c : ascii) (s : string) :
  Ascii.eqb c "<"%char = false -> matchTag tag (String c s) = None.
Proof.
  intros Hc. unfold matchTag. cbn [append ciPrefix].
  rewrite canon_lt, Hc. reflexivity.
Qed.

(** Text without "<" is kept as it is. *)
Lemma strip_text (x rest : string) :
  noLt x = true ->
  replaceAll (stripPattern tag) "" (x ++ rest) =
    x ++ replaceAll (stripPattern tag) "" rest.
Proof.
  induction x as [|c x IH]; intros Hx; [reflexivity|].
  cbn [noLt forallb_string] in Hx. apply andb_prop in Hx.
  destruct Hx as [Hc Hx]. apply negb_true_iff in Hc.
  cbn [append]. rewrite strip_keep by (apply matchTag_text; exact Hc).
  rewrite IH by exact Hx. reflexivity.
Qed.

Lemma ciPrefix_none_prev (q : string) (p1 p2 : option ascii) (s : string) :
  ciPrefix q p1 s = None -> ciPrefix q p2 s = None.
Proof.
  revert p1 p2 s. induction q as [|c q IH]; intros p1 p2 s H;
    [discriminate H|].
  destruct s as [|a s]; [reflexivity|].
  cbn [ciPrefix] in *.
  destruct (Ascii.eqb (canon a) (canon c)); [|reflexivity].
  apply (IH (Some a) (Some a)). exact H.
Qed.

(** A "<" that does not open the tag is kept. *)
Lemma strip_lt_keep (x : string) :
  startsCI tag x = false ->
  replaceAll (stripPattern tag) "" (String "<"%char x) =
    String "<"%char (replaceAll (stripPattern tag) "" x).
Proof.
  intros Hx. apply strip_keep. unfold matchTag.
  cbn [append ciPrefix]. rewrite Ascii.eqb_refl.
  unfold startsCI in Hx.
  destruct (ciPrefix tag None x) eqn:Hp; [discriminate Hx|].
  rewrite (ciPrefix_none_prev tag None (Some "<"%char) x Hp). reflexivity.
Qed.

(** A piece of markup that starts with a "<" that does not open the tag,
    and holds no other "<", is kept as it is. *)
Lemma strip_markup (x rest : string) :
  startsCI tag (x ++ rest) = false ->
  noLt x = true ->
  replaceAll (stripPattern tag) "" (String "<"%char (x ++ rest)) =
    String "<"%char (x ++ replaceAll (stripPattern tag) "" rest).
Proof.
  intros Hstart Hx. rewrite strip_lt_keep by exact Hstart.
  rewrite strip_text by exact Hx. reflexivity.
Qed.

End OneTag.

Lemma canon_word (a : ascii) : isWordChar (canon a) = isWordChar a.
Proof. destruct a as [[] [] [] [] [] [] [] []]; reflexivity. Qed.

Lemma canon_eq_word (a b : ascii) :
  Ascii.eqb (canon a) (canon b) = true -> isWordChar a = isWordChar b.
Proof.
  intros H. apply Ascii.eqb_eq in H.
  rewrite <- (canon_word a), <- (canon_word b), H. reflexivity.
Qed.

Lemma canon_gt (a : ascii) :
  Ascii.eqb (canon a) (canon ">"%char) = Ascii.eqb a ">"%char.
Proof. destruct a as [[] [] [] [] [] [] [] []]; reflexivity. Qed.

Lemma startsCI_false (q : string) (p : option ascii) (s : string) :
  ciPrefix q p s = None -> startsCI q s = false.
Proof.
  intros H. unfold startsCI.
  rewrite (ciPrefix_none_prev q p None s H). reflexivity.
Qed.

Lemma startsCI_none (q s : string) :
  startsCI q s = false -> ciPrefix q None s = None.
Proof.
  unfold startsCI. destruct (ciPrefix q None s); [discriminate | reflexivity].
Qed.

(** A word without ">" that does not begin a text ending in ">" does not
    begin that text followed by anything. *)
Lemma ciPrefix_before_gt (q : string) :
  forallb_string (fun c => negb (Ascii.eqb c ">"%char)) q = true ->
  forall (s y : string) (p1 p2 : option ascii),
    lastChar s = Some ">"%char ->
    ciPrefix q p1 s = None ->
    ciPrefix q p2 (s ++ y) = None.
Proof.
  intros Hq. induction q as [|c q IH]; intros s y p1 p2 Hlast Hnone;
    [discriminate Hnone|].
  cbn [forallb_string] in Hq. apply andb_prop in Hq. destruct Hq as [Hc Hq].
  destruct s as [|a s]; [discriminate Hlast|].
  cbn [append ciPrefix] in *.
  destruct (Ascii.eqb (canon a) (canon c)) eqn:Hac; [|reflexivity].
  destruct s as [|b s].
  - injection Hlast as Ha. subst a.
    rewrite Ascii.eqb_sym, canon_gt in Hac.
    rewrite Hac in Hc. discriminate Hc.
  - apply (IH Hq (String b s) y (Some a) (Some a)); assumption.
Qed.

(** A word that holds "<" at its start only and does not begin a non-empty
    text does not begin that text followed by a "<". *)
Lemma ciPrefix_tail_lt (q : string) :
  forallb_string (fun c => negb (Ascii.eqb c "<"%char)) q = true ->
  forall (s y : string) (p1 p2 : option ascii),
    ciPrefix q p1 s = None ->
    ciPrefix q p2 (s ++ String "<"%char y) = None.
Proof.
  intros Hq. induction q as [|c q IH]; intros s y p1 p2 Hnone;
    [discriminate Hnone|].
  cbn [forallb_string] in Hq. apply andb_prop in Hq. destruct Hq as [Hc Hq].
  destruct s as [|a s]; cbn [append ciPrefix] in *.
  - rewrite Ascii.eqb_sym, canon_lt. apply negb_true_iff in Hc.
    rewrite Hc. reflexivity.
  - destruct (Ascii.eqb (canon a) (canon c)); [|reflexivity].
    apply (IH Hq s y (Some a) (Some a)). exact Hnone.
Qed.

Lemma ciPrefix_before_lt (q : string) :
  forallb_string (fun c => negb (Ascii.eqb c "<"%char)) q = true ->
  forall (a : ascii) (s y : string) (p1 p2 : option ascii),
    ciPrefix (String "<"%char q) p1 (String a s) = None ->
    ciPrefix (String "<"%char q) p2 (String a s ++ String "<"%char y) = None.
Proof.
  intros Hq a s y p1 p2 Hnone. cbn [append ciPrefix] in *.
  destruct (Ascii.eqb (canon a) (canon "<")); [|reflexivity].
  apply (ciPrefix_tail_lt q Hq s y (Some a) (Some a)). exact Hnone.
Qed.

Lemma lastChar_app (x : string) (c : ascii) :
  lastChar (x ++ String c "") = Some c.
Proof.
  induction x as [|a x IH]; [reflexivity|].
  cbn [append lastChar]. rewrite IH.
  destruct (x ++ String c "") eqn:Hx; [|reflexivity].
  destruct x; discriminate Hx.
Qed.

Lemma tagName_word (t : Tag) : forallb_string isWordChar (tagName t) = true.
Proof. destruct t; reflexivity. Qed.

Lemma mentionsAnyOpener_tag (t : Tag) (s : string) :
  mentionsAnyOpener s = false -> mentionsOpener (tagName t) s = false.
Proof.
  unfold mentionsAnyOpener. intros H.
  apply orb_false_elim in H. destruct H as [H Hiframe].
  apply orb_false_elim in H. destruct H as [Hscript Hstyle].
  destruct t; assumption.
Qed.

Section OnePass.

Variable t : Tag.

Let strip (s : string) : string :=
  replaceAll (stripPattern (tagName t)) "" s.

Let close : string := "</" ++ tagName t ++ ">".

(** A piece that ends with ">" and does not mention the opener is kept as
    it is, whatever follows it. *)
Lemma strip_piece (x rest : string) :
  lastChar x = Some ">"%char ->
  mentionsOpener (tagName t) x = false ->
  strip (x ++ rest) = x ++ strip rest.
Proof.
  induction x as [|c x IH]; intros Hlast Hno; [discriminate Hlast|].
  cbn [mentionsOpener] in Hno. apply orb_false_elim in Hno.
  destruct Hno as [Hhere Hrest].
  cbn [append]. unfold strip. rewrite strip_keep.
  - destruct x as [|b x]; [reflexivity|].
    fold (strip (String b x ++ rest)). rewrite IH; [reflexivity | | exact Hrest].
    exact Hlast.
  - unfold matchTag.
    change (String c (x ++ rest)) with (String c x ++ rest).
    rewrite (ciPrefix_before_gt ("<" ++ tagName t)
               ltac:(destruct t; reflexivity) (String c x) rest None None
               Hlast (startsCI_none _ _ Hhere)).
    reflexivity.
Qed.

(** The search for the closing tag passes over a text that does not hold
    it, and stops at the closing tag that follows. *)
Lemma scanClose_first (inner rest : string) :
  mentionsCloser t inner = false ->
  forall prev,
    scanClose close prev (inner ++ close ++ rest) = Some (Some ">"%char, rest).
Proof.
  induction inner as [|a inner IH]; intros Hno prev.
  - cbn [append]. unfold close. destruct t; reflexivity.
  - cbn [mentionsCloser] in Hno. apply orb_false_elim in Hno.
    destruct Hno as [Hhere Hrest].
    cbn [append scanClose].
    change (String a (inner ++ close ++ rest))
      with (String a inner ++ close ++ rest).
    assert (Hclose : close ++ rest
                     = String "<"%char (("/" ++ tagName t ++ ">") ++ rest))
      by reflexivity.
    rewrite Hclose.
    rewrite (ciPrefix_before_lt ("/" ++ tagName t ++ ">")
               ltac:(destruct t; reflexivity) a inner _ None prev
               (startsCI_none _ _ Hhere)).
    rewrite <- Hclose. cbn [append]. apply IH. exact Hrest.
Qed.

(** A block of the element is matched from its start tag to its end tag. *)
Lemma matchTag_own_block (attrs body rest : string) :
  boundaryAttrs attrs = true ->
  mentionsCloser t (attrs ++ ">" ++ body) = false ->
  matchTag (tagName t) (serializeNode (Block t attrs body) ++ rest) =
    Some (Some ">"%char, rest).
Proof.
  intros Hattrs Hno.
  assert (Hshape : serializeNode (Block t attrs body) ++ rest =
                   ("<" ++ tagName t) ++ (attrs ++ ">" ++ body) ++ close ++ rest).
  { cbn [serializeNode]. unfold close. rewrite !append_assoc. reflexivity. }
  rewrite Hshape. unfold matchTag.
  assert (Hopen : forall y, exists last,
            ciPrefix ("<" ++ tagName t) None (("<" ++ tagName t) ++ y)
            = Some (Some last, y) /\ isWordChar last = true).
  { intros y. destruct t; eexists; split; reflexivity. }
  destruct (Hopen ((attrs ++ ">" ++ body) ++ close ++ rest))
    as [last [Hlast Hword]].
  rewrite Hlast.
  replace (wordBefore (Some last, (attrs ++ ">" ++ body) ++ close ++ rest))
    with true by (symmetry; exact Hword).
  replace (wordAfter (Some last, (attrs ++ ">" ++ body) ++ close ++ rest))
    with false.
  - cbn [xorb fst snd]. apply scanClose_first. exact Hno.
  - unfold wordAfter. cbn [snd]. rewrite !append_assoc.
    destruct attrs as [|c attrs]; [reflexivity|].
    cbn [append]. cbn [boundaryAttrs] in Hattrs.
    apply negb_true_iff in Hattrs. symmetry. exact Hattrs.
Qed.

Lemma strip_own_block (attrs body rest : string) :
  boundaryAttrs attrs = true ->
  mentionsCloser t (attrs ++ ">" ++ body) = false ->
  strip (serializeNode (Block t attrs body) ++ rest) = strip rest.
Proof.
  intros Hattrs Hno. unfold strip.
  pose proof (matchTag_own_block attrs body rest Hattrs Hno) as Hmatch.
  assert (Hshape : serializeNode (Block t attrs body) ++ rest =
                   String "<"%char
                     ((tagName t ++ attrs ++ ">" ++ body ++ "</"
                         ++ tagName t ++ ">") ++ rest)).
  { cbn [serializeNode]. reflexivity. }
  rewrite Hshape in *.
  exact (strip_drop (tagName t) "<"%char _ rest _ Hmatch).
Qed.

(** A block of another element is kept. *)
Lemma strip_other_block (t' : Tag) (attrs body rest : string) :
  Tag_eqb t t' = false ->
  mentionsAnyOpener
    (tagName t' ++ attrs ++ ">" ++ body ++ "</" ++ tagName t' ++ ">") = false ->
  strip (serializeNode (Block t' attrs body) ++ rest) =
    serializeNode (Block t' attrs body) ++ strip rest.
Proof.
  intros Hneq Hno. apply strip_piece.
  - cbn [serializeNode].
    replace ("<" ++ tagName t' ++ attrs ++ ">" ++ body ++ "</" ++ tagName t'
               ++ ">")
      with (("<" ++ tagName t' ++ attrs ++ ">" ++ body ++ "</" ++ tagName t')
              ++ ">")
      by (rewrite !append_assoc; reflexivity).
    apply lastChar_app.
  - cbn [serializeNode].
    change ("<" ++ tagName t' ++ attrs ++ ">" ++ body ++ "</" ++ tagName t'
              ++ ">")
      with (String "<"%char
              (tagName t' ++ attrs ++ ">" ++ body ++ "</" ++ tagName t'
                 ++ ">")).
    cbn [mentionsOpener].
    rewrite (mentionsAnyOpener_tag t _ Hno), orb_false_r.
    destruct t, t'; try discriminate Hneq; reflexivity.
Qed.

Lemma Tag_eqb_eq (a b : Tag) : Tag_eqb a b = true -> a = b.
Proof. destruct a, b; intros H; try discriminate H; reflexivity. Qed.

(** One pass removes the blocks of its element and nothing else. *)
Lemma strip_node (n : Node) (rest : string) :
  tame n = true ->
  strip (serializeNode n ++ rest) =
    (if isBlockOf t n then "" else serializeNode n) ++ strip rest.
Proof.
  intros Htame. destruct n as [x|data|name attrs|name|t' attrs body];
    cbn [isBlockOf tame] in *.
  - unfold strip. cbn [serializeNode]. apply strip_text. exact Htame.
  - apply negb_true_iff in Htame. apply strip_piece.
    + cbn [serializeNode].
      replace ("<!--" ++ data ++ "-->") with (("<!--" ++ data ++ "--") ++ ">")
        by (rewrite !append_assoc; reflexivity).
      apply lastChar_app.
    + apply mentionsAnyOpener_tag. exact Htame.
  - apply negb_true_iff in Htame. apply strip_piece.
    + cbn [serializeNode].
      replace ("<" ++ name ++ attrs ++ ">") with (("<" ++ name ++ attrs) ++ ">")
        by (rewrite !append_assoc; reflexivity).
      apply lastChar_app.
    + apply mentionsAnyOpener_tag. exact Htame.
  - apply negb_true_iff in Htame. apply strip_piece.
    + cbn [serializeNode].
      replace ("</" ++ name ++ ">") with (("</" ++ name) ++ ">")
        by (rewrite !append_assoc; reflexivity).
      apply lastChar_app.
    + apply mentionsAnyOpener_tag. exact Htame.
  - apply andb_prop in Htame. destruct Htame as [Htame Hcloser].
    apply andb_prop in Htame. destruct Htame as [Hattrs Hopeners].
    apply negb_true_iff in Hcloser. apply negb_true_iff in Hopeners.
    destruct (Tag_eqb t t') eqn:Heq.
    + apply Tag_eqb_eq in Heq. subst t'.
      apply strip_own_block; assumption.
    + apply strip_other_block; assumption.
Qed.

Lemma strip_serialize (nodes : list Node) :
  forallb tame nodes = true ->
  strip (serialize nodes) =
    serialize (filter (fun n => negb (isBlockOf t n)) nodes).
Proof.
  induction nodes as [|n nodes IH]; intros Htame; [reflexivity|].
  cbn [forallb] in Htame. apply andb_prop in Htame.
  destruct Htame as [Hn Hnodes].
  cbn [serialize filter]. rewrite strip_node by exact Hn.
  rewrite IH by exact Hnodes.
  destruct (isBlockOf t n); reflexivity.
Qed.

End OnePass.

Lemma forallb_filter {A : Type} (p q : A -> bool) (l : list A) :
  forallb p l = true -> forallb p (filter q l) = true.
Proof.
  induction l as [|x l IH]; intros H; [reflexivity|].
  cbn [forallb] in H. apply andb_prop in H. destruct H as [Hx Hl].
  cbn [filter]. destruct (q x); [|apply IH; exact Hl].
  cbn [forallb]. rewrite Hx. apply IH. exact Hl.
Qed.

Lemma filter_three_passes (nodes : list Node) :
  filter (fun n => negb (isBlockOf Iframe n))
    (filter (fun n => negb (isBlockOf Style n))
       (filter (fun n => negb (isBlockOf Script n)) nodes)) =
    removeBlocks nodes.
Proof.
  unfold removeBlocks.
  induction nodes as [|n nodes IH]; [reflexivity|].
  destruct n as [x|data|name attrs|name|t attrs body];
    try (cbn [filter isBlockOf isBlock negb]; rewrite IH; reflexivity).
  destruct t; cbn [filter isBlockOf isBlock negb Tag_eqb]; exact IH.
Qed.

(** X22.  Where the patterns do remove the elements structurally.  For a
    captured fragment made of character data, comments, start and end tags
    and script, style and iframe elements, in which character data holds no
    "<", no comment and no tag of an element that is kept mentions
    "<script", "<style" or "<iframe", and no script, style or iframe element
    mentions one of them past its own start, holds its closing tag before
    its end, or has its name followed by a word character, [cleanContent]
    returns the fragment without its script, style and iframe elements and
    with every other piece unchanged.  A "<" in a comment, in an attribute
    value or in the content of a script does not matter. *)
Theorem cleanContent_removes_blocks (nodes : list Node) :
  forallb tame nodes = true ->
  cleanContent (serialize nodes) = serialize (removeBlocks nodes).
Proof.
  intros Htame. unfold cleanContent.
  change "script" with (tagName Script).
  change "style" with (tagName Style).
  change "iframe" with (tagName Iframe).
  rewrite (strip_serialize Script) by exact Htame.
  rewrite (strip_serialize Style)
    by (apply forallb_filter; exact Htame).
  rewrite (strip_serialize Iframe)
    by (apply forallb_filter; apply forallb_filter; exact Htame).
  rewrite filter_three_passes. reflexivity.
Qed.

End Sanitising.

Lemma cleanContent_removes_blocks_witness :
  cleanContent
    ("<p title='a<b'>Once upon a time.</p>"
     ++ "<!-- if 1 < 2 -->"
     ++ "<script type='text/javascript'>if (a<b) { track('</p>') }</script>"
     ++ "<style>p > b { margin: 0 }</style>"
     ++ "<p>The end.</p>"
     ++ "<iframe src='/ad?x=<y>'></iframe>")
  = "<p title='a<b'>Once upon a time.</p><!-- if 1 < 2 --><p>The end.</p>".
Proof.
  exact (cleanContent_removes_blocks comparingNodes eq_refl).
Defined.

(** C7.  The code departs from the claim.  The fragment made of the comment
    " <script> ", a paragraph and a script element is serialised as
    "<!-- <script> --><p>text</p><script>x</script>".  Structural removal
    takes the script element away and leaves the comment and the paragraph.
    [cleanContent] returns "<!-- ": the script pattern matches from the
    "<script" inside the comment up to the closing tag of the script
    element, so the end of the comment and the paragraph, which is story
    text, are deleted with it, and what is left is a comment that is never
    closed. *)
Theorem cleanContent_deletes_story_text :
  serialize commentedNodes = "<!-- <script> --><p>text</p><script>x</script>" /\
  serialize (removeBlocks commentedNodes) = "<!-- <script> --><p>text</p>" /\
  cleanContent (serialize commentedNodes) = "<!-- " /\
  includes "<p>text</p>" (serialize (removeBlocks commentedNodes)) = true /\
  includes "text" (cleanContent (serialize commentedNodes)) = false /\
  ~ StructuralClaim commentedNodes.
Proof.
  split; [reflexivity|]. split; [reflexivity|].
  assert (Hclean : cleanContent (serialize commentedNodes) = "<!-- ")
    by (vm_compute; reflexivity).
  split; [exact Hclean|].
  split; [reflexivity|].
  split; [rewrite Hclean; reflexivity|].
  unfold StructuralClaim. rewrite Hclean. discriminate.
Qed.

(** ** Worked examples *)


(** The package of the three-chapter series, read back from the text of
    its documents: three manifest items after the one of the navigation
    map, three spine references in the order 1, 2, 3, and three navigation
    points with play orders 1, 2, 3. *)
Example three_chapter_package :
  let blob := buildArchive "My Story" threeChapters 0 0 in
  let opf := option_map data (get "OEBPS/content.opf" blob) in
  let ncx := option_map data (get "OEBPS/toc.ncx" blob) in
  option_map (attrValues ("<item id=" ++ dq)) opf =
    Some ["ncx"; "chapter1"; "chapter2"; "chapter3"] /\
  option_map (attrValues (" href=" ++ dq)) opf =
    Some ["toc.ncx"; "chapter1.xhtml"; "chapter2.xhtml"; "chapter3.xhtml"] /\
  option_map (attrValues ("<itemref idref=" ++ dq)) opf =
    Some ["chapter1"; "chapter2"; "chapter3"] /\
  option_map (attrValues (" playOrder=" ++ dq)) ncx = Some ["1"; "2"; "3"] /\
  option_map (attrValues ("<content src=" ++ dq)) ncx =
    Some ["chapter1.xhtml"; "chapter2.xhtml"; "chapter3.xhtml"].
Proof. vm_compute. repeat split. Qed.

(** A whole run on a standalone story titled "My Story - Part 1": two
    requests, and the download of the archive under the name my_story.epub. *)
Example handleConvert_single_story :
  exists blob : Archive,
    handleConvert (servingHost singleStoryDoc tickingClock)
      ("  " ++ storyUrl ++ " ") initial =
      (Returned tt,
       mkWorld 0 2 2
         [ EvDisabled true;
           EvStatus Analyzing "info";
           EvFetch ("https://corsproxy.io/?" ++ storyUrl);
           EvStatus (Found 1) "info";
           EvStatus (Downloading 1 1) "info";
           EvFetch ("https://corsproxy.io/?" ++ storyUrl);
           EvStatus Creating "info";
           EvSaveAs blob "my_story.epub";
           EvStatus Downloaded "success";
           EvDisabled false ]) /\
    option_map data (get "OEBPS/chapter1.xhtml" blob) =
      Some (chapterDocument
              (mkChapterContent "My Story - Part 1" "<p>Once upon a time.</p>")) /\
    option_map (fun e => packageIdentifier (data e))
      (get "OEBPS/content.opf" blob) = Some (Some "literotica-1700000000000").
Proof.
  eexists. split; [vm_compute; reflexivity|].
  split; vm_compute; reflexivity.
Qed.

(** A run that finds no story content reports the chapter and stops
    without a download. *)
Example handleConvert_content_not_found :
  handleConvert (servingHost noDocument tickingClock) storyUrl initial =
    (Returned tt,
     mkWorld 0 2 0
       [ EvDisabled true;
         EvStatus Analyzing "info";
         EvFetch ("https://corsproxy.io/?" ++ storyUrl);
         EvStatus (Found 1) "info";
         EvStatus (Downloading 1 1) "info";
         EvFetch ("https://corsproxy.io/?" ++ storyUrl);
         EvStatus
           (Failed ("Failed to fetch chapter 1/1: "
                    ++ "Could not find story content for chapter 1"))
           "error";
         EvDisabled false ]).
Proof. vm_compute. reflexivity. Qed.

(** A series link without a target: [href.startsWith] throws. *)
Example fetchChapters_link_without_href :
  fetchChapters (servingHost anchorDoc tickingClock) storyUrl initial =
    (Threw (TypeError "Cannot read properties of null (reading 'startsWith')"),
     mkWorld 0 1 0 [EvFetch ("https://corsproxy.io/?" ++ storyUrl)]).
Proof. vm_compute. reflexivity. Qed.

(** A start tag whose name begins with "script" opens a match as well. *)
Example cleanContent_custom_element :
  cleanContent "<script-x>a</script-x><b>c</b><script>1</script>" = "".
Proof. vm_compute. reflexivity. Qed.

(** With no attempt allowed, the loop body never runs and reading the
    message of the last error fails. *)
Example fetchWithRetry_zero_attempts :
  fetchWithRetry offlineHost storyUrl 0 initial =
    (Threw (TypeError
              "Cannot read properties of undefined (reading 'message')"),
     initial).
Proof. reflexivity. Qed.

(* ================================================================= *)
(** * Part III: further properties of the script *)
(* ================================================================= *)

(** ** Retrieval, whatever the transport does *)

Section RetrievalOutcome.

Variable host : Host.
Variable target : string.

Local Arguments Nat.modulo : simpl never.
Local Arguments String.append : simpl never.
Local Arguments show_nat : simpl never.

Lemma Extends_refl (p : Event -> bool) (w : World) : Extends p w w.
Proof. exists []. rewrite app_nil_r. split; reflexivity. Qed.

Lemma Extends_trans (p : Event -> bool) (w1 w2 w3 : World) :
  Extends p w1 w2 -> Extends p w2 w3 -> Extends p w1 w3.
Proof.
  intros [a [Ha Hpa]] [b [Hb Hpb]]. exists (a ++ b)%list. split.
  - rewrite Hb, Ha, app_assoc. reflexivity.
  - rewrite forallb_app, Hpa, Hpb. reflexivity.
Qed.

Lemma Extends_weaken (p q : Event -> bool) (w w' : World) :
  (forall e, p e = true -> q e = true) -> Extends p w w' -> Extends q w w'.
Proof.
  intros Hpq [a [Ha Hpa]]. exists a. split; [exact Ha|].
  apply forallb_forall. intros e He.
  apply Hpq. exact (proj1 (forallb_forall p a) Hpa e He).
Qed.

(** One attempt makes one request, and returns only a body of at least 100
    characters. *)
Lemma attemptBody_cases (w : World) :
  exists c,
    attemptBody host target w =
      (c, requested (getProxy w ++ encodeURIComponent host target) w) /\
    match c with
    | Returned text => 100 <= String.length text
    | Threw _ => True
    end.
Proof.
  unfold attemptBody, bind, fetch, requested. cbv zeta.
  destruct (transport host (requests w)
              (getProxy w ++ encodeURIComponent host target))
    as [e | status body].
  - eexists. split; [reflexivity | exact I].
  - simpl. destruct (response_ok status); simpl.
    + destruct body as [text | e]; simpl.
      * unfold bind, ret. simpl.
        destruct (String.eqb text "" || (String.length text <? 100)) eqn:Hshort.
        -- eexists. split; [reflexivity | exact I].
        -- eexists. split; [reflexivity|].
           apply orb_false_elim in Hshort. destruct Hshort as [_ Hlen].
           apply Nat.ltb_ge in Hlen. exact Hlen.
      * eexists. split; [reflexivity | exact I].
    + eexists. split; [reflexivity | exact I].
Qed.

(** What a run of the retry loop comes to, for any transport. *)
Lemma retryLoop_post (n : nat) :
  forall (left attempt : nat) (lastError : option JsError) (w : World),
    attempt + left = n ->
    exists c w',
      retryLoop host target n left attempt lastError w = (c, w') /\
      clockReads w' = clockReads w /\
      Extends isNetwork w w' /\
      requests w' <= requests w + left /\
      match c with
      | Returned text =>
          100 <= String.length text /\ requests w < requests w'
      | Threw e =>
          requests w' = requests w + left /\
          (0 < left \/ lastError <> None ->
           exists d, e = Error (exhaustedMessage n d))
      end.
Proof.
  induction left as [|left IH]; intros attempt lastError w Hn.
  - exists (Threw match lastError with
                  | Some e => Error (exhaustedMessage n (message e))
                  | None => TypeError
                      "Cannot read properties of undefined (reading 'message')"
                  end), w.
    split; [destruct lastError; reflexivity|].
    split; [reflexivity|]. split; [apply Extends_refl|].
    split; [lia|]. split; [lia|].
    intros [H | H]; [lia|].
    destruct lastError as [e|]; [|contradiction].
    exists (message e). reflexivity.
  - destruct (attemptBody_cases w) as [c [Hbody Hc]].
    set (u := getProxy w ++ encodeURIComponent host target) in *.
    destruct c as [text | error].
    + exists (Returned text), (requested u w).
      split; [cbn [retryLoop]; rewrite Hbody; reflexivity|].
      split; [reflexivity|].
      split; [exists [EvFetch u]; split; reflexivity|].
      cbn [requested requests]. split; [lia|]. split; [exact Hc | lia].
    + rewrite (retryLoop_failed_step host target n left attempt lastError w
                 error u Hbody).
      assert (Hnext : forall w2,
                requests w2 = S (requests w) ->
                clockReads w2 = clockReads w ->
                Extends isNetwork w w2 ->
                exists c w',
                  retryLoop host target n left (S attempt) (Some error) w2
                  = (c, w') /\
                  clockReads w' = clockReads w /\
                  Extends isNetwork w w' /\
                  requests w' <= requests w + S left /\
                  match c with
                  | Returned text =>
                      100 <= String.length text /\ requests w < requests w'
                  | Threw e =>
                      requests w' = requests w + S left /\
                      (0 < S left \/ lastError <> None ->
                       exists d, e = Error (exhaustedMessage n d))
                  end).
      { intros w2 Hreq Hclock Hext.
        destruct (IH (S attempt) (Some error) w2) as [c [w' [Hrun H]]];
          [lia|].
        destruct H as [Hc' [Hext' [Hle Hcase]]].
        exists c, w'. split; [exact Hrun|].
        split; [rewrite Hc'; exact Hclock|].
        split; [exact (Extends_trans _ _ _ _ Hext Hext')|].
        split; [lia|].
        destruct c as [text | e].
        - destruct Hcase as [Hlen Hlt]. split; [exact Hlen | lia].
        - destruct Hcase as [Heq Hmsg]. split; [lia|].
          intros _. apply Hmsg. right. discriminate. }
      destruct (attempt <? n - 1).
      * apply Hnext; [reflexivity | reflexivity|].
        exists [EvFetch u; EvSleep 2000]. split; [|reflexivity].
        cbn [retriedOnce trace]. rewrite <- app_assoc. reflexivity.
      * apply Hnext; [reflexivity | reflexivity|].
        exists [EvFetch u]. split; reflexivity.
Qed.

(** A body that one attempt returns is the body of a successful answer of
    the transport to the request of that attempt. *)
Lemma attemptBody_source (w w1 : World) (text : string) :
  attemptBody host target w = (Returned text, w1) ->
  Succeeds (transport host (requests w)
              (getProxy w ++ encodeURIComponent host target)) text.
Proof.
  unfold attemptBody, bind, fetch. cbv zeta.
  destruct (transport host (requests w)
              (getProxy w ++ encodeURIComponent host target))
    as [e | status body]; [discriminate|].
  cbn [fst snd]. destruct (response_ok status) eqn:Hok; cbn [negb];
    [|discriminate].
  destruct body as [body | e]; cbn [text_of]; [|discriminate].
  unfold bind, ret.
  destruct (String.eqb body "" || (String.length body <? 100)) eqn:Hshort;
    [discriminate|].
  intros H. injection H as Htext _. subst body.
  apply orb_false_elim in Hshort. destruct Hshort as [_ Hlen].
  apply Nat.ltb_ge in Hlen.
  unfold response_ok in Hok. apply andb_prop in Hok.
  destruct Hok as [Hlo Hhi].
  apply Nat.leb_le in Hlo. apply Nat.leb_le in Hhi.
  constructor; [lia | exact Hlen].
Qed.

Lemma getProxy_in_range (w : World) :
  currentProxyIndex w < 3 -> In (getProxy w) CORS_PROXIES.
Proof.
  intros Hidx. unfold getProxy.
  destruct (currentProxyIndex w) as [|[|[|i]]]; simpl;
    [tauto | tauto | tauto | lia].
Qed.

(** A body that the retry loop returns is the body of a successful answer
    of the transport to one of the requests of the loop, sent to one of the
    proxies for the target. *)
Lemma retryLoop_source (n : nat) (text : string) :
  forall (left attempt : nat) (lastError : option JsError) (w w' : World),
    currentProxyIndex w < 3 ->
    retryLoop host target n left attempt lastError w = (Returned text, w') ->
    exists (k : nat) (proxy : string),
      requests w <= k < requests w' /\
      In proxy CORS_PROXIES /\
      Succeeds (transport host k (proxy ++ encodeURIComponent host target))
        text.
Proof.
  induction left as [|left IH]; intros attempt lastError w w' Hidx Hrun.
  - cbn [retryLoop] in Hrun. destruct lastError; discriminate Hrun.
  - destruct (attemptBody_cases w) as [c [Hbody _]].
    set (u := getProxy w ++ encodeURIComponent host target) in *.
    destruct c as [body | error].
    + cbn [retryLoop] in Hrun. rewrite Hbody in Hrun.
      injection Hrun as Htext Hw. subst body w'.
      exists (requests w), (getProxy w).
      split; [cbn [requested requests]; lia|].
      split; [apply getProxy_in_range; exact Hidx|].
      exact (attemptBody_source w _ text Hbody).
    + rewrite (retryLoop_failed_step host target n left attempt lastError w
                 error u Hbody) in Hrun.
      assert (Hnext : forall w2,
                requests w2 = S (requests w) ->
                currentProxyIndex w2 < 3 ->
                retryLoop host target n left (S attempt) (Some error) w2
                = (Returned text, w') ->
                exists (k : nat) (proxy : string),
                  requests w <= k < requests w' /\
                  In proxy CORS_PROXIES /\
                  Succeeds
                    (transport host k (proxy ++ encodeURIComponent host target))
                    text).
      { intros w2 Hreq Hidx2 Hrun2.
        destruct (IH (S attempt) (Some error) w2 w' Hidx2 Hrun2)
          as [k [proxy [Hk H]]].
        exists k, proxy. split; [lia | exact H]. }
      destruct (attempt <? n - 1).
      * apply (Hnext (retriedOnce u w)); [reflexivity | | exact Hrun].
        cbn [retriedOnce currentProxyIndex].
        apply Nat.mod_upper_bound. discriminate.
      * apply (Hnext (requested u w)); [reflexivity | exact Hidx | exact Hrun].
Qed.

End RetrievalOutcome.

Section RetrievalProperties.

Variable host : Host.

(** X1.  Whatever the transport does, a body that [fetchWithRetry] returns
    has at least 100 characters, and it was obtained with at least one and at
    most [maxRetries] requests. *)
Theorem fetchWithRetry_body_validated (url : string) (maxRetries : nat)
  (w w' : World) (text : string) :
  fetchWithRetry host url maxRetries w = (Returned text, w') ->
  100 <= String.length text /\
  requests w < requests w' /\
  requests w' <= requests w + maxRetries.
Proof.
  intros Hrun.
  destruct (retryLoop_post host url maxRetries maxRetries 0 None w eq_refl)
    as [c [w1 [Hrun1 [_ [_ [Hle Hcase]]]]]].
  unfold fetchWithRetry in Hrun. rewrite Hrun in Hrun1.
  injection Hrun1 as Hc Hw. subst c w1.
  destruct Hcase as [Hlen Hlt]. repeat split; assumption.
Qed.

(** X2.  Whatever the transport does, when [fetchWithRetry] with at least
    one attempt allowed throws, it has made exactly [maxRetries] requests and
    the error is an [Error] whose message is "Failed to fetch after
    [maxRetries] attempts: " followed by a detail. *)
Theorem fetchWithRetry_failure_exhausts (url : string) (maxRetries : nat)
  (w w' : World) (e : JsError) :
  1 <= maxRetries ->
  fetchWithRetry host url maxRetries w = (Threw e, w') ->
  requests w' = requests w + maxRetries /\
  exists d, e = Error (exhaustedMessage maxRetries d).
Proof.
  intros Hn Hrun.
  destruct (retryLoop_post host url maxRetries maxRetries 0 None w eq_refl)
    as [c [w1 [Hrun1 [_ [_ [_ Hcase]]]]]].
  unfold fetchWithRetry in Hrun. rewrite Hrun in Hrun1.
  injection Hrun1 as Hc Hw. subst c w1.
  destruct Hcase as [Hreq Hmsg]. split; [exact Hreq|].
  apply Hmsg. left. lia.
Qed.

(** X3.  [fetchWithRetry] touches nothing but the network and the rotation
    index: it adds only requests and waits to the trace, never reads the
    clock, and leaves the rotation index inside the proxy list. *)
Theorem fetchWithRetry_effects (url : string) (maxRetries : nat) (w : World) :
  currentProxyIndex w < 3 ->
  exists c w',
    fetchWithRetry host url maxRetries w = (c, w') /\
    Extends isNetwork w w' /\
    clockReads w' = clockReads w /\
    currentProxyIndex w' < 3 /\
    In (getProxy w') CORS_PROXIES.
Proof.
  intros Hidx.
  destruct (retryLoop_post host url maxRetries maxRetries 0 None w eq_refl)
    as [c [w1 [Hrun1 [Hclock [Hext _]]]]].
  exists c, w1. split; [exact Hrun1|]. split; [exact Hext|].
  split; [exact Hclock|].
  pose proof (retryLoop_index_in_range host url maxRetries maxRetries 0 None
                w Hidx) as Hidx'.
  rewrite Hrun1 in Hidx'. cbn [snd] in Hidx'.
  split; [exact Hidx'|].
  unfold getProxy.
  destruct (currentProxyIndex w1) as [|[|[|i]]]; simpl; [tauto | tauto | tauto | lia].
Qed.

End RetrievalProperties.

Lemma fetchWithRetry_body_validated_witness :
  100 <= String.length page /\
  requests initial
  < requests (mkWorld 1 2 0
                [ EvFetch ("https://corsproxy.io/?" ++ storyUrl);
                  EvSleep 2000;
                  EvFetch ("https://api.allorigins.win/raw?url=" ++ storyUrl) ]) /\
  requests (mkWorld 1 2 0
              [ EvFetch ("https://corsproxy.io/?" ++ storyUrl);
                EvSleep 2000;
                EvFetch ("https://api.allorigins.win/raw?url=" ++ storyUrl) ])
  <= requests initial + 3.
Proof.
  apply (fetchWithRetry_body_validated flakyHost storyUrl 3 initial).
  reflexivity.
Defined.

Lemma fetchWithRetry_failure_exhausts_witness :
  requests (mkWorld 2 3 0
              [ EvFetch ("https://corsproxy.io/?" ++ storyUrl);
                EvSleep 2000;
                EvFetch ("https://api.allorigins.win/raw?url=" ++ storyUrl);
                EvSleep 2000;
                EvFetch ("https://cors-anywhere.herokuapp.com/" ++ storyUrl) ])
  = requests initial + 3 /\
  exists d,
    Error "Failed to fetch after 3 attempts: Failed to fetch"
    = Error (exhaustedMessage 3 d).
Proof.
  apply (fetchWithRetry_failure_exhausts offlineHost storyUrl 3 initial).
  - lia.
  - reflexivity.
Defined.

Lemma fetchWithRetry_effects_witness :
  exists c w',
    fetchWithRetry flakyHost storyUrl 3 initial = (c, w') /\
    Extends isNetwork initial w' /\
    clockReads w' = clockReads initial /\
    currentProxyIndex w' < 3 /\
    In (getProxy w') CORS_PROXIES.
Proof.
  apply (fetchWithRetry_effects flakyHost storyUrl 3 initial).
  simpl. lia.
Defined.

(** ** Discovery, extraction and the download loop, whatever the host does *)

Section RunProperties.

Variable host : Host.

Local Arguments String.append : simpl never.
Local Arguments show_nat : simpl never.

Lemma fetchWithRetry_post (url : string) (w : World) :
  exists c w',
    fetchWithRetry host url 3 w = (c, w') /\
    clockReads w' = clockReads w /\
    Extends isNetwork w w' /\
    requests w' <= requests w + 3 /\
    match c with
    | Returned text => 100 <= String.length text
    | Threw e => exists d, e = Error (exhaustedMessage 3 d)
    end.
Proof.
  destruct (retryLoop_post host url 3 3 0 None w eq_refl)
    as [c [w' [Hrun [Hclock [Hext [Hle Hcase]]]]]].
  exists c, w'. repeat (split; [assumption|]).
  destruct c as [text | e].
  - exact (proj1 Hcase).
  - apply (proj2 Hcase). left. lia.
Qed.

Lemma collectLinks_length (links : list Element) :
  forall chapters refs,
    collectLinks links chapters = Returned refs ->
    List.length refs = List.length chapters + List.length links.
Proof.
  induction links as [|link links IH]; intros chapters refs H.
  - simpl in H. injection H as H. subst refs. simpl. lia.
  - cbn [collectLinks] in H.
    destruct (getAttribute link "href") as [href|]; [|discriminate H].
    apply IH in H. rewrite H, length_app. simpl. lia.
Qed.

(** What a run of [fetchChapters] comes to, for any host. *)
Lemma fetchChapters_post (url : string) (w : World) :
  exists c w',
    fetchChapters host url w = (c, w') /\
    Extends isNetwork w w' /\
    clockReads w' = clockReads w /\
    requests w' <= requests w + 3 /\
    match c with
    | Returned chapters => chapters <> []
    | Threw _ => True
    end.
Proof.
  destruct (fetchWithRetry_post url w)
    as [c [w' [Hrun [Hclock [Hext [Hle _]]]]]].
  unfold fetchChapters, bind. rewrite Hrun.
  destruct c as [html | e].
  - cbv zeta.
    destruct (querySelectorAll (parseFromString host html) ".ser-ttl a")
      as [|link links] eqn:Hlinks.
    + eexists. eexists. split; [reflexivity|].
      repeat (split; [assumption|]). discriminate.
    + cbn [List.length Nat.ltb Nat.leb]. unfold lift.
      eexists. eexists. split; [reflexivity|].
      repeat (split; [assumption|]).
      destruct (collectLinks (link :: links) []) as [refs | e] eqn:Hcollect;
        [|exact I].
      apply collectLinks_length in Hcollect.
      intros Hnil. subst refs. simpl in Hcollect. lia.
  - eexists. eexists. split; [reflexivity|].
    repeat (split; [assumption|]). exact I.
Qed.

(** What a run of [fetchChapterContent] comes to, for any host. *)
Lemma fetchChapterContent_post (url : string)
  (chapterNum totalChapters : nat) (w : World) :
  exists c w',
    fetchChapterContent host url chapterNum totalChapters w = (c, w') /\
    Extends isNetwork w w' /\
    clockReads w' = clockReads w /\
    requests w' <= requests w + 3 /\
    match c with
    | Returned _ => True
    | Threw e =>
        exists d, e = Error (chapterMessage chapterNum totalChapters d) /\
          (d = "Could not find story content for chapter "
                 ++ show_nat chapterNum
           \/ exists d', d = exhaustedMessage 3 d')
    end.
Proof.
  destruct (fetchWithRetry_post url w)
    as [c [w' [Hrun [Hclock [Hext [Hle Hcase]]]]]].
  unfold fetchChapterContent, tryCatch, bind. rewrite Hrun.
  destruct c as [html | e].
  - cbv zeta.
    destruct (match
                 match querySelector (parseFromString host html) ".aa_ht" with
                 | Some _ => querySelector (parseFromString host html) ".aa_ht"
                 | None =>
                     querySelector (parseFromString host html)
                       "div.panel article"
                 end
               with
               | Some _ =>
                   match
                     querySelector (parseFromString host html) ".aa_ht"
                   with
                   | Some _ =>
                       querySelector (parseFromString host html) ".aa_ht"
                   | None =>
                       querySelector (parseFromString host html)
                         "div.panel article"
                   end
               | None =>
                   querySelector (parseFromString host html) ".b-story-body-x"
               end) as [el|].
    + eexists. eexists. split; [reflexivity|].
      repeat (split; [assumption|]). exact I.
    + eexists. eexists. split; [reflexivity|].
      repeat (split; [assumption|]).
      eexists. split; [reflexivity|]. left. reflexivity.
  - destruct Hcase as [d Hd]. subst e.
    eexists. eexists. split; [reflexivity|].
    repeat (split; [assumption|]).
    eexists. split; [reflexivity|]. right. exists d. reflexivity.
Qed.

(** X4.  Whatever the host does, a list that [fetchChapters] returns is
    never empty (so the check for no chapters in [handleConvert] cannot
    fire); it was obtained with at most three requests and without reading
    the clock. *)
Theorem fetchChapters_never_empty (url : string) (w w' : World)
  (chapters : list ChapterRef) :
  fetchChapters host url w = (Returned chapters, w') ->
  chapters <> [] /\
  requests w' <= requests w + 3 /\
  clockReads w' = clockReads w.
Proof.
  intros Hrun.
  destruct (fetchChapters_post url w)
    as [c [w1 [Hrun1 [_ [Hclock [Hle Hcase]]]]]].
  rewrite Hrun in Hrun1. injection Hrun1 as Hc Hw. subst c w1.
  repeat split; assumption.
Qed.

(** X5.  Whatever the host does, every error that [fetchChapterContent]
    throws is an [Error] whose message is "Failed to fetch chapter N/T: "
    followed by the detail of its cause, which is either the missing story
    content or the exhausted retrieval. *)
Theorem fetchChapterContent_wraps_errors (url : string)
  (chapterNum totalChapters : nat) (w w' : World) (e : JsError) :
  fetchChapterContent host url chapterNum totalChapters w = (Threw e, w') ->
  exists d,
    e = Error (chapterMessage chapterNum totalChapters d) /\
    (d = "Could not find story content for chapter " ++ show_nat chapterNum
     \/ exists d', d = exhaustedMessage 3 d').
Proof.
  intros Hrun.
  destruct (fetchChapterContent_post url chapterNum totalChapters w)
    as [c [w1 [Hrun1 [_ [_ [_ Hcase]]]]]].
  rewrite Hrun in Hrun1. injection Hrun1 as Hc Hw. subst c w1.
  exact Hcase.
Qed.

(** What a run of the download loop comes to, for any host. *)
Lemma downloadChapters_post (rest : list ChapterRef) :
  forall (i total : nat) (chapterContents : list ChapterContent) (w : World),
    exists c w',
      downloadChapters host rest i total chapterContents w = (c, w') /\
      Extends isProgress w w' /\
      clockReads w' = clockReads w /\
      requests w' <= requests w + 3 * List.length rest /\
      match c with
      | Returned contents =>
          map title contents =
            (map title chapterContents ++ map ref_title rest)%list
      | Threw e =>
          exists k d,
            i < k <= i + List.length rest /\
            e = Error (chapterMessage k total d)
      end.
Proof.
  induction rest as [|chapter rest IH]; intros i total acc w.
  - exists (Returned acc), w. split; [reflexivity|].
    split; [apply Extends_refl|]. split; [reflexivity|].
    split; [simpl; lia|]. simpl. rewrite app_nil_r. reflexivity.
  - cbn [downloadChapters]. unfold bind at 1, updateStatus, perform.
    set (w1 := emit (EvStatus (Downloading (i + 1) total) "info") w).
    assert (Hw1 : Extends isProgress w w1)
      by (exists [EvStatus (Downloading (i + 1) total) "info"];
          split; reflexivity).
    assert (Hreq1 : requests w1 = requests w) by reflexivity.
    destruct (fetchChapterContent_post (url chapter) (i + 1) total w1)
      as [c [w2 [Hrun [Hext [Hclock [Hle Hcase]]]]]].
    apply (Extends_weaken isNetwork isProgress) in Hext;
      [|intros [] H; try discriminate H; reflexivity].
    unfold bind at 1. rewrite Hrun.
    destruct c as [content | e].
    + set (acc' := (acc ++ [mkChapterContent (ref_title chapter) content])%list).
      unfold bind at 1.
      assert (Hsleep : exists w3,
                (if i <? total - 1 then sleep 1000 else ret tt) w2
                = (Returned tt, w3) /\
                Extends isProgress w2 w3 /\
                clockReads w3 = clockReads w2 /\
                requests w3 = requests w2).
      { destruct (i <? total - 1).
        - eexists. split; [reflexivity|].
          split; [exists [EvSleep 1000]; split; reflexivity|].
          split; reflexivity.
        - exists w2. split; [reflexivity|].
          split; [apply Extends_refl|]. split; reflexivity. }
      destruct Hsleep as [w3 [Hs [Hext3 [Hclock3 Hreq3]]]].
      rewrite Hs.
      destruct (IH (S i) total acc' w3)
        as [c' [w4 [Hrun4 [Hext4 [Hclock4 [Hle4 Hcase4]]]]]].
      exists c', w4. split; [exact Hrun4|].
      split; [exact (Extends_trans _ _ _ _ Hw1
                       (Extends_trans _ _ _ _ Hext
                          (Extends_trans _ _ _ _ Hext3 Hext4)))|].
      split; [rewrite Hclock4, Hclock3, Hclock; reflexivity|].
      split; [cbn [List.length]; lia|].
      destruct c' as [contents | e].
      * rewrite Hcase4. unfold acc'. rewrite map_app, <- app_assoc.
        reflexivity.
      * destruct Hcase4 as [k [d [Hk He]]]. exists k, d.
        split; [cbn [List.length]; lia | exact He].
    + exists (Threw e), w2. split; [reflexivity|].
      split; [exact (Extends_trans _ _ _ _ Hw1 Hext)|].
      split; [exact Hclock|].
      split; [cbn [List.length]; lia|].
      destruct Hcase as [d [He _]]. exists (i + 1), d.
      split; [cbn [List.length]; lia | exact He].
Qed.

(** X6.  When the download loop of [handleConvert] completes, the chapter
    contents it returns carry the titles of the discovered chapters, one per
    chapter and in discovery order, after those collected before. *)
Theorem downloadChapters_keeps_order (rest : list ChapterRef)
  (i total : nat) (chapterContents contents : list ChapterContent)
  (w w' : World) :
  downloadChapters host rest i total chapterContents w
    = (Returned contents, w') ->
  map title contents = (map title chapterContents ++ map ref_title rest)%list /\
  List.length contents = List.length chapterContents + List.length rest /\
  requests w' <= requests w + 3 * List.length rest.
Proof.
  intros Hrun.
  destruct (downloadChapters_post rest i total chapterContents w)
    as [c [w1 [Hrun1 [_ [_ [Hle Hcase]]]]]].
  rewrite Hrun in Hrun1. injection Hrun1 as Hc Hw. subst c w1.
  split; [exact Hcase|]. split; [|exact Hle].
  apply (f_equal (@List.length string)) in Hcase.
  rewrite length_app, !length_map in Hcase. exact Hcase.
Qed.

(** X7.  An input that is empty once trimmed, or that does not mention
    literotica.com, is refused with one status line of class "error": no
    request is made, the control is not disabled, and nothing else
    changes. *)
Theorem handleConvert_refuses_invalid_input (input : string) (w : World) :
  trim input = "" \/ includes "literotica.com" (trim input) = false ->
  exists s : Status,
    handleConvert host input w = (Returned tt, emit (EvStatus s "error") w) /\
    (s = PleaseEnterUrl \/ s = OnlyLiterotica) /\
    requests (snd (handleConvert host input w)) = requests w.
Proof.
  intros Hbad. unfold handleConvert.
  destruct (String.eqb (trim input) "") eqn:Hempty.
  - exists PleaseEnterUrl. split; [reflexivity|].
    split; [left; reflexivity | reflexivity].
  - destruct Hbad as [Hbad | Hbad].
    + rewrite Hbad in Hempty. discriminate Hempty.
    + rewrite Hbad. exists OnlyLiterotica. split; [reflexivity|].
      split; [right; reflexivity | reflexivity].
Qed.

Lemma Extends_emit (p : Event -> bool) (e : Event) (w : World) :
  p e = true -> Extends p w (emit e w).
Proof.
  intros He. exists [e]. split; [reflexivity|]. simpl. rewrite He. reflexivity.
Qed.

Lemma network_is_progress (e : Event) : isNetwork e = true -> isProgress e = true.
Proof. destruct e; intros H; try discriminate H; reflexivity. Qed.

(** The [try] block of [handleConvert]: after events of the download phase
    only, it either ends with the download and the status of success, or
    throws. *)
Lemma handleConvert_try_post (url : string) (w : World) :
  exists c w1,
    (chapters <- fetchChapters host url ;;
     (if List.length chapters =? 0
      then throw (Error "No chapters found") else ret tt) ;;;
     updateStatus (Found (List.length chapters)) "info" ;;;
     chapterContents <-
       downloadChapters host chapters 0 (List.length chapters) [] ;;
     updateStatus Creating "info" ;;;
     storyTitle <- lift (storyTitleOf chapterContents) ;;
     createEpub host storyTitle chapterContents ;;;
     updateStatus Downloaded "success") w = (c, w1) /\
    match c with
    | Returned _ =>
        exists w0 wa chapters contents storyTitle,
          Extends isProgress w w0 /\
          fetchChapters host url w = (Returned chapters, wa) /\
          map title contents = map ref_title chapters /\
          storyTitleOf contents = Returned storyTitle /\
          trace w1 =
            (trace w0
               ++ [EvSaveAs
                     (buildArchive storyTitle contents
                        (clock host (clockReads w))
                        (clock host (S (clockReads w))))
                     (sanitizeFilename storyTitle ++ ".epub");
                   EvStatus Downloaded "success"])%list /\
          exists wc,
            downloadChapters host chapters 0 (List.length chapters) []
              (emit (EvStatus (Found (List.length chapters)) "info") wa)
            = (Returned contents, wc) /\
            requests w1 = requests wc
    | Threw _ => Extends isProgress w w1
    end.
Proof.
  destruct (fetchChapters_post url w)
    as [c0 [wa [Hrun0 [Hext0 [Hclock0 [_ Hne]]]]]].
  apply (Extends_weaken _ _ _ _ network_is_progress) in Hext0.
  unfold bind at 1. rewrite Hrun0.
  destruct c0 as [chapters | e];
    [|exists (Threw e), wa; split; [reflexivity | exact Hext0]].
  destruct chapters as [|chapter chapters]; [contradiction|].
  set (found := chapter :: chapters) in *.
  replace (List.length found =? 0) with false by reflexivity.
  unfold bind at 1, ret at 1. unfold bind at 1, updateStatus at 1, perform at 1.
  set (wb := emit (EvStatus (Found (List.length found)) "info") wa).
  assert (Hextb : Extends isProgress w wb)
    by (apply (Extends_trans _ _ _ _ Hext0); apply Extends_emit; reflexivity).
  destruct (downloadChapters_post found 0 (List.length found) [] wb)
    as [c1 [wc [Hrun1 [Hext1 [Hclock1 [_ Hcase1]]]]]].
  pose proof (Extends_trans _ _ _ _ Hextb Hext1) as Hextc.
  unfold bind at 1. rewrite Hrun1.
  destruct c1 as [contents | e];
    [|exists (Threw e), wc; split; [reflexivity | exact Hextc]].
  destruct contents as [|first others]; [discriminate Hcase1|].
  unfold bind at 1, updateStatus at 1, perform at 1.
  set (wd := emit (EvStatus Creating "info") wc).
  assert (Hextd : Extends isProgress w wd)
    by (apply (Extends_trans _ _ _ _ Hextc); apply Extends_emit; reflexivity).
  unfold bind at 1, lift.
  destruct (storyTitleOf (first :: others)) as [storyTitle | e] eqn:Htitle;
    [|discriminate Htitle].
  unfold bind at 1. rewrite createEpub_run.
  eexists. eexists. split; [reflexivity|].
  exists wd, wa, found, (first :: others), storyTitle.
  split; [exact Hextd|]. split; [reflexivity|].
  split; [exact Hcase1|]. split; [exact Htitle|].
  assert (Hclockd : clockReads wd = clockReads w)
    by (unfold wd; cbn [emit clockReads]; rewrite Hclock1; unfold wb;
        cbn [emit clockReads]; exact Hclock0).
  split; [cbn [emit trace]; rewrite Hclockd, <- app_assoc; reflexivity|].
  exists wc. split; [exact Hrun1 | reflexivity].
Qed.

(** X8.  For an input that is accepted, [handleConvert] never throws, and
    its events are, in order: the control disabled, the status of analysis,
    events of the download phase (requests, waits, status lines of class
    "info"), then either one download followed by the status of success, or
    one status of class "error"; and last of all the control enabled again.
    So a download happens at most once, only at the end of a run without
    error, and the control is re-enabled whatever the outcome. *)
Theorem handleConvert_outcome (input : string) (w : World) :
  trim input <> "" ->
  includes "literotica.com" (trim input) = true ->
  exists (w' : World) (mid ending : list Event),
    handleConvert host input w = (Returned tt, w') /\
    trace w' =
      (trace w ++ [EvDisabled true; EvStatus Analyzing "info"] ++ mid
         ++ ending ++ [EvDisabled false])%list /\
    forallb isProgress mid = true /\
    ((exists blob filename,
        ending = [EvSaveAs blob filename; EvStatus Downloaded "success"])
     \/ (exists m, ending = [EvStatus (Failed m) "error"])).
Proof.
  intros Hne Hinc. unfold handleConvert.
  replace (String.eqb (trim input) "") with false
    by (symmetry; apply String.eqb_neq; exact Hne).
  rewrite Hinc. cbn [negb].
  unfold bind at 1, setDisabled at 1, perform at 1.
  unfold bind at 1, updateStatus at 1, perform at 1.
  set (ws := emit (EvStatus Analyzing "info") (emit (EvDisabled true) w)).
  assert (Hws : trace ws =
                (trace w ++ [EvDisabled true; EvStatus Analyzing "info"])%list)
    by (unfold ws; cbn [emit trace]; rewrite <- app_assoc; reflexivity).
  unfold tryCatch.
  destruct (handleConvert_try_post (trim input) ws) as [c [w1 [Hrun Hcase]]].
  rewrite Hrun.
  destruct c as [[] | e].
  - destruct Hcase
      as [w0 [wa [chapters [contents [storyTitle
            [[mid [Hmid Hp]] [_ [_ [_ [Htrace _]]]]]]]]]].
    exists (emit (EvDisabled false) w1), mid,
      [EvSaveAs
         (buildArchive storyTitle contents (clock host (clockReads ws))
            (clock host (S (clockReads ws))))
         (sanitizeFilename storyTitle ++ ".epub");
       EvStatus Downloaded "success"].
    split; [reflexivity|]. split; [|split; [exact Hp|]].
    + cbn [emit trace].
      rewrite Htrace, Hmid, Hws. rewrite <- !app_assoc. reflexivity.
    + left. eexists. eexists. reflexivity.
  - destruct Hcase as [mid [Hmid Hp]].
    exists (emit (EvDisabled false)
              (emit (EvStatus (Failed (message e)) "error") w1)), mid,
      [EvStatus (Failed (message e)) "error"].
    split; [reflexivity|]. split; [|split; [exact Hp|]].
    + cbn [emit trace].
      rewrite Hmid, Hws. rewrite <- !app_assoc. reflexivity.
    + right. exists (message e). reflexivity.
Qed.

Lemma progress_no_download (mid : list Event) (blob : Archive)
  (filename : string) :
  forallb isProgress mid = true -> ~ In (EvSaveAs blob filename) mid.
Proof.
  intros Hp Hin.
  pose proof (proj1 (forallb_forall isProgress mid) Hp _ Hin) as H.
  discriminate H.
Qed.

(** The rotation index stays within the proxy list over discovery and
    extraction. *)
Lemma fetchChapters_index (url : string) (w : World) :
  currentProxyIndex w < 3 ->
  currentProxyIndex (snd (fetchChapters host url w)) < 3.
Proof.
  intros Hidx.
  pose proof (retryLoop_index_in_range host url 3 3 0 None w Hidx) as H.
  unfold fetchChapters, bind. fold (fetchWithRetry host url 3 w) in H.
  destruct (fetchWithRetry host url 3 w) as [[html | e] w1];
    cbn [snd] in *; [|exact H].
  cbv zeta.
  destruct (0 <? List.length
                   (querySelectorAll (parseFromString host html) ".ser-ttl a"));
    exact H.
Qed.

(** A body that [fetchChapterContent] returns was extracted from a page
    delivered for the URL of the chapter during the call. *)
Lemma fetchChapterContent_source (url : string)
  (chapterNum totalChapters : nat) (w w' : World) (body : string) :
  currentProxyIndex w < 3 ->
  fetchChapterContent host url chapterNum totalChapters w
  = (Returned body, w') ->
  ExtractedFrom host url (requests w) (requests w') body /\
  currentProxyIndex w' < 3.
Proof.
  intros Hidx Hrun.
  pose proof (retryLoop_index_in_range host url 3 3 0 None w Hidx) as Hidx'.
  fold (fetchWithRetry host url 3 w) in Hidx'.
  destruct (fetchWithRetry host url 3 w) as [[html | e] w1] eqn:Hfetch.
  - rewrite (fetchChapterContent_after_fetch host url html chapterNum
               totalChapters w w1 Hfetch) in Hrun.
    destruct (firstMatch (parseFromString host html) selectorChain)
      as [el|] eqn:Hel; [|discriminate Hrun].
    injection Hrun as Hbody Hw. subst body w1.
    split; [|exact Hidx'].
    destruct (retryLoop_source host url 3 html 3 0 None w w' Hidx Hfetch)
      as [k [proxy [Hk [Hproxy Hok]]]].
    exists k, proxy, html, el. repeat split; try assumption; lia.
  - unfold fetchChapterContent, tryCatch, bind in Hrun.
    rewrite Hfetch in Hrun. discriminate Hrun.
Qed.

Lemma ExtractedFrom_widen (url body : string) (lo hi lo' hi' : nat) :
  lo' <= lo -> hi <= hi' ->
  ExtractedFrom host url lo hi body -> ExtractedFrom host url lo' hi' body.
Proof.
  intros Hlo Hhi [k [proxy [html [el [Hk H]]]]].
  exists k, proxy, html, el. split; [lia | exact H].
Qed.

(** The contents that the download loop returns: one per chapter, in
    order, each with the title of its chapter and with a body extracted from
    a page delivered for the URL of its chapter during the loop. *)
Lemma downloadChapters_source (rest : list ChapterRef) :
  forall (i total : nat) (chapterContents contents : list ChapterContent)
         (w w' : World),
    currentProxyIndex w < 3 ->
    downloadChapters host rest i total chapterContents w
    = (Returned contents, w') ->
    requests w <= requests w' /\
    exists added,
      contents = (chapterContents ++ added)%list /\
      Forall2 (fun r c =>
                 title c = ref_title r /\
                 ExtractedFrom host (url r) (requests w) (requests w')
                   (content c))
        rest added.
Proof.
  induction rest as [|chapter rest IH];
    intros i total acc contents w w' Hidx Hrun.
  - cbn [downloadChapters] in Hrun. injection Hrun as Hc Hw. subst contents w'.
    split; [lia|]. exists []. rewrite app_nil_r. split; [reflexivity|].
    constructor.
  - cbn [downloadChapters] in Hrun.
    unfold bind at 1, updateStatus, perform in Hrun.
    set (w1 := emit (EvStatus (Downloading (i + 1) total) "info") w) in *.
    assert (Hidx1 : currentProxyIndex w1 < 3) by exact Hidx.
    assert (Hreq1 : requests w1 = requests w) by reflexivity.
    unfold bind at 1 in Hrun.
    destruct (fetchChapterContent host (url chapter) (i + 1) total w1)
      as [[body | e] w2] eqn:Hfetch; [|discriminate Hrun].
    destruct (fetchChapterContent_source _ _ _ _ _ _ Hidx1 Hfetch)
      as [Hbody Hidx2].
    assert (Hle2 : requests w <= requests w2).
    { destruct Hbody as [k [_ [_ [_ [Hk _]]]]]. lia. }
    unfold bind at 1 in Hrun.
    assert (Hsleep : exists w3,
              (if i <? total - 1 then sleep 1000 else ret tt) w2
              = (Returned tt, w3) /\
              currentProxyIndex w3 = currentProxyIndex w2 /\
              requests w3 = requests w2).
    { destruct (i <? total - 1); eexists; repeat split. }
    destruct Hsleep as [w3 [Hs [Hidx3 Hreq3]]].
    rewrite Hs in Hrun.
    destruct (IH (S i) total _ contents w3 w'
                ltac:(rewrite Hidx3; exact Hidx2) Hrun)
      as [Hle [added [Hcontents Hadded]]].
    split; [lia|].
    exists (mkChapterContent (ref_title chapter) body :: added).
    split; [rewrite Hcontents, <- app_assoc; reflexivity|].
    constructor.
    + split; [reflexivity|]. cbn [content].
      apply (ExtractedFrom_widen _ _ (requests w1) (requests w2));
        [lia | lia | exact Hbody].
    + revert Hadded. apply Forall2_impl.
      intros r c [Ht Hx]. split; [exact Ht|].
      apply (ExtractedFrom_widen _ _ (requests w3) (requests w'));
        [lia | lia | exact Hx].
Qed.

(** X20.  For an input that is accepted, whatever [handleConvert] hands
    over for download is the archive of the chapters it discovered and
    downloaded: there is one chapter content per discovered chapter, in
    discovery order, with the title of that chapter and with a body that was
    extracted, by the selector chain and the stripping patterns, from a page
    that the transport delivered with success for the URL of that chapter,
    in answer to a request made after discovery; the project title is
    derived from the first of them; the archive is the one built for that
    title and those contents from two successive readings of the clock; and
    the file name is the sanitised project title followed by ".epub". *)
Theorem handleConvert_download_faithful (input : string) (w w' : World)
  (added : list Event) (blob : Archive) (filename : string) :
  trim input <> "" ->
  includes "literotica.com" (trim input) = true ->
  currentProxyIndex w < 3 ->
  handleConvert host input w = (Returned tt, w') ->
  trace w' = (trace w ++ added)%list ->
  In (EvSaveAs blob filename) added ->
  exists chapters contents storyTitle wa,
    fetchChapters host (trim input)
      (emit (EvStatus Analyzing "info") (emit (EvDisabled true) w))
    = (Returned chapters, wa) /\
    Forall2 (fun r c =>
               title c = ref_title r /\
               ExtractedFrom host (url r) (requests wa) (requests w')
                 (content c))
      chapters contents /\
    storyTitleOf contents = Returned storyTitle /\
    blob = buildArchive storyTitle contents (clock host (clockReads w))
             (clock host (S (clockReads w))) /\
    filename = sanitizeFilename storyTitle ++ ".epub".
Proof.
  intros Hne Hinc Hidx Hconv Hadded Hin. unfold handleConvert in Hconv.
  replace (String.eqb (trim input) "") with false in Hconv
    by (symmetry; apply String.eqb_neq; exact Hne).
  rewrite Hinc in Hconv. cbn [negb] in Hconv.
  unfold bind at 1, setDisabled at 1, perform at 1 in Hconv.
  unfold bind at 1, updateStatus at 1, perform at 1 in Hconv.
  set (ws := emit (EvStatus Analyzing "info") (emit (EvDisabled true) w)) in *.
  assert (Hws : trace ws =
                (trace w ++ [EvDisabled true; EvStatus Analyzing "info"])%list)
    by (unfold ws; cbn [emit trace]; rewrite <- app_assoc; reflexivity).
  assert (Hidxs : currentProxyIndex ws < 3) by exact Hidx.
  unfold tryCatch in Hconv.
  destruct (handleConvert_try_post (trim input) ws) as [c [w1 [Hrun Hcase]]].
  rewrite Hrun in Hconv.
  destruct c as [[] | e].
  - destruct Hcase
      as [w0 [wa [chapters [contents [storyTitle
            [[mid [Hmid Hp]] [Hfetch [Htitles [Hstory [Htrace
              [wc [Hdown Hreq]]]]]]]]]]]].
    injection Hconv as Hw'. subst w'.
    cbn [emit trace requests] in Hadded |- *.
    rewrite Htrace, Hmid, Hws, <- !app_assoc in Hadded.
    apply app_inv_head in Hadded. subst added.
    cbn [app] in Hin.
    destruct Hin as [Hin | [Hin | Hin]]; [discriminate Hin | discriminate Hin|].
    apply in_app_or in Hin. destruct Hin as [Hin | Hin];
      [exfalso; exact (progress_no_download mid blob filename Hp Hin)|].
    cbn [In] in Hin.
    destruct Hin as [Hin | [Hin | [Hin | []]]];
      [|discriminate Hin | discriminate Hin].
    injection Hin as Hblob Hname.
    exists chapters, contents, storyTitle, wa.
    split; [exact Hfetch|]. split.
    + pose proof (fetchChapters_index (trim input) ws Hidxs) as Hidxa.
      rewrite Hfetch in Hidxa. cbn [snd] in Hidxa.
      destruct (downloadChapters_source chapters 0 (List.length chapters) []
                  contents
                  (emit (EvStatus (Found (List.length chapters)) "info") wa)
                  wc Hidxa Hdown)
        as [_ [new [Hnew Hall]]].
      cbn [app] in Hnew. subst new. rewrite Hreq. exact Hall.
    + split; [exact Hstory|].
      split; [symmetry; exact Hblob | symmetry; exact Hname].
  - destruct Hcase as [mid [Hmid Hp]].
    injection Hconv as Hw'. subst w'. exfalso.
    cbn [emit trace] in Hadded.
    rewrite Hmid, Hws, <- !app_assoc in Hadded.
    apply app_inv_head in Hadded. subst added.
    cbn [app] in Hin.
    destruct Hin as [Hin | [Hin | Hin]]; [discriminate Hin | discriminate Hin|].
    apply in_app_or in Hin. destruct Hin as [Hin | Hin];
      [exact (progress_no_download mid blob filename Hp Hin)|].
    cbn [In] in Hin.
    destruct Hin as [Hin | [Hin | []]]; discriminate Hin.
Qed.

End RunProperties.

Lemma fetchChapters_never_empty_witness :
  [ mkChapterRef "Chapter 1" "https://www.literotica.com/s/my-story-ch-01";
    mkChapterRef "Chapter 2" "https://www.literotica.com/s/my-story-ch-02" ]
  <> [] /\
  requests (mkWorld 0 1 0 [EvFetch ("https://corsproxy.io/?" ++ storyUrl)])
  <= requests initial + 3 /\
  clockReads (mkWorld 0 1 0 [EvFetch ("https://corsproxy.io/?" ++ storyUrl)])
  = clockReads initial.
Proof.
  apply (fetchChapters_never_empty
           (servingHost rootedSeriesDoc tickingClock) storyUrl initial).
  reflexivity.
Defined.

Lemma fetchChapterContent_wraps_errors_witness :
  exists d,
    Error "Failed to fetch chapter 1/1: Could not find story content for chapter 1"
    = Error (chapterMessage 1 1 d) /\
    (d = "Could not find story content for chapter " ++ show_nat 1
     \/ exists d', d = exhaustedMessage 3 d').
Proof.
  apply (fetchChapterContent_wraps_errors
           (servingHost noDocument tickingClock) storyUrl 1 1 initial
           (mkWorld 0 1 0 [EvFetch ("https://corsproxy.io/?" ++ storyUrl)])).
  reflexivity.
Defined.

Lemma downloadChapters_keeps_order_witness :
  map title [mkChapterContent "My Story - Part 1" "<p>Once upon a time.</p>"]
  = (map title [] ++ map ref_title [mkChapterRef "My Story - Part 1" storyUrl])%list /\
  List.length [mkChapterContent "My Story - Part 1" "<p>Once upon a time.</p>"]
  = List.length (@nil ChapterContent)
    + List.length [mkChapterRef "My Story - Part 1" storyUrl] /\
  requests (mkWorld 0 1 0
              [ EvStatus (Downloading 1 1) "info";
                EvFetch ("https://corsproxy.io/?" ++ storyUrl) ])
  <= requests initial
     + 3 * List.length [mkChapterRef "My Story - Part 1" storyUrl].
Proof.
  apply (downloadChapters_keeps_order
           (servingHost singleStoryDoc tickingClock)
           [mkChapterRef "My Story - Part 1" storyUrl] 0 1 [] _ initial).
  reflexivity.
Defined.

Lemma handleConvert_refuses_invalid_input_witness :
  exists s : Status,
    handleConvert offlineHost "   " initial
    = (Returned tt, emit (EvStatus s "error") initial) /\
    (s = PleaseEnterUrl \/ s = OnlyLiterotica) /\
    requests (snd (handleConvert offlineHost "   " initial)) = requests initial.
Proof.
  apply (handleConvert_refuses_invalid_input offlineHost "   " initial).
  left. reflexivity.
Defined.

Lemma handleConvert_outcome_witness :
  exists (w' : World) (mid ending : list Event),
    handleConvert (servingHost singleStoryDoc tickingClock) storyUrl initial
    = (Returned tt, w') /\
    trace w' =
      (trace initial ++ [EvDisabled true; EvStatus Analyzing "info"] ++ mid
         ++ ending ++ [EvDisabled false])%list /\
    forallb isProgress mid = true /\
    ((exists blob filename,
        ending = [EvSaveAs blob filename; EvStatus Downloaded "success"])
     \/ (exists m, ending = [EvStatus (Failed m) "error"])).
Proof.
  apply (handleConvert_outcome (servingHost singleStoryDoc tickingClock)
           storyUrl initial).
  - discriminate.
  - reflexivity.
Defined.

(** ** Escaping and file names *)

Section TextProperties.

Lemma xmlText_app (a b : string) : xmlText (a ++ b) = xmlText a ++ xmlText b.
Proof.
  induction a as [|c a IH]; [reflexivity|].
  cbn [append xmlText]. rewrite IH, append_assoc. reflexivity.
Qed.

(** X9.  [escapeXml] works character by character: the escaped form of a
    concatenation is the concatenation of the escaped forms, so a text may be
    escaped in pieces. *)
Theorem escapeXml_app (a b : string) :
  escapeXml (a ++ b) = escapeXml a ++ escapeXml b.
Proof.
  rewrite !escapeXml_xmlText. apply xmlText_app.
Qed.

(** X10.  [escapeXml] loses nothing: two texts with the same escaped form
    are the same text. *)
Theorem escapeXml_injective (a b : string) :
  escapeXml a = escapeXml b -> a = b.
Proof.
  intros H. rewrite !escapeXml_xmlText in H.
  rewrite <- (decodeXml_xmlText a), <- (decodeXml_xmlText b), H.
  reflexivity.
Qed.

Lemma escapeChar_length (c : ascii) :
  1 <= String.length (escapeChar c) <= 6 /\
  (isReservedChar c = false -> escapeChar c = String c "") /\
  (isReservedChar c = true -> 1 < String.length (escapeChar c)).
Proof.
  unfold escapeChar, isReservedChar, isMarkupChar.
  destruct (Ascii.eqb "&" c); [simpl; repeat split; intros; try lia; try discriminate|].
  destruct (Ascii.eqb "<" c); [simpl; repeat split; intros; try lia; try discriminate|].
  destruct (Ascii.eqb ">" c); [simpl; repeat split; intros; try lia; try discriminate|].
  destruct (Ascii.eqb "034" c); [simpl; repeat split; intros; try lia; try discriminate|].
  destruct (Ascii.eqb "'" c); [simpl; repeat split; intros; try lia; try discriminate|].
  simpl. repeat split; intros; try lia; try reflexivity; try discriminate.
Qed.

Lemma xmlText_length (s : string) :
  String.length s <= String.length (xmlText s) <= 6 * String.length s /\
  (forallb_string (fun c => negb (isReservedChar c)) s = false ->
   String.length s < String.length (xmlText s)).
Proof.
  induction s as [|c s [[IHlo IHhi] IHlt]].
  - simpl. split; [lia | discriminate].
  - cbn [xmlText forallb_string]. rewrite append_length.
    destruct (escapeChar_length c) as [[Hlo Hhi] [_ Hres]].
    cbn [String.length]. split; [lia|].
    destruct (isReservedChar c); cbn [negb andb].
    + intros _. specialize (Hres eq_refl). lia.
    + intros Hrest. specialize (IHlt Hrest). lia.
Qed.

(** X11.  [escapeXml] leaves a text unchanged exactly when the text holds
    none of the five reserved characters; it never shortens a text and at
    most multiplies its length by six. *)
Theorem escapeXml_fixed_points (s : string) :
  (escapeXml s = s <->
   forallb_string (fun c => negb (isReservedChar c)) s = true) /\
  String.length s <= String.length (escapeXml s) <= 6 * String.length s.
Proof.
  rewrite escapeXml_xmlText. split; [|exact (proj1 (xmlText_length s))].
  split.
  - intros Hfix.
    destruct (forallb_string (fun c => negb (isReservedChar c)) s) eqn:Hall;
      [reflexivity|].
    pose proof (proj2 (xmlText_length s) Hall) as Hlt.
    rewrite Hfix in Hlt. lia.
  - induction s as [|c s IH]; intros Hall; [reflexivity|].
    cbn [forallb_string] in Hall. apply andb_prop in Hall.
    destruct Hall as [Hc Hs]. apply negb_true_iff in Hc.
    cbn [xmlText].
    rewrite (proj1 (proj2 (escapeChar_length c)) Hc), (IH Hs). reflexivity.
Qed.

Lemma fileNameChar_range (c : ascii) :
  isFileNameChar (fileNameChar c) = true /\
  fileNameChar (fileNameChar c) = fileNameChar c.
Proof. destruct c as [[] [] [] [] [] [] [] []]; split; reflexivity. Qed.

Lemma smap_length (f : ascii -> ascii) (s : string) :
  String.length (smap f s) = String.length s.
Proof.
  induction s as [|c s IH]; simpl; [reflexivity | rewrite IH; reflexivity].
Qed.

(** X12.  A sanitised file name has the length of the title, holds only the
    characters a-z, 0-9 and the underscore, and sanitising it again changes
    nothing. *)
Theorem sanitizeFilename_safe (name : string) :
  String.length (sanitizeFilename name) = String.length name /\
  forallb_string isFileNameChar (sanitizeFilename name) = true /\
  sanitizeFilename (sanitizeFilename name) = sanitizeFilename name.
Proof.
  rewrite !sanitizeFilename_chars. split; [apply smap_length|].
  split.
  - induction name as [|c name IH]; [reflexivity|].
    cbn [smap forallb_string].
    rewrite (proj1 (fileNameChar_range c)), IH. reflexivity.
  - rewrite smap_smap. apply smap_ext.
    intros c. exact (proj2 (fileNameChar_range c)).
Qed.

Lemma startsWith_firstSeg (sep s : string) :
  startsWith (firstSeg sep s) s = true.
Proof.
  induction s as [|c s IH]; [reflexivity|].
  cbn [firstSeg]. destruct (startsWith sep (String c s)); [reflexivity|].
  cbn [startsWith]. rewrite Ascii.eqb_refl, IH. reflexivity.
Qed.

Lemma firstSeg_no_sep (sep s : string) :
  sep <> "" -> ~ Occurs sep (firstSeg sep s).
Proof.
  intros Hsep [a [b Hab]].
  destruct (firstSeg_spec sep s) as [[rest [Hs Hmin]] | [Hs Hno]].
  - assert (Hs' : s = a ++ sep ++ (b ++ sep ++ rest)).
    { rewrite Hs at 1. rewrite Hab at 1. rewrite !append_assoc. reflexivity. }
    specialize (Hmin a _ Hs').
    rewrite Hab, !append_length in Hmin.
    destruct sep; [contradiction | simpl in Hmin; lia].
  - apply Hno. rewrite <- Hs. exists a, b. exact Hab.
Qed.

(** X13.  For a chapter list that is not empty, the project title is never
    empty and never contains the delimiter " - "; it is a prefix of the
    title of the first chapter or the default title, and the chapters after
    the first play no part in it.  For the empty list, reading the title
    fails. *)
Theorem storyTitleOf_well_formed (first : ChapterContent)
  (others : list ChapterContent) :
  exists storyTitle,
    storyTitleOf (first :: others) = Returned storyTitle /\
    storyTitleOf [first] = Returned storyTitle /\
    storyTitle <> "" /\
    ~ Occurs " - " storyTitle /\
    (startsWith storyTitle (title first) = true
     \/ storyTitle = "Literotica Story") /\
    (forall e, storyTitleOf [] <> Returned e).
Proof.
  unfold storyTitleOf, split. rewrite split_go_hd. cbn [append].
  eexists. split; [reflexivity|]. split; [reflexivity|].
  destruct (String.eqb (firstSeg " - " (title first)) "") eqn:Hempty.
  - split; [discriminate|]. split.
    + intros [a [b H]].
      assert (Hcheck : includes " - " "Literotica Story" = false)
        by reflexivity.
      apply (f_equal (includes " - ")) in H. rewrite Hcheck in H.
      clear Hcheck. symmetry in H.
      assert (Hinc : forall a y, startsWith " - " y = true ->
                                 includes " - " (a ++ y) = true).
      { clear. intros a y Hy. induction a as [|c a IH].
        - destruct y; cbn [append includes]; rewrite Hy; reflexivity.
        - cbn [append includes]. rewrite IH. apply orb_true_r. }
      rewrite (Hinc a (" - " ++ b) (startsWith_app " - " b)) in H.
      discriminate H.
    + split; [right; reflexivity | discriminate].
  - apply String.eqb_neq in Hempty. split; [exact Hempty|]. split.
    + apply firstSeg_no_sep. discriminate.
    + split; [left; apply startsWith_firstSeg | discriminate].
Qed.

End TextProperties.

Lemma escapeXml_injective_witness : fooBar = fooBar.
Proof.
  apply (escapeXml_injective fooBar fooBar). reflexivity.
Defined.

(** ** The entries of the archive *)

Section ArchiveProperties.

Local Arguments String.append : simpl never.
Local Arguments show_nat : simpl never.

Lemma NoDup_chapterEntryNames (n i : nat) :
  NoDup (map chapterEntryName (seq i n)).
Proof.
  revert i. induction n as [|n IH]; intros i; [constructor|].
  cbn [seq map]. constructor; [|apply IH].
  intros Hin. apply in_map_iff in Hin. destruct Hin as [k [Hk Hin]].
  apply chapterEntryName_inj in Hk. apply in_seq in Hin. lia.
Qed.

Lemma get_in_nodup (a : Archive) (e : Entry) :
  NoDup (map name a) -> In e a -> get (name e) a = Some e.
Proof.
  induction a as [|x a IH]; intros Hnd Hin; [contradiction|].
  cbn [map] in Hnd. apply NoDup_cons_iff in Hnd. destruct Hnd as [Hx Hnd].
  cbn [get]. destruct Hin as [Heq | Hin].
  - subst x. rewrite String.eqb_refl. reflexivity.
  - destruct (String.eqb (name x) (name e)) eqn:Hname; [|apply IH; assumption].
    apply String.eqb_eq in Hname. exfalso. apply Hx. rewrite Hname.
    apply in_map. exact Hin.
Qed.

(** X14.  In the archive that [createEpub] builds, no two entries have the
    same name, so none of its assignments overwrites an earlier one; there
    are six entries besides the chapter documents; looking up the name of
    any entry gives that entry back; the folder entries are META-INF/ and
    OEBPS/ and no other; mimetype, by the option given to it, and the two
    folder entries, as the archive writer stores every folder entry, are
    stored; and no entry asks for deflation. *)
Theorem buildArchive_entries_distinct (title : string)
  (chapters : list ChapterContent) (now1 now2 : Z) :
  NoDup (map name (buildArchive title chapters now1 now2)) /\
  List.length (buildArchive title chapters now1 now2)
  = List.length chapters + 6 /\
  (forall e, In e (buildArchive title chapters now1 now2) ->
             get (name e) (buildArchive title chapters now1 now2) = Some e) /\
  (forall e, In e (buildArchive title chapters now1 now2) ->
             dir e = String.eqb (name e) "META-INF/"
                     || String.eqb (name e) "OEBPS/") /\
  (forall e, In e (buildArchive title chapters now1 now2) ->
             name e = "mimetype" \/ dir e = true ->
             compression e = Some STORE) /\
  (forall e, In e (buildArchive title chapters now1 now2) ->
             compression e <> Some DEFLATE).
Proof.
  assert (Hnd : NoDup (map name (buildArchive title chapters now1 now2))).
  { rewrite buildArchive_names.
    apply NoDup_app.
    - repeat constructor; simpl; intuition discriminate.
    - apply NoDup_app.
      + apply NoDup_chapterEntryNames.
      + repeat constructor; simpl; intuition discriminate.
      + intros a Ha Hb. apply in_map_iff in Ha. destruct Ha as [k [Hk _]].
        subst a. simpl in Hb. intuition discriminate.
    - intros a Ha Hb. apply in_app_or in Hb. destruct Hb as [Hb | Hb].
      + apply in_map_iff in Hb. destruct Hb as [k [Hk _]]. subst a.
        simpl in Ha. intuition discriminate.
      + simpl in Ha, Hb. intuition congruence. }
  assert (Hkinds : forall e,
            In e (buildArchive title chapters now1 now2) ->
            dir e = String.eqb (name e) "META-INF/"
                    || String.eqb (name e) "OEBPS/" /\
            compression e =
              if String.eqb (name e) "mimetype" || dir e
              then Some STORE else None).
  { intros e He. rewrite buildArchive_entries in He.
    apply in_app_or in He. destruct He as [He | He].
    - simpl in He.
      destruct He as [He | [He | [He | [He | []]]]]; subst e;
        split; reflexivity.
    - apply in_app_or in He. destruct He as [He | He].
      + apply in_map_iff in He. destruct He as [p [Hp _]]. subst e.
        split; reflexivity.
      + simpl in He. destruct He as [He | [He | []]]; subst e;
          split; reflexivity. }
  split; [exact Hnd|]. split; [|split; [|split; [|split]]].
  - rewrite <- (length_map name), buildArchive_names.
    rewrite !length_app, length_map, length_seq. simpl. lia.
  - intros e He. apply get_in_nodup; assumption.
  - intros e He. exact (proj1 (Hkinds e He)).
  - intros e He Hkind. rewrite (proj2 (Hkinds e He)).
    destruct Hkind as [Hname | Hdir].
    + rewrite Hname. reflexivity.
    + rewrite Hdir, orb_true_r. reflexivity.
  - intros e He. rewrite (proj2 (Hkinds e He)).
    destruct (String.eqb (name e) "mimetype" || dir e); discriminate.
Qed.

Lemma numbered_titles (cs1 cs2 : list ChapterContent) (f : nat -> string -> string) :
  map title cs1 = map title cs2 ->
  map (fun p => f (fst p) (escapeXml (title (snd p)))) (numbered cs1) =
  map (fun p => f (fst p) (escapeXml (title (snd p)))) (numbered cs2).
Proof.
  unfold numbered. generalize 1 as i. revert cs2.
  induction cs1 as [|c1 cs1 IH]; intros cs2 i H.
  - destruct cs2; [reflexivity | discriminate H].
  - destruct cs2 as [|c2 cs2]; [discriminate H|].
    cbn [map] in H. injection H as Ht Hrest.
    cbn [List.length seq combine map fst snd].
    rewrite Ht, (IH cs2 (S i) Hrest). reflexivity.
Qed.

(** X15.  The bodies of the chapters reach the chapter documents only:
    content.opf is the same for any two chapter lists of the same length,
    and toc.ncx is the same for any two chapter lists with the same titles;
    neither depends on the other reading of the clock. *)
Theorem package_ignores_bodies (title : string)
  (cs1 cs2 : list ChapterContent) (now1 now2 other1 other2 : Z) :
  (List.length cs1 = List.length cs2 ->
   get "OEBPS/content.opf" (buildArchive title cs1 now1 now2)
   = get "OEBPS/content.opf" (buildArchive title cs2 now1 other2)) /\
  (map App.title cs1 = map App.title cs2 ->
   get "OEBPS/toc.ncx" (buildArchive title cs1 now1 now2)
   = get "OEBPS/toc.ncx" (buildArchive title cs2 other1 now2)).
Proof.
  split.
  - intros Hlen. rewrite !buildArchive_get_package, Hlen. reflexivity.
  - intros Htitles. rewrite !buildArchive_get_navigation.
    unfold navigationEntry.
    rewrite (numbered_titles cs1 cs2 navPointFor Htitles). reflexivity.
Qed.

End ArchiveProperties.

Lemma package_ignores_bodies_witness :
  get "OEBPS/content.opf"
    (buildArchive "My Story"
       [mkChapterContent "My Story - Part 1" "<p>One.</p>"] 0 0)
  = get "OEBPS/content.opf"
      (buildArchive "My Story"
         [mkChapterContent "Another title" "<script>x</script>"] 0 1).
Proof.
  apply (proj1 (package_ignores_bodies "My Story"
                  [mkChapterContent "My Story - Part 1" "<p>One.</p>"]
                  [mkChapterContent "Another title" "<script>x</script>"]
                  0 0 0 1)).
  reflexivity.
Defined.

(** ** What the stripping patterns can and cannot do *)

Section StrippingProperties.

Lemma Subseq_refl (s : string) : Subseq s s.
Proof. induction s; constructor; assumption. Qed.

Lemma Subseq_trans (a b c : string) : Subseq a b -> Subseq b c -> Subseq a c.
Proof.
  intros Hab Hbc. revert a Hab.
  induction Hbc as [|x b c Hbc IH|x b c Hbc IH]; intros a Hab.
  - exact Hab.
  - inversion Hab as [|y a' b' Hab'|y a' b' Hab']; subst.
    + apply Subseq_keep. apply IH. exact Hab'.
    + apply Subseq_drop. apply IH. exact Hab'.
  - apply Subseq_drop. apply IH. exact Hab.
Qed.

Lemma Subseq_length (a b : string) :
  Subseq a b -> String.length a <= String.length b.
Proof. induction 1; simpl; lia. Qed.

(** Replacing matches by the empty text only deletes characters, whatever
    the pattern. *)
Lemma replace_go_subseq (r : regex) (s : string) :
  forall (skip : nat) (prev : option ascii),
    Subseq (replace_go r "" skip prev s) s.
Proof.
  induction s as [|c s IH]; intros skip prev.
  - cbn [replace_go]. destruct skip; [|constructor].
    destruct (exec r (prev, "")); constructor.
  - cbn [replace_go]. destruct skip as [|j].
    + destruct (exec r (prev, String c s)) as [[p rest]|].
      * destruct (String.length (String c s) - String.length rest).
        -- apply Subseq_keep. apply IH.
        -- apply Subseq_drop. apply IH.
      * apply Subseq_keep. apply IH.
    + apply Subseq_drop. apply IH.
Qed.

(** X16.  [cleanContent] only deletes: its result is the input with some
    characters removed, in the same order, and so it is never longer than
    the input. *)
Theorem cleanContent_only_deletes (content : string) :
  Subseq (cleanContent content) content /\
  String.length (cleanContent content) <= String.length content.
Proof.
  assert (H : Subseq (cleanContent content) content).
  { unfold cleanContent, replaceAll.
    eapply Subseq_trans; [apply replace_go_subseq|].
    eapply Subseq_trans; [apply replace_go_subseq|].
    apply replace_go_subseq. }
  split; [exact H | apply Subseq_length; exact H].
Qed.

Lemma strip_no_opener (tag s : string) :
  mentionsOpener tag s = false ->
  replaceAll (stripPattern tag) "" s = s.
Proof.
  induction s as [|c s IH]; intros Hno.
  - unfold replaceAll. cbn [replace_go].
    rewrite exec_stripPattern. reflexivity.
  - cbn [mentionsOpener] in Hno. apply orb_false_elim in Hno.
    destruct Hno as [Hhere Hrest].
    rewrite strip_keep.
    + rewrite (IH Hrest). reflexivity.
    + unfold matchTag. rewrite (startsCI_none _ _ Hhere). reflexivity.
Qed.

(** X17.  A fragment that nowhere contains "<script", "<style" or
    "<iframe", in any letter case, is returned by [cleanContent] exactly as
    it is. *)
Theorem cleanContent_without_openers (content : string) :
  mentionsOpener "script" content = false ->
  mentionsOpener "style" content = false ->
  mentionsOpener "iframe" content = false ->
  cleanContent content = content.
Proof.
  intros Hscript Hstyle Hiframe. unfold cleanContent.
  rewrite (strip_no_opener "script" content Hscript).
  rewrite (strip_no_opener "style" content Hstyle).
  apply strip_no_opener. exact Hiframe.
Qed.

Lemma lastOr_lastChar (m : string) (prev : option ascii) :
  lastOr prev m = match lastChar m with Some c => Some c | None => prev end.
Proof.
  revert prev. induction m as [|c m IH]; intros prev; [reflexivity|].
  cbn [lastOr lastChar]. rewrite IH.
  destruct m as [|d m]; [reflexivity|].
  destruct (lastChar (String d m)) eqn:Hl; [reflexivity|].
  exfalso. clear -Hl. revert d Hl.
  induction m as [|e m IHm]; intros d Hl; [discriminate Hl|].
  apply (IHm e). exact Hl.
Qed.

Lemma ciPrefix_sound (q : string) :
  forall (prev : option ascii) (s : string) (st : State),
    ciPrefix q prev s = Some st ->
    exists m, s = m ++ snd st /\ ciEq m q /\ fst st = lastOr prev m.
Proof.
  induction q as [|c q IH]; intros prev s st H.
  - cbn [ciPrefix] in H. injection H as H. subst st.
    exists "". repeat split.
  - destruct s as [|a s]; [discriminate H|].
    cbn [ciPrefix] in H.
    destruct (Ascii.eqb (canon a) (canon c)) eqn:Hac; [|discriminate H].
    apply Ascii.eqb_eq in Hac.
    destruct (IH (Some a) s st H) as [m [Hs [Hm Hst]]].
    exists (String a m). split; [cbn [append]; rewrite <- Hs; reflexivity|].
    split; [|exact Hst].
    unfold ciEq in *. cbn [smap]. rewrite Hac, Hm. reflexivity.
Qed.

Lemma ciPrefix_complete (q : string) :
  forall (prev : option ascii) (m b : string),
    ciEq m q -> ciPrefix q prev (m ++ b) = Some (lastOr prev m, b).
Proof.
  induction q as [|c q IH]; intros prev m b Hm.
  - destruct m; [reflexivity | discriminate Hm].
  - destruct m as [|a m]; [discriminate Hm|].
    unfold ciEq in Hm. cbn [smap] in Hm. injection Hm as Hac Hm.
    cbn [append ciPrefix lastOr]. rewrite Hac, Ascii.eqb_refl.
    apply IH. exact Hm.
Qed.

Lemma scanClose_sound (close : string) (s : string) :
  forall (prev : option ascii) (st : State),
    scanClose close prev s = Some st ->
    exists inner m,
      s = inner ++ m ++ snd st /\ ciEq m close /\ FirstAt close inner s /\
      fst st = lastOr (lastOr prev inner) m.
Proof.
  induction s as [|c s IH]; intros prev st H.
  - cbn [scanClose] in H.
    destruct (ciPrefix close prev "") as [st'|] eqn:Hp; [|discriminate H].
    injection H as H. subst st'.
    destruct (ciPrefix_sound close prev "" st Hp) as [m [Hs [Hm Hst]]].
    exists "", m. split; [exact Hs|]. split; [exact Hm|].
    split; [intros a m' b _ _; simpl; lia | exact Hst].
  - cbn [scanClose] in H.
    destruct (ciPrefix close prev (String c s)) as [st'|] eqn:Hp.
    + injection H as H. subst st'.
      destruct (ciPrefix_sound close prev _ st Hp) as [m [Hs [Hm Hst]]].
      exists "", m. split; [exact Hs|]. split; [exact Hm|].
      split; [intros a m' b _ _; simpl; lia | exact Hst].
    + destruct (IH (Some c) st H) as [inner [m [Hs [Hm [Hfirst Hst]]]]].
      exists (String c inner), m.
      split; [cbn [append]; rewrite <- Hs; reflexivity|].
      split; [exact Hm|]. split; [|exact Hst].
      intros a m' b Hab Hm'. destruct a as [|x a].
      * cbn [append] in Hab. rewrite Hab in Hp.
        rewrite (ciPrefix_complete close prev m' b Hm') in Hp.
        discriminate Hp.
      * cbn [append] in Hab. injection Hab as Hx Hab.
        cbn [String.length]. apply le_n_S. exact (Hfirst a m' b Hab Hm').
Qed.

Lemma scanClose_complete (close : string) (inner : string) :
  forall (prev : option ascii) (m rest : string),
    ciEq m close ->
    FirstAt close inner (inner ++ m ++ rest) ->
    scanClose close prev (inner ++ m ++ rest) =
      Some (lastOr (lastOr prev inner) m, rest).
Proof.
  induction inner as [|c inner IH]; intros prev m rest Hm Hfirst.
  - cbn [append lastOr].
    assert (Hp := ciPrefix_complete close prev m rest Hm).
    destruct (m ++ rest) eqn:Hs; cbn [scanClose]; rewrite Hp; reflexivity.
  - cbn [append scanClose lastOr].
    destruct (ciPrefix close prev (String c (inner ++ m ++ rest)))
      as [st|] eqn:Hp.
    + exfalso.
      destruct (ciPrefix_sound close prev _ st Hp) as [m' [Hs [Hm' _]]].
      specialize (Hfirst "" m' (snd st) Hs Hm'). simpl in Hfirst. lia.
    + apply IH; [exact Hm|].
      intros a m' b Hab Hm'.
      assert (Hs : String c inner ++ m ++ rest = String c a ++ m' ++ b)
        by (cbn [append]; rewrite Hab; reflexivity).
      specialize (Hfirst (String c a) m' b Hs Hm').
      simpl in Hfirst. lia.
Qed.

(** X18.  What a stripping pattern matches, in full: the pattern for [tag]
    matches at the start of [s], leaving [rest], exactly when [s] is an
    opener, an inner part, a closer and [rest], where the opener is "<tag"
    and the closer is "</tag>" in any letter case, a word boundary follows
    the opener, and the closer is the first closing tag after the opener.
    So a match always runs to the first closing tag, whatever lies
    between. *)
Theorem stripPattern_match_extent (tag : string) (prev : option ascii)
  (s rest : string) :
  (exists p, exec (stripPattern tag) (prev, s) = Some (p, rest))
  <->
  (exists opener inner closer,
     s = opener ++ inner ++ closer ++ rest /\
     ciEq opener ("<" ++ tag) /\
     ciEq closer ("</" ++ tag ++ ">") /\
     xorb (wordBefore (lastChar opener, inner ++ closer ++ rest))
          (wordAfter (lastChar opener, inner ++ closer ++ rest)) = true /\
     FirstAt ("</" ++ tag ++ ">") inner (inner ++ closer ++ rest)).
Proof.
  rewrite exec_stripPattern. unfold matchTag. split.
  - intros [p H].
    destruct (ciPrefix ("<" ++ tag) None s) as [st|] eqn:Hopen;
      [|discriminate H].
    destruct (ciPrefix_sound _ _ _ _ Hopen) as [opener [Hs [Ho Hlast]]].
    destruct (xorb (wordBefore st) (wordAfter st)) eqn:Hb; [|discriminate H].
    destruct (scanClose_sound _ _ _ _ H)
      as [inner [closer [Htail [Hc [Hfirst _]]]]].
    cbn [snd] in Htail.
    exists opener, inner, closer.
    split; [rewrite Hs, Htail; reflexivity|].
    split; [exact Ho|]. split; [exact Hc|].
    rewrite lastOr_lastChar in Hlast.
    assert (Hst : st = (lastChar opener, inner ++ closer ++ rest)).
    { destruct st as [p1 s1]. cbn [fst snd] in *. subst s1. f_equal.
      rewrite Hlast. destruct (lastChar opener); reflexivity. }
    rewrite <- Hst. split; [exact Hb|].
    rewrite <- Htail. exact Hfirst.
  - intros [opener [inner [closer [Hs [Ho [Hc [Hb Hfirst]]]]]]].
    subst s.
    rewrite (ciPrefix_complete _ None opener _ Ho).
    rewrite lastOr_lastChar.
    replace (match lastChar opener with Some c => Some c | None => None end)
      with (lastChar opener) by (destruct (lastChar opener); reflexivity).
    rewrite Hb. cbn [fst snd].
    rewrite (scanClose_complete _ inner _ closer rest Hc Hfirst).
    eexists. reflexivity.
Qed.

End StrippingProperties.

Lemma cleanContent_without_openers_witness :
  cleanContent "<p>A <b>bold</b> move, a &lt;script&gt; in text.</p>"
  = "<p>A <b>bold</b> move, a &lt;script&gt; in text.</p>".
Proof.
  apply cleanContent_without_openers; reflexivity.
Defined.

(** ** The rotation of the proxies *)

(** X19.  From an index inside the proxy list, [getProxy] yields one of the
    three proxies, three successive rotations visit three different proxies
    and come back to the first, and a rotation changes nothing but the
    index. *)
Theorem rotation_cycles (w : World) :
  currentProxyIndex w < 3 ->
  In (getProxy w) CORS_PROXIES /\
  NoDup [getProxy w; getProxy (rotated w); getProxy (rotated (rotated w))] /\
  getProxy (rotated (rotated (rotated w))) = getProxy w /\
  currentProxyIndex (rotated w) < 3 /\
  requests (rotated w) = requests w /\
  clockReads (rotated w) = clockReads w /\
  trace (rotated w) = trace w.
Proof.
  intros Hidx. destruct w as [i r c t]. cbn [currentProxyIndex] in Hidx.
  unfold rotated, rotate, perform, getProxy.
  cbn [snd currentProxyIndex requests clockReads trace].
  destruct i as [|[|[|i]]]; [| | |lia];
    (split; [simpl; tauto|]);
    (split; [repeat constructor; simpl; intuition discriminate|]);
    (split; [reflexivity|]);
    (split; [simpl; lia|]);
    repeat split.
Qed.

Lemma rotation_cycles_witness :
  In (getProxy initial) CORS_PROXIES /\
  NoDup [ getProxy initial; getProxy (rotated initial);
          getProxy (rotated (rotated initial)) ] /\
  getProxy (rotated (rotated (rotated initial))) = getProxy initial /\
  currentProxyIndex (rotated initial) < 3 /\
  requests (rotated initial) = requests initial /\
  clockReads (rotated initial) = clockReads initial /\
  trace (rotated initial) = trace initial.
Proof.
  apply (rotation_cycles initial). simpl. lia.
Defined.

(** The run on the standalone story hands over, under the name
    my_story.epub, the archive of one chapter whose body is the story markup
    of the page with its script element stripped. *)
Lemma handleConvert_download_faithful_witness :
  handleConvert (servingHost singleStoryDoc tickingClock) storyUrl initial
  = (Returned tt, mkWorld 0 2 2 singleStoryEvents) /\
  In (EvSaveAs singleStoryArchive "my_story.epub") singleStoryEvents /\
  exists chapters contents storyTitle wa,
    fetchChapters (servingHost singleStoryDoc tickingClock) (trim storyUrl)
      (emit (EvStatus Analyzing "info") (emit (EvDisabled true) initial))
    = (Returned chapters, wa) /\
    Forall2 (fun r c =>
               title c = ref_title r /\
               ExtractedFrom (servingHost singleStoryDoc tickingClock) (url r)
                 (requests wa) 2 (content c))
      chapters contents /\
    storyTitleOf contents = Returned storyTitle /\
    singleStoryArchive
    = buildArchive storyTitle contents 1700000000000 1700000000001 /\
    "my_story.epub" = sanitizeFilename storyTitle ++ ".epub".
Proof.
  assert (Hrun : handleConvert (servingHost singleStoryDoc tickingClock)
                   storyUrl initial
                 = (Returned tt, mkWorld 0 2 2 singleStoryEvents))
    by (vm_compute; reflexivity).
  assert (Hin : In (EvSaveAs singleStoryArchive "my_story.epub")
                  singleStoryEvents)
    by (simpl; tauto).
  split; [exact Hrun|]. split; [exact Hin|].
  apply (handleConvert_download_faithful
           (servingHost singleStoryDoc tickingClock) storyUrl initial
           (mkWorld 0 2 2 singleStoryEvents) singleStoryEvents
           singleStoryArchive "my_story.epub").
  - discriminate.
  - reflexivity.
  - simpl. lia.
  - exact Hrun.
  - reflexivity.
  - exact Hin.
Defined.
